(** * Spatiotemporal feature pipeline of the taxi-demand forecaster

    A shallow embedding of [TaxiDataProcessor] (row validation, region
    binning, temporal aggregation, sliding-window sequence construction,
    train/test split, min-max scaling and future-window extrapolation) and
    the properties of it that the specification states.

    Conventions of the embedding.
    - A JavaScript number is a rational, or NaN, or a signed infinity.
      Where the code takes [Math.floor] of a quotient or of a product, in
      [getRegionId] and in [splitData], the operands and the result are
      rounded to binary64 as the language does ([Double]): a rational that
      is no binary64 number stands for the number its decimal text parses
      to.  Elsewhere arithmetic is exact: rounding then changes a value
      slightly and no outcome.  The sign of zero is not represented.  The
      elements of a tensor are such numbers too, except in [Float32], which
      carries the scaler on the binary32 elements tensors really have, for
      what depends on rounding.
    - A loosely-typed field of a decoded row is a [value].
    - What the host supplies (string-to-number conversion, date parsing,
      the local time zone) is a [Host] record passed to every function that
      consults it.
    - A calendar date string [YYYY-MM-DD], which the code only ever obtains
      from [toISOString().split('T')[0]], compares inside a key and reads
      back through [new Date(..)], is represented by the number of the UTC
      day it names (days since 1970-01-01).
    - The object [groupedData], keyed by a template string that determines
      and is determined by (date, hour, region), is an association list in
      insertion order keyed by that triple. *)

From Stdlib Require Import Ascii String.
From Stdlib Require Import ZArith QArith Qround Qabs List Bool Lia Permutation Sorted.
From Stdlib Require Import DecimalString DecimalZ SpecFloat.
From Stdlib Require Import Lqa Qpower Qreduction.
Import ListNotations.

Open Scope Z_scope.

(** ** JavaScript numbers and loosely-typed values *)

Module JS.

Inductive number : Type :=
| NaN
| Inf (positive : bool)
| Fin (q : Q).

Definition ofZ (z : Z) : number := Fin (inject_Z z).

Definition Qis_zero (q : Q) : bool := Qeq_bool q 0.
Definition Qis_neg (q : Q) : bool := negb (Qle_bool 0 q).
Definition Qis_pos (q : Q) : bool := negb (Qle_bool q 0).

Definition isNaN (n : number) : bool :=
  match n with NaN => true | _ => false end.

Definition neg (n : number) : number :=
  match n with
  | NaN => NaN
  | Inf p => Inf (negb p)
  | Fin q => Fin (- q)
  end.

Definition add (a b : number) : number :=
  match a, b with
  | NaN, _ | _, NaN => NaN
  | Inf p, Inf p' => if Bool.eqb p p' then Inf p else NaN
  | Inf p, Fin _ | Fin _, Inf p => Inf p
  | Fin x, Fin y => Fin (x + y)
  end.

Definition sub (a b : number) : number := add a (neg b).

Definition mul (a b : number) : number :=
  match a, b with
  | NaN, _ | _, NaN => NaN
  | Inf p, Inf p' => Inf (Bool.eqb p p')
  | Inf p, Fin y | Fin y, Inf p =>
      if Qis_zero y then NaN else Inf (Bool.eqb p (Qis_pos y))
  | Fin x, Fin y => Fin (x * y)
  end.

Definition div (a b : number) : number :=
  match a, b with
  | NaN, _ | _, NaN => NaN
  | Inf _, Inf _ => NaN
  | Inf p, Fin y => Inf (Bool.eqb p (negb (Qis_neg y)))
  | Fin _, Inf _ => Fin 0
  | Fin x, Fin y =>
      if Qis_zero y
      then (if Qis_zero x then NaN else Inf (Qis_pos x))
      else Fin (x / y)
  end.

(** [a < b] as the relational operator evaluates it (false on NaN). *)
Definition ltb (a b : number) : bool :=
  match a, b with
  | NaN, _ | _, NaN => false
  | Inf p, Inf p' => andb (negb p) p'
  | Inf p, Fin _ => negb p
  | Fin _, Inf p => p
  | Fin x, Fin y => negb (Qle_bool y x)
  end.

(** [Math.floor] *)
Definition floor (n : number) : number :=
  match n with
  | Fin q => ofZ (Qfloor q)
  | other => other
  end.

(** [Math.max(a, b)] *)
Definition max (a b : number) : number :=
  match a, b with
  | NaN, _ | _, NaN => NaN
  | _, _ => if ltb a b then b else a
  end.

(** What the host environment supplies. *)
Record Host : Type := {
  (** [StringToNumber] of the language: the numeric value of a string. *)
  StringToNumber : string -> number;
  (** [Number::toString] on a finite number that is not an integer of
      magnitude below 10^21: a fraction, or a number in exponent form. *)
  FractionToString : Q -> string;
  (** [Date.parse]: the time value in ms, [None] for an unparseable string. *)
  DateParse : string -> option Z;
  (** [Date.prototype.toString] *)
  DateToString : option Z -> string;
  (** [LocalTZA(t, isUTC)]: offset of the local zone in ms, at the UTC
      instant [t] when [isUTC], at the local time [t] otherwise. *)
  LocalTZA : Z -> bool -> Z
}.

Inductive value : Type :=
| VUndefined
| VNull
| VBoolean (b : bool)
| VNumber (n : number)
| VString (s : string)
| VDate (tv : option Z).

(** Decimal rendering of an integer, as [Number::toString] gives it for a
    magnitude below 10^21. *)
Definition ZToString (z : Z) : string := NilZero.string_of_int (Z.to_int z).

Definition NumberToString (h : Host) (n : number) : string :=
  match n with
  | NaN => "NaN"%string
  | Inf true => "Infinity"%string
  | Inf false => "-Infinity"%string
  | Fin q =>
      if Qeq_bool q (inject_Z (Qfloor q)) && (Z.abs (Qfloor q) <? 10 ^ 21)
      then ZToString (Qfloor q)
      else FractionToString h q
  end.

Definition ToBoolean (v : value) : bool :=
  match v with
  | VUndefined | VNull => false
  | VBoolean b => b
  | VNumber NaN => false
  | VNumber (Inf _) => true
  | VNumber (Fin q) => negb (Qis_zero q)
  | VString s => negb (String.eqb s ""%string)
  | VDate _ => true
  end.

Definition timeValue (tv : option Z) : number :=
  match tv with Some t => ofZ t | None => NaN end.

Definition ToNumber (h : Host) (v : value) : number :=
  match v with
  | VUndefined => NaN
  | VNull => ofZ 0
  | VBoolean b => if b then ofZ 1 else ofZ 0
  | VNumber n => n
  | VString s => StringToNumber h s
  | VDate tv => timeValue tv
  end.

Definition ToString (h : Host) (v : value) : string :=
  match v with
  | VUndefined => "undefined"%string
  | VNull => "null"%string
  | VBoolean b => (if b then "true" else "false")%string
  | VNumber n => NumberToString h n
  | VString s => s
  | VDate tv => DateToString h tv
  end.

(** The global [isNaN(v)] *)
Definition isNaN_value (h : Host) (v : value) : bool := isNaN (ToNumber h v).

(** [a || b] *)
Definition or_else (a b : value) : value := if ToBoolean a then a else b.

(** [a + b]: concatenation as soon as one operand is a string after
    conversion to a primitive (a Date converts to its string), numeric
    addition otherwise. *)
Definition plus (h : Host) (a b : value) : value :=
  match a, b with
  | VString _, _ | _, VString _ | VDate _, _ | _, VDate _ =>
      VString (String.append (ToString h a) (ToString h b))
  | _, _ => VNumber (add (ToNumber h a) (ToNumber h b))
  end.

End JS.

(** ** Binary64 rounding *)

Module Double.

(** The exponent of the least positive binary64 number. *)
Definition emin : Z := -1074.

(** [floor(log2 x)] for a positive rational. *)
Definition ilog2 (x : Q) : Z :=
  let k := Z.log2 (Qnum x) - Z.log2 (Zpos (Qden x)) in
  if Qle_bool (2 ^ k) x then k else k - 1.

(** The exponent of the unit in the last place of [x]: 53 significant bits,
    and no exponent below [emin]. *)
Definition exponent (x : Q) : Z := Z.max (ilog2 x - 52) emin.

(** The nearest integer, a tie going to the even one. *)
Definition nearestEven (y : Q) : Z :=
  let f := Qfloor y in
  match (y - inject_Z f ?= 1 # 2)%Q with
  | Lt => f
  | Gt => f + 1
  | Eq => if Z.even f then f else f + 1
  end.

(** The binary64 number nearest to a positive rational; [Infinity] from
    2^1024 on. *)
Definition roundPositive (x : Q) : JS.number :=
  let e := exponent x in
  let v := (inject_Z (nearestEven (x / 2 ^ e)) * 2 ^ e)%Q in
  if Qle_bool (2 ^ 1024) v then JS.Inf true else JS.Fin (Qred v).

Definition round (q : Q) : JS.number :=
  match (q ?= 0)%Q with
  | Eq => JS.Fin 0
  | Gt => roundPositive q
  | Lt => match roundPositive (- q) with
          | JS.Fin v => JS.Fin (Qred (- v))
          | _ => JS.Inf false
          end
  end.

Definition ofNumber (n : JS.number) : JS.number :=
  match n with
  | JS.Fin q => round q
  | other => other
  end.

(** [a * b], rounded. *)
Definition mul (a b : JS.number) : JS.number :=
  ofNumber (JS.mul (ofNumber a) (ofNumber b)).

(** [a / b], rounded.  A negative divisor that rounds to zero is the zero
    of negative sign, which turns the sign of the quotient. *)
Definition div (a b : JS.number) : JS.number :=
  let quotient := ofNumber (JS.div (ofNumber a) (ofNumber b)) in
  match b, ofNumber b with
  | JS.Fin q, JS.Fin z =>
      if JS.Qis_zero z && JS.Qis_neg q then JS.neg quotient else quotient
  | _, _ => quotient
  end.

End Double.

(** ** Time values *)

Module Time.

Definition msPerDay : Z := 86400000.
Definition msPerHour : Z := 3600000.
Definition maxTime : Z := 8640000000000000.

Definition Day (t : Z) : Z := t / msPerDay.
Definition HourFromTime (t : Z) : Z := (t / msPerHour) mod 24.
Definition WeekDay (t : Z) : Z := (Day t + 4) mod 7.

Definition LocalTime (h : JS.Host) (t : Z) : Z := t + JS.LocalTZA h t true.
Definition UTC (h : JS.Host) (t : Z) : Z := t - JS.LocalTZA h t false.

(** Month (1..12) of the proleptic Gregorian date of day number [d]. *)
Definition civilMonth (d : Z) : Z :=
  let z := d + 719468 in
  let era := z / 146097 in
  let doe := z - era * 146097 in
  let yoe := (doe - doe / 1460 + doe / 36524 - doe / 146096) / 365 in
  let doy := doe - (365 * yoe + yoe / 4 - yoe / 100) in
  let mp := (5 * doy + 2) / 153 in
  if mp <? 10 then mp + 3 else mp - 9.

Definition MonthFromTime (t : Z) : Z := civilMonth (Day t) - 1.

Definition truncate (q : Q) : Z := Z.quot (Qnum q) (Zpos (Qden q)).

(** [TimeClip] *)
Definition TimeClip (n : JS.number) : option Z :=
  match n with
  | JS.Fin q =>
      if Qle_bool (Qabs q) (inject_Z maxTime) then Some (truncate q) else None
  | _ => None
  end.

(** [new Date(v)]: the time value of the new object. *)
Definition newDate (h : JS.Host) (v : JS.value) : option Z :=
  match v with
  | JS.VDate tv => tv
  | JS.VString s => JS.DateParse h s
  | other => TimeClip (JS.ToNumber h other)
  end.

(** [new Date(s)] for a date string held as its day number. *)
Definition newDateOfDay (d : Z) : Z := d * msPerDay.

(** [d.setDate(d.getDate() + i)] on a valid date of time value [t].  The
    method rebuilds the local time from [MakeDay(year, month, date + i)] and
    the unchanged time within the day, which is the local time moved by [i]
    whole days, and converts it back with [UTC]. *)
Definition setDatePlus (h : JS.Host) (t i : Z) : option Z :=
  let u := UTC h (LocalTime h t + i * msPerDay) in
  if Z.abs u <=? maxTime then Some u else None.

End Time.

(** ** Exceptions *)

(** What [slice] of the tensor library rejects: a size that reaches past
    the end of the tensor, a negative size other than -1, a begin of -1. *)
Inductive SliceFault : Type :=
| SizeOverflow
| NegativeSize
| NegativeBegin.

(** [TensorError] is the [Error] that the tensor library throws on a
    [SliceFault], with the wording of the library. *)
Inductive exn : Type :=
| Error (message : string)
| RangeError (message : string)
| TypeError (message : string)
| TensorError (fault : SliceFault).

Inductive result (A : Type) : Type :=
| Ok (a : A)
| Throw (e : exn).

Arguments Ok {A} a.
Arguments Throw {A} e.

Definition bind {A B : Type} (r : result A) (k : A -> result B) : result B :=
  match r with
  | Ok a => k a
  | Throw e => Throw e
  end.

Notation "x <- r ;; k" := (bind r (fun x => k))
  (at level 61, r at next level, right associativity).

Fixpoint mapM {A B : Type} (f : A -> result B) (l : list A) : result (list B) :=
  match l with
  | [] => Ok []
  | a :: l' => b <- f a ;; bs <- mapM f l' ;; Ok (b :: bs)
  end.

(** ** Data model *)

(** A row as the CSV decoder yields it (header mode, dynamic typing). *)
Module Row.
Record t : Type := {
  pickup_datetime : JS.value;
  pickup_longitude : JS.value;
  pickup_latitude : JS.value;
  passenger_count : JS.value
}.
End Row.

Module Trip.
Record t : Type := {
  timestamp : Z;
  date : Z;
  hour : Z;
  dayOfWeek : Z;
  month : Z;
  region : string;
  longitude : JS.value;
  latitude : JS.value;
  passenger_count : JS.value
}.
End Trip.

Module Bucket.
Record t : Type := {
  date : Z;
  hour : Z;
  region : string;
  demand : Z;
  totalPassengers : JS.value;
  dayOfWeek : Z;
  month : Z;
  isWeekend : Z
}.
End Bucket.

(** The key of [groupedData]. *)
Module Key.
Record t : Type := {
  date : Z;
  hour : option Z;
  region : string
}.

Definition eqb (a b : t) : bool :=
  Z.eqb (date a) (date b)
  && match hour a, hour b with
     | Some x, Some y => Z.eqb x y
     | None, None => true
     | _, _ => false
     end
  && String.eqb (region a) (region b).
End Key.

Module Label.
Record t : Type := {
  date : Z;
  region : string
}.
End Label.

Definition tensor1d : Type := list JS.number.
Definition tensor3d : Type := list (list (list JS.number)).

Module Sequences.
Record t : Type := {
  features : tensor3d;
  targets : tensor1d;
  dates : list Label.t;
  regions : list string
}.
End Sequences.

Module Scaler.
Record t : Type := {
  min : JS.number;
  max : JS.number
}.

Definition normalize1 (s : t) (x : JS.number) : JS.number :=
  JS.div (JS.sub x (min s)) (JS.sub (max s) (min s)).

Definition denormalize1 (s : t) (x : JS.number) : JS.number :=
  JS.add (JS.mul x (JS.sub (max s) (min s))) (min s).
End Scaler.

Module TrainData.
Record t : Type := {
  features : tensor3d;
  targets : tensor1d
}.
End TrainData.

Module TestData.
Record t : Type := {
  features : tensor3d;
  targets : tensor1d;
  dates : list Label.t;
  originalTargets : tensor1d
}.
End TestData.

Module Split.
Record t : Type := {
  train : TrainData.t;
  test : TestData.t;
  featureCount : nat;
  sequenceLength : nat
}.
End Split.

Module Future.
Record t : Type := {
  features : tensor3d;
  dates : list Label.t
}.
End Future.

(** The fields of a [TaxiDataProcessor]; [None] is [null].  The field
    [regions], a Map no method reads or writes, is left out. *)
Record State : Type := {
  rawData : option (list Row.t);
  processedData : option (list Trip.t);
  aggregatedData : option (list Bucket.t);
  sequences : option Sequences.t;
  trainData : option TrainData.t;
  testData : option TestData.t;
  featureScaler : option Scaler.t;
  targetScaler : option Scaler.t
}.

(** The object after [constructor()]. *)
Definition initial : State :=
  {| rawData := None; processedData := None; aggregatedData := None;
     sequences := None; trainData := None; testData := None;
     featureScaler := None; targetScaler := None |}.

Definition set_rawData (v : list Row.t) (s : State) : State :=
  {| rawData := Some v; processedData := processedData s;
     aggregatedData := aggregatedData s; sequences := sequences s;
     trainData := trainData s; testData := testData s;
     featureScaler := featureScaler s; targetScaler := targetScaler s |}.

Definition set_processedData (v : list Trip.t) (s : State) : State :=
  {| rawData := rawData s; processedData := Some v;
     aggregatedData := aggregatedData s; sequences := sequences s;
     trainData := trainData s; testData := testData s;
     featureScaler := featureScaler s; targetScaler := targetScaler s |}.

Definition set_aggregatedData (v : list Bucket.t) (s : State) : State :=
  {| rawData := rawData s; processedData := processedData s;
     aggregatedData := Some v; sequences := sequences s;
     trainData := trainData s; testData := testData s;
     featureScaler := featureScaler s; targetScaler := targetScaler s |}.

Definition set_sequences (v : Sequences.t) (s : State) : State :=
  {| rawData := rawData s; processedData := processedData s;
     aggregatedData := aggregatedData s; sequences := Some v;
     trainData := trainData s; testData := testData s;
     featureScaler := featureScaler s; targetScaler := targetScaler s |}.

Definition set_split (fs ts : Scaler.t) (tr : TrainData.t) (te : TestData.t)
    (s : State) : State :=
  {| rawData := rawData s; processedData := processedData s;
     aggregatedData := aggregatedData s; sequences := sequences s;
     trainData := Some tr; testData := Some te;
     featureScaler := Some fs; targetScaler := Some ts |}.

(** A method leaves a state behind whether it returns or throws. *)
Definition method (A : Type) : Type := State -> result A * State.

(** ** Helpers standing for library operations *)

(** [arr.sort(cmp)]: the sort is stable; an element inserted from the right
    goes in front of the elements it compares equal to. *)
Fixpoint insertBy {A : Type} (cmp : A -> A -> Z) (x : A) (l : list A) : list A :=
  match l with
  | [] => [x]
  | y :: l' => if cmp x y <=? 0 then x :: l else y :: insertBy cmp x l'
  end.

Definition sortBy {A : Type} (cmp : A -> A -> Z) (l : list A) : list A :=
  fold_right (insertBy cmp) [] l.

(** [[...new Set(l)]]: the distinct elements in order of first occurrence. *)
Fixpoint unique (l : list string) : list string :=
  match l with
  | [] => []
  | x :: l' => x :: filter (fun y => negb (String.eqb y x)) (unique l')
  end.

(** [arr.slice(-n)] *)
Definition sliceLast {A : Type} (n : nat) (l : list A) : list A :=
  match n with
  | O => l
  | _ => skipn (length l - n) l
  end.

(** [arr[arr.length - 1]] *)
Definition lastOf {A : Type} (l : list A) : option A := nth_error l (length l - 1).

(** [tensor.min()] and [tensor.max()] over all the elements: a NaN element
    once taken is kept, and an empty tensor reduces to NaN. *)
Definition reduceMin (l : list JS.number) : JS.number :=
  match l with
  | [] => JS.NaN
  | x :: l' =>
      fold_left (fun m v => if JS.isNaN v || JS.ltb v m then v else m) l' x
  end.

Definition reduceMax (l : list JS.number) : JS.number :=
  match l with
  | [] => JS.NaN
  | x :: l' =>
      fold_left (fun m v => if JS.isNaN v || JS.ltb m v then v else m) l' x
  end.

Definition flatten3 (t : tensor3d) : list JS.number := concat (concat t).

Definition map3 (f : JS.number -> JS.number) (t : tensor3d) : tensor3d :=
  map (map (map f)) t.

(** [t.shape[1]] and [t.shape[2]] of a rank-3 tensor built from nested arrays. *)
Definition shape1 (t : tensor3d) : nat :=
  match t with w :: _ => length w | [] => O end.

Definition shape2 (t : tensor3d) : nat :=
  match t with (v :: _) :: _ => length v | _ => O end.

(** An integral index in [0, bound]. *)
Definition asIndex (n : JS.number) (bound : nat) : option nat :=
  match n with
  | JS.Fin q =>
      let z := Qfloor q in
      if Qeq_bool q (inject_Z z) && (0 <=? z) && (z <=? Z.of_nat bound)
      then Some (Z.to_nat z) else None
  | _ => None
  end.

(** [n >= 0] and [n === -1] *)
Definition nonNegative (n : JS.number) : bool :=
  match n with
  | JS.NaN => false
  | JS.Inf p => p
  | JS.Fin q => Qle_bool 0 q
  end.

Definition isMinusOne (n : JS.number) : bool :=
  match n with
  | JS.Fin q => Qeq_bool q (-1)
  | _ => false
  end.

(** [t.slice([0, ..], [size, -1, ..])]: the leading [size] entries.  The
    library keeps a size that is 0 or more and requires [0 + size] to be at
    most the length; it takes -1 for all the entries and rejects any other
    size.  A size is a result of [Math.floor] here: an integer, NaN or an
    infinity. *)
Definition sliceFront {A : Type} (size : JS.number) (t : list A) : result (list A) :=
  if nonNegative size then
    match asIndex size (length t) with
    | Some k => Ok (firstn k t)
    | None => Throw (TensorError SizeOverflow)
    end
  else if isMinusOne size then Ok t
  else Throw (TensorError NegativeSize).

(** [t.slice([begin, ..], [-1, ..])]: the entries from [begin] on.  The
    library rejects a begin of -1, replaces the size by [length - begin] and
    requires [begin + size] to be at most the length, which fails on NaN and
    on an infinity only.  [splitData] reaches it with a begin that the
    leading slice has accepted as a size: with -1 or an index within the
    tensor.  Any other integer the library does not check; it is rejected
    here. *)
Definition sliceBack {A : Type} (begin : JS.number) (t : list A) : result (list A) :=
  if isMinusOne begin then Throw (TensorError NegativeBegin)
  else
    match asIndex begin (length t) with
    | Some k => Ok (skipn k t)
    | None => Throw (TensorError SizeOverflow)
    end.

(** [arr.slice(begin)] of an array: [begin] is made an integer, counts from
    the end when negative, and is clamped to the array. *)
Definition arraySlice {A : Type} (begin : JS.number) (l : list A) : list A :=
  let len := Z.of_nat (length l) in
  let start :=
    match begin with
    | JS.NaN => 0
    | JS.Inf true => len
    | JS.Inf false => 0
    | JS.Fin q =>
        let z := if Qle_bool 0 q then Qfloor q else Qceiling q in
        if z <? 0 then Z.max (len + z) 0 else Z.min z len
    end in
  skipn (Z.to_nat start) l.

Fixpoint catMaybes {A : Type} (l : list (option A)) : list A :=
  match l with
  | [] => []
  | Some a :: l' => a :: catMaybes l'
  | None :: l' => catMaybes l'
  end.

(** ** The methods of TaxiDataProcessor *)

(** What [Papa.parse] reports: [complete(results)] or [error(error)]. *)
Inductive ParseOutcome : Type :=
| Complete (data : list Row.t)
| Failed (message : string).

Definition isValid (h : JS.Host) (row : Row.t) : bool :=
  JS.ToBoolean (Row.pickup_datetime row)
  && JS.ToBoolean (Row.pickup_longitude row)
  && JS.ToBoolean (Row.pickup_latitude row)
  && negb (JS.isNaN_value h (Row.pickup_longitude row))
  && negb (JS.isNaN_value h (Row.pickup_latitude row)).

Definition emptyFileMessage : string :=
  "CSV file is empty or could not be parsed".

Definition noValidRecordsMessage : string :=
  "No valid records found. Required columns: pickup_datetime, pickup_longitude, pickup_latitude".

Definition loadRawCSV (h : JS.Host) (outcome : ParseOutcome) : method (list Row.t) :=
  fun st =>
    match outcome with
    | Failed message =>
        (Throw (Error (String.append "CSV parsing failed: " message)), st)
    | Complete data =>
        if (length data =? 0)%nat then (Throw (Error emptyFileMessage), st)
        else
          let st' := set_rawData (filter (isValid h) data) st in
          if (length (filter (isValid h) data) =? 0)%nat
          then (Throw (Error noValidRecordsMessage), st')
          else (Ok (filter (isValid h) data), st')
    end.

Definition getRegionId (h : JS.Host) (longitude latitude regionSize : JS.value) : string :=
  let lonCell :=
    JS.floor (Double.div (JS.ToNumber h longitude) (JS.ToNumber h regionSize)) in
  let latCell :=
    JS.floor (Double.div (JS.ToNumber h latitude) (JS.ToNumber h regionSize)) in
  String.append "region_"
    (String.append (JS.NumberToString h lonCell)
       (String.append "_" (JS.NumberToString h latCell))).

(** The body of the [try] block for one row; [toISOString] throws on an
    invalid date. *)
Definition processTrip (h : JS.Host) (regionSize : JS.value) (trip : Row.t) : result Trip.t :=
  let pickupDate := Time.newDate h (Row.pickup_datetime trip) in
  let regionId :=
    getRegionId h (Row.pickup_longitude trip) (Row.pickup_latitude trip) regionSize in
  match pickupDate with
  | None => Throw (RangeError "Invalid time value")
  | Some t =>
      Ok {| Trip.timestamp := t;
            Trip.date := Time.Day t;
            Trip.hour := Time.HourFromTime (Time.LocalTime h t);
            Trip.dayOfWeek := Time.WeekDay (Time.LocalTime h t);
            Trip.month := Time.MonthFromTime (Time.LocalTime h t);
            Trip.region := regionId;
            Trip.longitude := Row.pickup_longitude trip;
            Trip.latitude := Row.pickup_latitude trip;
            Trip.passenger_count :=
              JS.or_else (Row.passenger_count trip) (JS.VNumber (JS.ofZ 1)) |}
  end.

(** [try { .. } catch (error) { return null; }] *)
Definition orNull {A : Type} (r : result A) : option A :=
  match r with
  | Ok a => Some a
  | Throw _ => None
  end.

Definition processRawData (h : JS.Host) (aggregationLevel : string)
    (regionSize : JS.value) : method (list Trip.t) :=
  fun st =>
    match rawData st with
    | None => (Throw (Error "No raw data loaded"), st)
    | Some rows =>
        if (length rows =? 0)%nat then (Throw (Error "No raw data loaded"), st)
        else
          let processedTrips :=
            catMaybes (map (fun trip => orNull (processTrip h regionSize trip)) rows) in
          (Ok processedTrips, set_processedData processedTrips st)
    end.

Definition keyOf (aggregationLevel : string) (trip : Trip.t) : Key.t :=
  if String.eqb aggregationLevel "daily"
  then {| Key.date := Trip.date trip; Key.hour := None;
          Key.region := Trip.region trip |}
  else {| Key.date := Trip.date trip; Key.hour := Some (Trip.hour trip);
          Key.region := Trip.region trip |}.

(** The bucket created at the first trip of a key. *)
Definition freshBucket (trip : Trip.t) : Bucket.t :=
  {| Bucket.date := Trip.date trip;
     Bucket.hour := Trip.hour trip;
     Bucket.region := Trip.region trip;
     Bucket.demand := 0;
     Bucket.totalPassengers := JS.VNumber (JS.ofZ 0);
     Bucket.dayOfWeek := Trip.dayOfWeek trip;
     Bucket.month := Trip.month trip;
     Bucket.isWeekend :=
       if (Trip.dayOfWeek trip =? 0) || (Trip.dayOfWeek trip =? 6) then 1 else 0 |}.

(** [demand += 1; totalPassengers += trip.passenger_count] *)
Definition accumulate (h : JS.Host) (trip : Trip.t) (b : Bucket.t) : Bucket.t :=
  {| Bucket.date := Bucket.date b;
     Bucket.hour := Bucket.hour b;
     Bucket.region := Bucket.region b;
     Bucket.demand := Bucket.demand b + 1;
     Bucket.totalPassengers :=
       JS.plus h (Bucket.totalPassengers b) (Trip.passenger_count trip);
     Bucket.dayOfWeek := Bucket.dayOfWeek b;
     Bucket.month := Bucket.month b;
     Bucket.isWeekend := Bucket.isWeekend b |}.

(** One iteration of the grouping loop on [groupedData]. *)
Fixpoint addTrip (h : JS.Host) (k : Key.t) (trip : Trip.t)
    (groupedData : list (Key.t * Bucket.t)) : list (Key.t * Bucket.t) :=
  match groupedData with
  | [] => [(k, accumulate h trip (freshBucket trip))]
  | (k', b) :: rest =>
      if Key.eqb k k' then (k', accumulate h trip b) :: rest
      else (k', b) :: addTrip h k trip rest
  end.

Definition groupTrips (h : JS.Host) (aggregationLevel : string)
    (trips : list Trip.t) : list (Key.t * Bucket.t) :=
  fold_left (fun g trip => addTrip h (keyOf aggregationLevel trip) trip g) trips [].

(** [new Date(a.date) - new Date(b.date)] *)
Definition byDate (a b : Bucket.t) : Z :=
  Time.newDateOfDay (Bucket.date a) - Time.newDateOfDay (Bucket.date b).

Definition aggregate (h : JS.Host) (aggregationLevel : string)
    (trips : list Trip.t) : list Bucket.t :=
  sortBy byDate (map snd (groupTrips h aggregationLevel trips)).

Definition aggregateData (h : JS.Host) (aggregationLevel : string) : method (list Bucket.t) :=
  fun st =>
    match processedData st with
    | None => (Throw (Error "No processed data available"), st)
    | Some trips =>
        (Ok (aggregate h aggregationLevel trips),
         set_aggregatedData (aggregate h aggregationLevel trips) st)
    end.

(** The four feature channels of one bucket. *)
Definition featureVector (h : JS.Host) (b : Bucket.t) : list JS.number :=
  [ JS.ofZ (Bucket.demand b);
    JS.div (JS.ofZ (Bucket.dayOfWeek b)) (JS.ofZ 6);
    JS.ofZ (Bucket.isWeekend b);
    JS.div (JS.ToNumber h (Bucket.totalPassengers b))
           (JS.max (JS.ofZ 1) (JS.ofZ (Bucket.demand b))) ].

(** What one iteration of the outer loop pushes on [features], [targets]
    and [dates]. *)
Module Sample.
Record t : Type := {
  window : list (list JS.number);
  target : JS.number;
  label : Label.t
}.
End Sample.

(** [aggregatedData.filter(d => d.region === region).sort(byDate)] *)
Definition regionDataOf (aggregated : list Bucket.t) (region : string) : list Bucket.t :=
  sortBy byDate (filter (fun d => String.eqb (Bucket.region d) region) aggregated).

(** The buckets [regionData[i - sequenceLength .. i - 1]] of the inner loop. *)
Definition windowBuckets (sequenceLength i : nat) (regionData : list Bucket.t) : list Bucket.t :=
  firstn sequenceLength (skipn (i - sequenceLength) regionData).

(** What iteration [i] pushes, [target] being [regionData[i]]. *)
Definition sampleOf (h : JS.Host) (sequenceLength : nat) (regionData : list Bucket.t)
    (i : nat) (target : Bucket.t) : Sample.t :=
  {| Sample.window :=
       map (featureVector h) (windowBuckets sequenceLength i regionData);
     Sample.target := JS.ofZ (Bucket.demand target);
     Sample.label := {| Label.date := Bucket.date target;
                        Label.region := Bucket.region target |} |}.

(** Iteration [i] of the loop over one region. *)
Definition sampleAt (h : JS.Host) (sequenceLength : nat) (regionData : list Bucket.t)
    (i : nat) : list Sample.t :=
  match nth_error regionData i with
  | Some target => [ sampleOf h sequenceLength regionData i target ]
  | None => []
  end.

Definition regionSequences (h : JS.Host) (sequenceLength : nat)
    (regionData : list Bucket.t) : list Sample.t :=
  if (length regionData <=? sequenceLength)%nat then []
  else flat_map (sampleAt h sequenceLength regionData)
                (seq sequenceLength (length regionData - sequenceLength)).

Definition collectSequences (h : JS.Host) (sequenceLength : nat)
    (aggregated : list Bucket.t) : list Sample.t :=
  flat_map (fun region => regionSequences h sequenceLength (regionDataOf aggregated region))
           (unique (map Bucket.region aggregated)).

Definition noSequencesMessage : string :=
  "No sequences could be created. Check sequence length and data size.".

(** [sequenceLength] is a natural number here; with windows of width 0
    [tf.tensor3d] rejects the nested array, which has no third axis. *)
Definition createSequences (h : JS.Host) (sequenceLength : nat) : method Sequences.t :=
  fun st =>
    match aggregatedData st with
    | None => (Throw (Error "No aggregated data available"), st)
    | Some aggregated =>
        if (length aggregated =? 0)%nat
        then (Throw (Error "No aggregated data available"), st)
        else
          let samples := collectSequences h sequenceLength aggregated in
          if (length samples =? 0)%nat then (Throw (Error noSequencesMessage), st)
          else if (sequenceLength =? 0)%nat
          then (Throw (Error "tensor3d() requires values to be number[][][] or flat/TypedArray"), st)
          else
            let sq := {| Sequences.features := map Sample.window samples;
                         Sequences.targets := map Sample.target samples;
                         Sequences.dates := map Sample.label samples;
                         Sequences.regions := unique (map Bucket.region aggregated) |} in
            (Ok sq, set_sequences sq st)
    end.

(** [createScaler(tensor)], on the elements of the tensor. *)
Definition createScaler (elements : list JS.number) : Scaler.t :=
  {| Scaler.min := reduceMin elements; Scaler.max := reduceMax elements |}.

Definition splitData (trainRatio : JS.number) : method Split.t :=
  fun st =>
    match sequences st with
    | None => (Throw (Error "No sequences created"), st)
    | Some sq =>
        let totalSamples := length (Sequences.features sq) in
        let trainSize :=
          JS.floor (Double.mul (JS.ofZ (Z.of_nat totalSamples)) trainRatio) in
        let slices :=
          X_train <- sliceFront trainSize (Sequences.features sq) ;;
          y_train <- sliceFront trainSize (Sequences.targets sq) ;;
          X_test <- sliceBack trainSize (Sequences.features sq) ;;
          y_test <- sliceBack trainSize (Sequences.targets sq) ;;
          Ok (X_train, y_train, X_test, y_test) in
        match slices with
        | Throw e => (Throw e, st)
        | Ok (X_train, y_train, X_test, y_test) =>
            let test_dates := arraySlice trainSize (Sequences.dates sq) in
            let fs := createScaler (flatten3 X_train) in
            let ts := createScaler y_train in
            let tr := {| TrainData.features := map3 (Scaler.normalize1 fs) X_train;
                         TrainData.targets := map (Scaler.normalize1 ts) y_train |} in
            let te := {| TestData.features := map3 (Scaler.normalize1 fs) X_test;
                         TestData.targets := map (Scaler.normalize1 ts) y_test;
                         TestData.dates := test_dates;
                         TestData.originalTargets := y_test |} in
            (Ok {| Split.train := tr; Split.test := te;
                   Split.featureCount := shape2 (Sequences.features sq);
                   Split.sequenceLength := shape1 (Sequences.features sq) |},
             set_split fs ts tr te st)
        end
    end.

(** The labels of one region: [daysToPredict] dates counted from [lastDate];
    [toISOString] throws when a date leaves the range of time values. *)
Definition futureLabel (h : JS.Host) (lastDate : Z) (region : string) (i : nat) : result Label.t :=
  match Time.setDatePlus h lastDate (Z.of_nat i) with
  | Some u => Ok {| Label.date := Time.Day u; Label.region := region |}
  | None => Throw (RangeError "Invalid time value")
  end.

(** The body of [regions.forEach]: nothing for a region with too little
    data, else its base window and its labels. *)
Definition futureOfRegion (h : JS.Host) (aggregated : list Bucket.t)
    (sequenceLength : nat) (lastDate : Z) (daysToPredict : nat) (region : string)
    : result (option (list (list JS.number) * list Label.t)) :=
  let regionData := regionDataOf aggregated region in
  if (length regionData <? sequenceLength)%nat then Ok None
  else
    let lastSequence := sliceLast sequenceLength regionData in
    let baseSequence := map (featureVector h) lastSequence in
    regionFutureDates <- mapM (futureLabel h lastDate region) (seq 1 daysToPredict) ;;
    Ok (Some (baseSequence, regionFutureDates)).

Definition generateFutureSequence (h : JS.Host) (daysToPredict : nat) : method Future.t :=
  fun st =>
    match aggregatedData st, sequences st with
    | Some aggregated, Some sq =>
        let regions := Sequences.regions sq in
        let sequenceLength := shape1 (Sequences.features sq) in
        match lastOf aggregated with
        | None => (Throw (TypeError "Cannot read properties of undefined (reading 'date')"), st)
        | Some lastBucket =>
            let lastDate := Time.newDateOfDay (Bucket.date lastBucket) in
            match mapM (futureOfRegion h aggregated sequenceLength lastDate daysToPredict)
                       regions with
            | Throw e => (Throw e, st)
            | Ok perRegion =>
                let futureSequences := map fst (catMaybes perRegion) in
                let futureDates := map snd (catMaybes perRegion) in
                if (length futureSequences =? 0)%nat
                then (Throw (Error "Could not generate future sequences"), st)
                else
                  match featureScaler st with
                  | None => (Throw (TypeError "Cannot read properties of null (reading 'normalize')"), st)
                  | Some fs =>
                      (Ok {| Future.features := map3 (Scaler.normalize1 fs) futureSequences;
                             Future.dates := concat futureDates |}, st)
                  end
            end
        end
    | _, _ => (Throw (Error "No data available for future prediction"), st)
    end.

(** ** The scaler on binary32 elements

    A tensor built from numbers has dtype float32: each element is an IEEE
    binary32 value and each elementwise operation rounds to nearest, ties
    to even. *)

Module Float32.

Definition prec : Z := 24.
Definition emax : Z := 128.

Definition t : Type := spec_float.

(** The element that holds the integer [z] (exactly, below 2^24). *)
Definition ofZ (z : Z) : t := binary_normalize prec emax z 0 false.

Definition add : t -> t -> t := SFadd prec emax.
Definition sub : t -> t -> t := SFsub prec emax.
Definition mul : t -> t -> t := SFmul prec emax.
Definition div : t -> t -> t := SFdiv prec emax.
Definition ltb : t -> t -> bool := SFltb.

Definition isNaN (x : t) : bool :=
  match x with S754_nan => true | _ => false end.

(** The rational a finite element denotes. *)
Definition toQ (x : t) : option Q :=
  match x with
  | S754_zero _ => Some 0%Q
  | S754_finite s m e =>
      Some (if s then - (inject_Z (Zpos m) * Qpower 2 e) else inject_Z (Zpos m) * Qpower 2 e)%Q
  | _ => None
  end.

Definition reduceMin (l : list t) : t :=
  match l with
  | [] => S754_nan
  | x :: l' => fold_left (fun m v => if isNaN v || ltb v m then v else m) l' x
  end.

Definition reduceMax (l : list t) : t :=
  match l with
  | [] => S754_nan
  | x :: l' => fold_left (fun m v => if isNaN v || ltb m v then v else m) l' x
  end.

Record Scaler : Type := {
  min : t;
  max : t
}.

Definition createScaler (elements : list t) : Scaler :=
  {| min := reduceMin elements; max := reduceMax elements |}.

Definition normalize1 (s : Scaler) (x : t) : t :=
  div (sub x (min s)) (sub (max s) (min s)).

Definition denormalize1 (s : Scaler) (x : t) : t :=
  add (mul x (sub (max s) (min s))) (min s).

End Float32.

(** ** Numbers as binary64 values

    The arithmetic of the language itself, for the examples whose outcome
    could depend on rounding. *)

Module Float64.

Definition prec : Z := 53.
Definition emax : Z := 1024.

Definition ofZ (z : Z) : spec_float := binary_normalize prec emax z 0 false.

Definition mul : spec_float -> spec_float -> spec_float := SFmul prec emax.
Definition div : spec_float -> spec_float -> spec_float := SFdiv prec emax.

(** The number a decimal literal [n / 10^k] denotes: the nearest binary64
    value. *)
Definition decimal (n : Z) (k : nat) : spec_float := div (ofZ n) (ofZ (10 ^ Z.of_nat k)).

(** [Math.floor] of a finite value, as an integer. *)
Definition floor (x : spec_float) : option Z :=
  match x with
  | S754_zero _ => Some 0
  | S754_finite s m e =>
      let v := if s then Zneg m else Zpos m in
      Some (if 0 <=? e then v * 2 ^ e else v / 2 ^ (- e))
  | _ => None
  end.

End Float64.

(** ** Two hosts *)

(** A host whose local zone is UTC.  Its string conversions stand for a
    host's on the strings none of the examples contains. *)
Definition utcHost : JS.Host :=
  {| JS.StringToNumber := fun _ => JS.NaN;
     JS.FractionToString := fun _ => ""%string;
     JS.DateParse := fun _ => None;
     JS.DateToString := fun _ => ""%string;
     JS.LocalTZA := fun _ _ => 0 |}.

(** The instant 2024-03-31T01:00:00Z, at which Central European Time
    (UTC+1) gives way to summer time (UTC+2); as a local time the change is
    at 02:00, which is 2024-03-31T02:00 read as a time value. *)
Definition cestStartUTC : Z := 1711846800000.
Definition cestStartLocal : Z := 1711850400000.

(** A host in the Europe/Berlin zone, for time values of the year 2024
    before the return to standard time. *)
Definition berlinHost : JS.Host :=
  {| JS.StringToNumber := fun _ => JS.NaN;
     JS.FractionToString := fun _ => ""%string;
     JS.DateParse := fun _ => None;
     JS.DateToString := fun _ => ""%string;
     JS.LocalTZA := fun t isUTC =>
       if isUTC
       then (if t <? cestStartUTC then 3600000 else 7200000)
       else (if t <? cestStartLocal then 3600000 else 7200000) |}.

(** ** Vocabulary of the statements *)

Definition num (q : Q) : JS.value := JS.VNumber (JS.Fin q).


(** The key under which a bucket was filed, read back from its fields. *)
Definition bucketKey (aggregationLevel : string) (b : Bucket.t) : Key.t :=
  if String.eqb aggregationLevel "daily"
  then {| Key.date := Bucket.date b; Key.hour := None;
          Key.region := Bucket.region b |}
  else {| Key.date := Bucket.date b; Key.hour := Some (Bucket.hour b);
          Key.region := Bucket.region b |}.

Definition tripsWithKey (aggregationLevel : string) (k : Key.t)
    (trips : list Trip.t) : list Trip.t :=
  filter (fun t => Key.eqb (keyOf aggregationLevel t) k) trips.

Definition bucketsWithKey (aggregationLevel : string) (k : Key.t)
    (buckets : list Bucket.t) : list Bucket.t :=
  filter (fun b => Key.eqb (bucketKey aggregationLevel b) k) buckets.

Definition totalDemand (buckets : list Bucket.t) : Z :=
  fold_right (fun b acc => Bucket.demand b + acc) 0 buckets.

Definition dateLe (a b : Bucket.t) : Prop := Bucket.date a <= Bucket.date b.



Definition inRegion (r : string) (d : Bucket.t) : bool :=
  String.eqb (Bucket.region d) r.

(** ** Example data *)

Definition exampleRow (t : Z) (lon lat : Q) (pc : JS.value) : Row.t :=
  {| Row.pickup_datetime := JS.VNumber (JS.ofZ t);
     Row.pickup_longitude := num lon;
     Row.pickup_latitude := num lat;
     Row.passenger_count := pc |}.

(** Noon of the day [d] after 2024-03-24 (day 19806), as a time value. *)
Definition noonOf (d : Z) : Z := (19806 + d) * Time.msPerDay + 12 * Time.msPerHour.

(** Five trips of one cell on five consecutive days, two more on the last
    of them, and one trip of another cell. *)
Definition exampleRows : list Row.t :=
  [ exampleRow (noonOf 0) (-7398 # 100) (4075 # 100) (JS.VNumber (JS.ofZ 1));
    exampleRow (noonOf 1) (-7398 # 100) (4075 # 100) (JS.VNumber (JS.ofZ 2));
    exampleRow (noonOf 2) (-7398 # 100) (4075 # 100) JS.VUndefined;
    exampleRow (noonOf 3) (-7398 # 100) (4075 # 100) (JS.VNumber (JS.ofZ 3));
    exampleRow (noonOf 4) (-7398 # 100) (4075 # 100) (JS.VNumber (JS.ofZ 1));
    exampleRow (noonOf 4 + Time.msPerHour) (-7398 # 100) (4075 # 100) JS.VNull;
    exampleRow (noonOf 4 + 2 * Time.msPerHour) (-7398 # 100) (4075 # 100)
      (JS.VNumber (JS.ofZ 4));
    exampleRow (noonOf 2) (-7391 # 100) (4075 # 100) (JS.VNumber (JS.ofZ 1)) ].

Definition exampleTrips (h : JS.Host) : list Trip.t :=
  catMaybes (map (fun trip => orNull (processTrip h (num (5 # 100)) trip)) exampleRows).

Definition exampleAggregated (h : JS.Host) : list Bucket.t :=
  aggregate h "daily" (exampleTrips h).

(** What [createSequences(2)] builds from the example. *)
Definition exampleSequences (h : JS.Host) : Sequences.t :=
  {| Sequences.features := map Sample.window (collectSequences h 2 (exampleAggregated h));
     Sequences.targets := map Sample.target (collectSequences h 2 (exampleAggregated h));
     Sequences.dates := map Sample.label (collectSequences h 2 (exampleAggregated h));
     Sequences.regions := unique (map Bucket.region (exampleAggregated h)) |}.

Definition exampleState (h : JS.Host) : State :=
  set_sequences (exampleSequences h)
    (set_aggregatedData (exampleAggregated h)
       (set_processedData (exampleTrips h) (set_rawData exampleRows initial))).

(** A row whose timestamp is text that is no date, a row whose timestamp is
    an invalid Date object, and a row at longitude 0. *)
Definition textRow : Row.t :=
  {| Row.pickup_datetime := JS.VString "not a date";
     Row.pickup_longitude := num (-7398 # 100);
     Row.pickup_latitude := num (4075 # 100);
     Row.passenger_count := JS.VNumber (JS.ofZ 1) |}.

Definition invalidDateRow : Row.t :=
  {| Row.pickup_datetime := JS.VDate None;
     Row.pickup_longitude := num (-7398 # 100);
     Row.pickup_latitude := num (4075 # 100);
     Row.passenger_count := JS.VNumber (JS.ofZ 1) |}.

Definition meridianRow : Row.t := exampleRow (noonOf 0) 0 (5148 # 100) (JS.VNumber (JS.ofZ 1)).

(** A row whose passenger count is -2. *)
Definition negativeCountRow : Row.t :=
  exampleRow (noonOf 0) (-7398 # 100) (4075 # 100) (num (-2)).

Definition isValidDate (tv : option Z) : bool :=
  match tv with Some _ => true | None => false end.

(** The rows whose timestamp converts to a valid Date. *)
Definition convertible (h : JS.Host) (rows : list Row.t) : list Row.t :=
  filter (fun row => isValidDate (Time.newDate h (Row.pickup_datetime row))) rows.

Definition mentions (needle message : string) : bool :=
  match String.index 0 needle message with Some _ => true | None => false end.

(** One statement after the other on the same object; an exception ends
    the run. *)
Definition andThen {A B : Type} (m : method A) (k : A -> method B) : method B :=
  fun st =>
    match m st with
    | (Ok a, st') => k a st'
    | (Throw e, st') => (Throw e, st')
    end.

(** The calls the page makes, from the decoded file to the forecast input:
    daily aggregation, cells of 0.05 degrees, windows of two days, four
    fifths of the samples for training, seven days ahead. *)
Definition forecastRun (h : JS.Host) (rows : list Row.t) : result Future.t * State :=
  andThen (loadRawCSV h (Complete rows)) (fun _ =>
  andThen (processRawData h "daily" (num (5 # 100))) (fun _ =>
  andThen (aggregateData h "daily") (fun _ =>
  andThen (createSequences h 2) (fun _ =>
  andThen (splitData (JS.Fin (4 # 5))) (fun _ =>
  generateFutureSequence h 7))))) initial.

(** Two trips of one cell on one day, the later one first in the file. *)
Definition unorderedRows : list Row.t :=
  [ exampleRow (noonOf 0 + 2 * Time.msPerHour) (-7398 # 100) (4075 # 100) JS.VUndefined;
    exampleRow (noonOf 0) (-7398 # 100) (4075 # 100) JS.VUndefined ].

(** ** The reporting methods of TaxiDataProcessor *)

Module DateRange.
Record t : Type := {
  start : Z;
  end_ : Z
}.
End DateRange.

Module Summary.
Record t : Type := {
  rawRecords : nat;
  processedTrips : nat;
  aggregatedRecords : nat;
  sequences : nat;
  regions : nat;
  dateRange : option DateRange.t;
  avgDemand : option JS.number
}.
End Summary.

(** [arr ? arr.length : 0] *)
Definition lengthOrZero {A : Type} (l : option (list A)) : nat :=
  match l with Some l => length l | None => O end.

(** [reduce((sum, row) => sum + row.demand, 0)] *)
Definition demandSum (aggregated : list Bucket.t) : Z :=
  fold_left (fun sum row => sum + Bucket.demand row) aggregated 0.

Definition getDataSummary (st : State) : Summary.t :=
  {| Summary.rawRecords := lengthOrZero (rawData st);
     Summary.processedTrips := lengthOrZero (processedData st);
     Summary.aggregatedRecords := lengthOrZero (aggregatedData st);
     Summary.sequences :=
       match sequences st with
       | Some sq => length (Sequences.features sq)
       | None => O
       end;
     Summary.regions :=
       match sequences st with
       | Some sq => length (Sequences.regions sq)
       | None => O
       end;
     Summary.dateRange :=
       match aggregatedData st with
       | Some (first :: rest) =>
           match lastOf (first :: rest) with
           | Some last =>
               Some {| DateRange.start := Bucket.date first;
                       DateRange.end_ := Bucket.date last |}
           | None => None
           end
       | _ => None
       end;
     Summary.avgDemand :=
       match aggregatedData st with
       | Some (first :: rest) =>
           Some (JS.div (JS.ofZ (demandSum (first :: rest)))
                        (JS.ofZ (Z.of_nat (length (first :: rest)))))
       | _ => None
       end |}.

Module PreviewRow.
Record t : Type := {
  date : Z;
  region : string;
  demand : Z;
  dayOfWeek : Z;
  isWeekend : string
}.
End PreviewRow.

Definition previewRow (row : Bucket.t) : PreviewRow.t :=
  {| PreviewRow.date := Bucket.date row;
     PreviewRow.region := Bucket.region row;
     PreviewRow.demand := Bucket.demand row;
     PreviewRow.dayOfWeek := Bucket.dayOfWeek row;
     PreviewRow.isWeekend :=
       if JS.ToBoolean (JS.VNumber (JS.ofZ (Bucket.isWeekend row)))
       then "Yes"%string else "No"%string |}.

(** [arr.slice(0, end)] for an integer [end]: a negative [end] counts from
    the end of the array. *)
Definition sliceTo {A : Type} (end_ : Z) (l : list A) : list A :=
  let len := Z.of_nat (length l) in
  let final := if end_ <? 0 then Z.max (len + end_) 0 else Z.min end_ len in
  firstn (Z.to_nat final) l.

(** [limit] is an integer here. *)
Definition getDataPreview (limit : Z) (st : State) : list PreviewRow.t :=
  match aggregatedData st with
  | None => []
  | Some aggregated =>
      map previewRow
          (sliceTo (Z.min limit (Z.of_nat (length aggregated))) aggregated)
  end.

(** ** More vocabulary *)

Definition weekendFlag (dayOfWeek : Z) : Z :=
  if (dayOfWeek =? 0) || (dayOfWeek =? 6) then 1 else 0.

(** The bucket [b] bears what its first trip [t] gave it. *)
Definition createdFrom (b : Bucket.t) (t : Trip.t) : Prop :=
  Bucket.date b = Trip.date t
  /\ Bucket.hour b = Trip.hour t
  /\ Bucket.region b = Trip.region t
  /\ Bucket.dayOfWeek b = Trip.dayOfWeek t
  /\ Bucket.month b = Trip.month t
  /\ Bucket.isWeekend b = weekendFlag (Trip.dayOfWeek t).




(** [Math.floor(totalSamples * trainRatio)], the product being the binary64
    one. *)
Definition trainSizeOf (totalSamples : nat) (trainRatio : JS.number) : JS.number :=
  JS.floor (Double.mul (JS.ofZ (Z.of_nat totalSamples)) trainRatio).


Definition double_0_3333333333333333 : Q := 6004799503160661 # 18014398509481984.

(** ** Calls of the pipeline methods *)

(** One call of a method that reads the fields of the object. *)
Inductive Call : Type :=
| CallProcessRawData (aggregationLevel : string) (regionSize : JS.value)
| CallAggregateData (aggregationLevel : string)
| CallCreateSequences (sequenceLength : nat)
| CallSplitData (trainRatio : JS.number)
| CallGenerateFutureSequence (daysToPredict : nat).

(** What the caller sees of a call: the exception, if any, and the object
    afterwards. *)
Definition thrown {A : Type} (r : result A * State) : option exn * State :=
  (match fst r with Ok _ => None | Throw e => Some e end, snd r).

Definition perform (h : JS.Host) (c : Call) (st : State) : option exn * State :=
  match c with
  | CallProcessRawData aggregationLevel regionSize =>
      thrown (processRawData h aggregationLevel regionSize st)
  | CallAggregateData aggregationLevel => thrown (aggregateData h aggregationLevel st)
  | CallCreateSequences sequenceLength => thrown (createSequences h sequenceLength st)
  | CallSplitData trainRatio => thrown (splitData trainRatio st)
  | CallGenerateFutureSequence daysToPredict =>
      thrown (generateFutureSequence h daysToPredict st)
  end.

(** ** The demand model and the event handlers of app.js *)

Module DemandModel.

(** The arguments of [createModel]. *)
Record Config : Type := {
  sequenceLength : nat;
  featureCount : nat;
  units : JS.number
}.

(** The fields of a [TaxiDemandModel]: the network built last, the epochs
    recorded in [history], [isTrained] and [modelConfig]. *)
Record t : Type := {
  model : option Config;
  epochs : list nat;
  isTrained : bool;
  modelConfig : option Config
}.

Definition initial : t :=
  {| model := None; epochs := []; isTrained := false; modelConfig := None |}.

(** How the library calls of [createModel] end: both return, or
    [tf.sequential] throws, or [compile] throws on the network that
    [tf.sequential] has returned. *)
Inductive Build : Type :=
| Built
| SequentialThrows (e : exn)
| CompileThrows (e : exn).

(** [createModel]: [modelConfig] is assigned first, [model] as soon as
    [tf.sequential] has returned. *)
Definition createModel (config : Config) (build : Build) (m : t) : result unit * t :=
  match build with
  | Built =>
      (Ok tt, {| model := Some config; epochs := epochs m; isTrained := isTrained m;
                 modelConfig := Some config |})
  | SequentialThrows e =>
      (Throw e, {| model := model m; epochs := epochs m; isTrained := isTrained m;
                   modelConfig := Some config |})
  | CompileThrows e =>
      (Throw e, {| model := Some config; epochs := epochs m; isTrained := isTrained m;
                   modelConfig := Some config |})
  end.

(** [train]: [delivered] are the epochs for which [fit] called [onEpochEnd],
    [fitted] tells whether [fit] returned. *)
Definition train (delivered : list nat) (fitted : option exn) (m : t) : result (list nat) * t :=
  match model m with
  | None => (Throw (Error "Model not created"), m)
  | Some _ =>
      match fitted with
      | None =>
          (Ok delivered, {| model := model m; epochs := delivered; isTrained := true;
                            modelConfig := modelConfig m |})
      | Some e =>
          (Throw e, {| model := model m; epochs := delivered; isTrained := isTrained m;
                       modelConfig := modelConfig m |})
      end
  end.

(** The guard of [predict] and [evaluate]: [!this.model || !this.isTrained]. *)
Definition guard (m : t) : bool :=
  match model m with
  | Some _ => isTrained m
  | None => false
  end.

(** [dispose] frees the network and assigns no field. *)
Definition dispose (m : t) : t := m.

Inductive Call : Type :=
| CallCreateModel (config : Config) (build : Build)
| CallTrain (delivered : list nat) (fitted : option exn)
| CallDispose.

Definition step (m : t) (c : Call) : t :=
  match c with
  | CallCreateModel config build => snd (createModel config build m)
  | CallTrain delivered fitted => snd (train delivered fitted m)
  | CallDispose => dispose m
  end.

Definition run (calls : list Call) (m : t) : t := fold_left step calls m.

End DemandModel.

Module FutureRow.
Record t : Type := {
  date : Z;
  region : string;
  rides : JS.number
}.
End FutureRow.

(** [Math.round]: the nearest integer, a tie going up. *)
Definition round (n : JS.number) : JS.number :=
  match n with
  | JS.Fin q => JS.ofZ (Qfloor (q + (1 # 2)))
  | other => other
  end.

(** [tf.abs] on one element. *)
Definition absolute (n : JS.number) : JS.number :=
  match n with
  | JS.NaN => JS.NaN
  | JS.Inf _ => JS.Inf true
  | JS.Fin q => JS.Fin (Qabs q)
  end.

(** [tensor.mean()] of the elements of a tensor: the library divides every
    element by the number of elements and sums the quotients, so that the
    mean of no element is 0. *)
Definition mean (elements : list JS.number) : JS.number :=
  fold_left JS.add
    (map (fun x => JS.div x (JS.ofZ (Z.of_nat (length elements)))) elements)
    (JS.ofZ 0).

(** The rows that [predictFuture] writes: label [index] beside value
    [index], for each label whose index is below [futureValues.length]. *)
Definition futureTable (dates : list Label.t) (futureValues : list JS.number) : list FutureRow.t :=
  flat_map (fun entry =>
              match nth_error futureValues (fst entry) with
              | Some value =>
                  [ {| FutureRow.date := Label.date (snd entry);
                       FutureRow.region := Label.region (snd entry);
                       FutureRow.rides := round value |} ]
              | None => []
              end)
           (combine (seq 0 (length dates)) dates).

Module App.

(** The [try] block of the handler [processRawData]: the two steps, then the
    summary and a preview of five rows.  [regionSize] comes from
    [parseFloat]. *)
Definition processRawData (h : JS.Host) (aggregationLevel : string)
    (regionSize : JS.number) : method (Summary.t * list PreviewRow.t) :=
  andThen (processRawData h aggregationLevel (JS.VNumber regionSize)) (fun _ =>
  andThen (aggregateData h aggregationLevel) (fun _ st =>
    (Ok (getDataSummary st, getDataPreview 5 st), st))).

(** The [try] block of [predictFuture], up to the rows of the table.
    [network] is the trained network on a batch of windows: the elements of
    its output of shape [batch, 1]. *)
Definition predictFuture (h : JS.Host) (network : tensor3d -> list JS.number)
    (m : DemandModel.t) (st : State) : result (list FutureRow.t) :=
  if negb (DemandModel.isTrained m) then Throw (Error "Model not trained")
  else
    match fst (generateFutureSequence h 7 st) with
    | Throw e => Throw e
    | Ok futureData =>
        if negb (DemandModel.guard m) then Throw (Error "Model not trained")
        else
          let futurePredictions := network (Future.features futureData) in
          match targetScaler st with
          | None => Throw (TypeError "Cannot read properties of null (reading 'denormalize')")
          | Some ts =>
              Ok (futureTable (Future.dates futureData)
                    (map (Scaler.denormalize1 ts) futurePredictions))
          end
    end.

(** [calculateMAE(predictions, actual)] as it is called: [predictions] are
    the elements of a tensor of shape [N, 1], [actual] those of a tensor of
    shape [M]; [tf.sub] broadcasts the two to shape [N, M]. *)
Definition calculateMAE (predictions actual : option (list JS.number)) : JS.number :=
  match predictions, actual with
  | Some column, Some targets =>
      mean (flat_map (fun p => map (fun a => absolute (JS.sub p a)) targets) column)
  | _, _ => JS.ofZ 0
  end.

End App.

(** The sum of rationals as [mean] accumulates it, and the absolute
    difference of every prediction with every target. *)
Definition total (qs : list Q) : Q := fold_left Qplus qs 0%Q.

Definition pairErrors (ps targets : list Q) : list Q :=
  flat_map (fun p => map (fun a => Qabs (p + - a)) targets) ps.

(** One row of the table, from a label and the value beside it. *)
Definition futureRow (entry : Label.t * JS.number) : FutureRow.t :=
  {| FutureRow.date := Label.date (fst entry);
     FutureRow.region := Label.region (fst entry);
     FutureRow.rides := round (snd entry) |}.

(** A model that has been built and trained, and a network that answers 0
    for every window. *)
Definition exampleConfig (units : Z) : DemandModel.Config :=
  {| DemandModel.sequenceLength := 2; DemandModel.featureCount := 4;
     DemandModel.units := JS.ofZ units |}.

Definition trainedModel : DemandModel.t :=
  DemandModel.run [DemandModel.CallCreateModel (exampleConfig 64) DemandModel.Built;
                   DemandModel.CallTrain [0%nat; 1%nat] None]
                  DemandModel.initial.

Definition zeroNetwork (batch : tensor3d) : list JS.number :=
  map (fun _ => JS.ofZ 0) batch.

(** * Properties *)

(** ** Region identifiers *)

Lemma Qis_zero_pos (q : Q) : (0 < q)%Q -> JS.Qis_zero q = false.
Proof.
  intros Hq. unfold JS.Qis_zero.
  destruct (Qeq_bool q 0) eqn:E; [|reflexivity].
  apply Qeq_bool_iff in E. rewrite E in Hq. now apply Qlt_irrefl in Hq.
Qed.

(** ** Binary64 rounding *)

Lemma pow2_pos (z : Z) : (0 < 2 ^ z)%Q.
Proof. apply Qpower_0_lt. reflexivity. Qed.

Lemma pow2_plus (a b : Z) : (2 ^ (a + b) == 2 ^ a * 2 ^ b)%Q.
Proof. apply Qpower_plus. discriminate. Qed.

Lemma pow2_le (a b : Z) : a <= b -> (2 ^ a <= 2 ^ b)%Q.
Proof. intros H. apply Qpower_le_compat_l; [exact H|discriminate]. Qed.

Lemma pow2_lt_inv (a b : Z) : (2 ^ a < 2 ^ b)%Q -> a < b.
Proof.
  intros H. destruct (Z_lt_le_dec a b) as [Hlt|Hge]; [exact Hlt|].
  apply pow2_le in Hge. exfalso. apply (Qlt_not_le _ _ H Hge).
Qed.

Lemma pow2_nat (z : Z) : 0 <= z -> (2 ^ z == inject_Z (2 ^ z))%Q.
Proof. intros H. symmetry. now apply (Zpower_Qpower 2 z). Qed.

Lemma pow2_shift (f e : Z) : e <= f -> (2 ^ f == inject_Z (2 ^ (f - e)) * 2 ^ e)%Q.
Proof.
  intros H. rewrite <- pow2_nat by lia. rewrite <- pow2_plus.
  now replace (f - e + e) with f by lia.
Qed.

Lemma ilog2_lower (x : Q) : (0 < x)%Q -> (2 ^ Double.ilog2 x <= x)%Q.
Proof.
  intros Hx. unfold Double.ilog2.
  set (a := Z.log2 (Qnum x)). set (b := Z.log2 (Zpos (Qden x))).
  destruct (Qle_bool (2 ^ (a - b)) x) eqn:E; [now apply Qle_bool_iff|].
  assert (Hn : 0 < Qnum x).
  { destruct x as [n d]. unfold Qlt in Hx. simpl in *. lia. }
  destruct (Z.log2_spec (Qnum x) Hn) as [Ha _]. fold a in Ha.
  destruct (Z.log2_spec (Zpos (Qden x)) (Pos2Z.is_pos _)) as [_ Hb]. fold b in Hb.
  assert (Ha0 : 0 <= a) by apply Z.log2_nonneg.
  assert (Hb0 : 0 <= b) by apply Z.log2_nonneg.
  rewrite (Qmake_Qdiv (Qnum x) (Qden x)) at 2 || idtac.
  assert (Ex : (x == inject_Z (Qnum x) / inject_Z (Zpos (Qden x)))%Q).
  { destruct x as [n d]. apply Qmake_Qdiv. }
  rewrite Ex. apply Qle_shift_div_l.
  - change 0%Q with (inject_Z 0). rewrite <- Zlt_Qlt. lia.
  - apply Qle_trans with (2 ^ (a - b - 1) * 2 ^ (b + 1))%Q.
    + apply Qmult_le_l; [apply pow2_pos|].
      rewrite pow2_nat by lia. rewrite <- Zle_Qle. rewrite <- Z.add_1_r in Hb. lia.
    + rewrite <- pow2_plus. replace (a - b - 1 + (b + 1)) with a by lia.
      rewrite pow2_nat by lia. now rewrite <- Zle_Qle.
Qed.

Lemma nearestEven_cases (y : Q) :
  Double.nearestEven y = Qfloor y
  \/ (Double.nearestEven y = Qfloor y + 1 /\ (inject_Z (Qfloor y) + (1 # 2) <= y)%Q).
Proof.
  unfold Double.nearestEven.
  destruct (y - inject_Z (Qfloor y) ?= 1 # 2)%Q eqn:E.
  - apply Qeq_alt in E. destruct (Z.even (Qfloor y)); [now left|right].
    split; [reflexivity|lra].
  - now left.
  - apply Qgt_alt in E. right. split; [reflexivity|lra].
Qed.

Lemma nearestEven_le (y : Q) (k : Z) : (y <= inject_Z k)%Q -> Double.nearestEven y <= k.
Proof.
  intros H. pose proof (Qfloor_le y) as Hf.
  destruct (nearestEven_cases y) as [->|[-> Hh]].
  - rewrite Zle_Qle. lra.
  - assert (Hlt : (inject_Z (Qfloor y) < inject_Z k)%Q) by lra.
    rewrite <- Zlt_Qlt in Hlt. lia.
Qed.

Lemma nearestEven_ge (y : Q) (k : Z) : (inject_Z k <= y)%Q -> k <= Double.nearestEven y.
Proof.
  intros H. apply Qfloor_resp_le in H. rewrite Qfloor_Z in H.
  destruct (nearestEven_cases y) as [->|[-> _]]; lia.
Qed.

Lemma nearestEven_lt (y : Q) (k : Z) :
  (y < inject_Z k - (1 # 2))%Q -> Double.nearestEven y < k.
Proof.
  intros H. pose proof (Qfloor_le y) as Hf.
  destruct (nearestEven_cases y) as [->|[-> Hh]].
  - rewrite Zlt_Qlt. lra.
  - assert (Hlt : (inject_Z (Qfloor y) + 1 < inject_Z k)%Q) by lra.
    change 1%Q with (inject_Z 1) in Hlt. rewrite <- inject_Z_plus, <- Zlt_Qlt in Hlt. lia.
Qed.

(** The exponent chosen for [x] is at most that of any bound [M * 2^f] of it. *)
Lemma exponent_le (x : Q) (M f : Z) :
  (0 < x)%Q -> (x <= inject_Z M * 2 ^ f)%Q -> 0 < M < 2 ^ 53 -> Double.emin <= f ->
  Double.exponent x <= f.
Proof.
  intros Hx Hb HM Hf. unfold Double.exponent.
  apply Z.max_lub; [|exact Hf].
  pose proof (ilog2_lower x Hx) as Hl.
  assert (Hlt : (2 ^ Double.ilog2 x < 2 ^ (53 + f))%Q).
  { eapply Qle_lt_trans; [exact Hl|]. eapply Qle_lt_trans; [exact Hb|].
    rewrite pow2_plus. apply Qmult_lt_r; [apply pow2_pos|].
    rewrite pow2_nat by lia. rewrite <- Zlt_Qlt. lia. }
  apply pow2_lt_inv in Hlt. lia.
Qed.

Lemma exponent_normal (x : Q) :
  (0 < x)%Q -> Double.emin < Double.exponent x -> (2 ^ (52 + Double.exponent x) <= x)%Q.
Proof.
  intros Hx He. unfold Double.exponent in *.
  assert (E : Z.max (Double.ilog2 x - 52) Double.emin = Double.ilog2 x - 52) by lia.
  rewrite E. replace (52 + (Double.ilog2 x - 52)) with (Double.ilog2 x) by lia.
  now apply ilog2_lower.
Qed.

Lemma scaled (x : Q) (e : Z) : (x / 2 ^ e * 2 ^ e == x)%Q.
Proof.
  unfold Qdiv. rewrite <- Qmult_assoc, (Qmult_comm (/ _)), Qmult_inv_r, Qmult_1_r;
    [reflexivity|]. pose proof (pow2_pos e). lra.
Qed.

Lemma roundPositive_le (x : Q) (M f : Z) :
  (0 < x)%Q -> (x <= inject_Z M * 2 ^ f)%Q -> 0 < M < 2 ^ 53 ->
  Double.emin <= f <= 971 ->
  exists v, Double.roundPositive x = JS.Fin v /\ (0 <= v <= inject_Z M * 2 ^ f)%Q.
Proof.
  intros Hx Hb HM [Hf1 Hf2].
  pose proof (exponent_le x M f Hx Hb HM Hf1) as He.
  unfold Double.roundPositive. set (e := Double.exponent x) in *.
  set (m := Double.nearestEven (x / 2 ^ e)).
  pose proof (pow2_pos e) as Hp.
  assert (Hy0 : (0 <= x / 2 ^ e)%Q).
  { apply Qle_shift_div_l; [exact Hp|]. lra. }
  assert (Hm0 : 0 <= m) by (apply nearestEven_ge; exact Hy0).
  assert (Hm1 : m <= M * 2 ^ (f - e)).
  { apply nearestEven_le. apply Qle_shift_div_r; [exact Hp|].
    rewrite inject_Z_mult, <- Qmult_assoc, <- pow2_shift by exact He. exact Hb. }
  assert (Hv : (inject_Z m * 2 ^ e <= inject_Z M * 2 ^ f)%Q).
  { rewrite (pow2_shift f e He), Qmult_assoc, <- inject_Z_mult.
    apply Qmult_le_compat_r; [|lra]. now rewrite <- Zle_Qle. }
  assert (Hno : Qle_bool (2 ^ 1024) (inject_Z m * 2 ^ e) = false).
  { destruct (Qle_bool (2 ^ 1024) (inject_Z m * 2 ^ e)) eqn:E; [|reflexivity].
    apply Qle_bool_iff in E. exfalso.
    assert (Hlt : (inject_Z M * 2 ^ f < 2 ^ 1024)%Q).
    { apply Qlt_le_trans with (2 ^ 53 * 2 ^ f)%Q.
      - apply Qmult_lt_r; [apply pow2_pos|].
        rewrite pow2_nat by lia. rewrite <- Zlt_Qlt. lia.
      - rewrite <- pow2_plus. apply pow2_le. lia. }
    lra. }
  rewrite Hno. eexists. split; [reflexivity|]. rewrite Qred_correct. split; [|exact Hv].
  apply Qmult_le_0_compat; [|lra]. change 0%Q with (inject_Z 0). now rewrite <- Zle_Qle.
Qed.

Lemma roundPositive_ge (x : Q) (M f : Z) :
  (inject_Z M * 2 ^ f <= x)%Q -> 0 < M < 2 ^ 53 -> Double.emin <= f ->
  match Double.roundPositive x with
  | JS.Fin v => (inject_Z M * 2 ^ f <= v)%Q
  | JS.Inf p => p = true
  | JS.NaN => False
  end.
Proof.
  intros Hb HM Hf.
  assert (HMp : (0 < inject_Z M * 2 ^ f)%Q).
  { apply Qmult_lt_0_compat; [|apply pow2_pos].
    change 0%Q with (inject_Z 0). rewrite <- Zlt_Qlt. lia. }
  assert (Hx : (0 < x)%Q) by lra.
  unfold Double.roundPositive. set (e := Double.exponent x).
  set (m := Double.nearestEven (x / 2 ^ e)).
  destruct (Qle_bool (2 ^ 1024) (inject_Z m * 2 ^ e)); [reflexivity|].
  rewrite Qred_correct. pose proof (pow2_pos e) as Hp.
  destruct (Z_le_gt_dec e f) as [He|He].
  - assert (Hm : M * 2 ^ (f - e) <= m).
    { apply nearestEven_ge. apply Qle_shift_div_l; [exact Hp|].
      rewrite inject_Z_mult, <- Qmult_assoc, <- pow2_shift by exact He. exact Hb. }
    rewrite (pow2_shift f e He), Qmult_assoc, <- inject_Z_mult.
    apply Qmult_le_compat_r; [|lra]. now rewrite <- Zle_Qle.
  - assert (Hn : (2 ^ (52 + e) <= x)%Q) by (apply exponent_normal; [exact Hx|fold e; lia]).
    assert (Hm : 2 ^ 52 <= m).
    { apply nearestEven_ge. apply Qle_shift_div_l; [exact Hp|].
      rewrite <- pow2_nat by lia. now rewrite <- pow2_plus. }
    apply Qle_trans with (2 ^ 53 * 2 ^ f)%Q.
    + apply Qmult_le_compat_r; [|pose proof (pow2_pos f); lra].
      rewrite pow2_nat by lia. rewrite <- Zle_Qle. lia.
    + apply Qle_trans with (2 ^ 52 * 2 ^ e)%Q.
      * rewrite <- !pow2_plus. apply pow2_le. lia.
      * apply Qmult_le_compat_r; [|lra].
        rewrite pow2_nat by lia. now rewrite <- Zle_Qle.
Qed.

(** A product of a count [N] and a factor of at most [1 - 2^-53] rounds
    below [N]. *)
Lemma roundPositive_below (x : Q) (N : Z) :
  (0 < x)%Q -> 0 < N < 2 ^ 53 ->
  (x <= inject_Z N * (1 - 2 ^ (-53)))%Q ->
  exists v, Double.roundPositive x = JS.Fin v /\ (0 <= v)%Q /\ (v < inject_Z N)%Q.
Proof.
  intros Hx HN Hb.
  assert (H53 : (0 < 2 ^ (-53))%Q) by apply pow2_pos.
  assert (HNq : (0 < inject_Z N)%Q)
    by (change 0%Q with (inject_Z 0); rewrite <- Zlt_Qlt; lia).
  assert (HxN : (x < inject_Z N)%Q) by nra.
  assert (Hb0 : (x <= inject_Z N * 2 ^ 0)%Q).
  { change (2 ^ 0)%Q with 1%Q. lra. }
  pose proof (exponent_le x N 0 Hx Hb0 HN ltac:(unfold Double.emin; lia)) as He.
  destruct (roundPositive_le x N 0 Hx Hb0 HN ltac:(unfold Double.emin; lia))
    as (v & Ev & Hv0 & _).
  exists v. split; [exact Ev|]. split; [exact Hv0|].
  unfold Double.roundPositive in Ev. set (e := Double.exponent x) in *.
  set (m := Double.nearestEven (x / 2 ^ e)) in *.
  destruct (Qle_bool (2 ^ 1024) (inject_Z m * 2 ^ e)); [discriminate|].
  assert (Ev' : v = Qred (inject_Z m * 2 ^ e)) by congruence.
  clear Ev. rewrite Ev'. clear Ev' Hv0 v.
  apply Qle_lt_trans with (inject_Z m * 2 ^ e)%Q;
    [apply Qle_lteq; right; apply Qred_correct|].
  pose proof (pow2_pos e) as Hp.
  assert (Hbig : (2 ^ (52 + e) < inject_Z N)%Q).
  { destruct (Z_le_gt_dec e Double.emin) as [Hs|Hn].
    - apply Qlt_le_trans with 1%Q.
      + change 1%Q with (2 ^ 0)%Q.
        destruct (Z.eq_dec (52 + e) 0) as [E|E]; [unfold Double.emin in Hs; lia|].
        assert (H : (2 ^ (52 + e) <= 2 ^ (-1))%Q)
          by (apply pow2_le; unfold Double.emin in Hs; lia).
        change (2 ^ (-1))%Q with (1 # 2)%Q in H. change (2 ^ 0)%Q with 1%Q. lra.
      + change 1%Q with (inject_Z 1). rewrite <- Zle_Qle. lia.
    - eapply Qle_lt_trans; [|exact HxN]. apply exponent_normal; [exact Hx|]. fold e. lia. }
  assert (Hm : m < N * 2 ^ (0 - e)).
  { apply nearestEven_lt. apply Qlt_shift_div_r; [exact Hp|].
    (* x < (N 2^-e - 1/2) 2^e = N - 2^e / 2 *)
    assert (E1 : ((inject_Z (N * 2 ^ (0 - e)) - (1 # 2)) * 2 ^ e
                  == inject_Z N - (1 # 2) * 2 ^ e)%Q).
    { rewrite inject_Z_mult.
      assert (E2 : (inject_Z (2 ^ (0 - e)) * 2 ^ e == 1)%Q).
      { rewrite <- pow2_shift by exact He. reflexivity. }
      transitivity (inject_Z N * (inject_Z (2 ^ (0 - e)) * 2 ^ e) - (1 # 2) * 2 ^ e)%Q;
        [ring|]. rewrite E2. ring. }
    rewrite E1.
    (* N 2^-53 > 2^e / 2  <=  N > 2^(52+e) *)
    assert (E3 : (2 ^ (52 + e) * 2 ^ (-53) == (1 # 2) * 2 ^ e)%Q).
    { rewrite <- pow2_plus. replace (52 + e + -53) with (-1 + e) by lia.
      rewrite pow2_plus. reflexivity. }
    assert (H4 : ((1 # 2) * 2 ^ e < inject_Z N * 2 ^ (-53))%Q).
    { rewrite <- E3. apply Qmult_lt_r; [exact H53|exact Hbig]. }
    lra. }
  assert (Hm' : (inject_Z m * 2 ^ e < inject_Z (N * 2 ^ (0 - e)) * 2 ^ e)%Q).
  { apply Qmult_lt_r; [exact Hp|]. now rewrite <- Zlt_Qlt. }
  rewrite inject_Z_mult, <- Qmult_assoc, <- pow2_shift in Hm' by exact He.
  change (2 ^ 0)%Q with 1%Q in Hm'. lra.
Qed.


Lemma round_nonneg (q : Q) (M f : Z) :
  (0 <= q)%Q -> (q <= inject_Z M * 2 ^ f)%Q -> 0 < M < 2 ^ 53 ->
  Double.emin <= f <= 971 ->
  exists v, Double.round q = JS.Fin v /\ (0 <= v <= inject_Z M * 2 ^ f)%Q.
Proof.
  intros H0 Hb HM Hf. unfold Double.round.
  destruct (q ?= 0)%Q eqn:E.
  - exists 0%Q. split; [reflexivity|]. split; [lra|].
    apply Qmult_le_0_compat; [|pose proof (pow2_pos f); lra].
    change 0%Q with (inject_Z 0). rewrite <- Zle_Qle. lia.
  - apply Qlt_alt in E. lra.
  - apply Qgt_alt in E. now apply roundPositive_le.
Qed.

(** A count below 2^53 is a binary64 number. *)
Lemma round_count (N : Z) :
  0 <= N < 2 ^ 53 -> exists n, Double.round (inject_Z N) = JS.Fin n /\ (n == inject_Z N)%Q.
Proof.
  intros HN. destruct (Z.eq_dec N 0) as [->|Hne].
  { exists 0%Q. split; reflexivity. }
  assert (Hq : (0 < inject_Z N)%Q)
    by (change 0%Q with (inject_Z 0); rewrite <- Zlt_Qlt; lia).
  assert (Hb : (inject_Z N <= inject_Z N * 2 ^ 0)%Q)
    by (change (2 ^ 0)%Q with 1%Q; lra).
  assert (Hb' : (inject_Z N * 2 ^ 0 <= inject_Z N)%Q)
    by (change (2 ^ 0)%Q with 1%Q; lra).
  unfold Double.round. rewrite (proj1 (Qgt_alt _ _) Hq).
  destruct (roundPositive_le (inject_Z N) N 0) as (v & Ev & _ & Hv);
    [exact Hq|exact Hb|lia|unfold Double.emin; lia|].
  pose proof (roundPositive_ge (inject_Z N) N 0 Hb' ltac:(lia)
                ltac:(unfold Double.emin; lia)) as Hge.
  rewrite Ev in Hge. exists v. split; [exact Ev|].
  change (2 ^ 0)%Q with 1%Q in *. lra.
Qed.

Lemma floor_Fin (v : Q) (lo hi : Z) :
  (inject_Z lo <= v)%Q -> (v <= inject_Z hi)%Q ->
  exists k, JS.floor (JS.Fin v) = JS.ofZ k /\ lo <= k <= hi.
Proof.
  intros H1 H2. exists (Qfloor v). split; [reflexivity|].
  apply Qfloor_resp_le in H1, H2. rewrite Qfloor_Z in H1, H2. lia.
Qed.

Lemma ofZ_inj (a b : Z) : JS.ofZ a = JS.ofZ b -> a = b.
Proof. unfold JS.ofZ, inject_Z. congruence. Qed.

(** ** Region identifiers *)










(** Scenario B in binary64 arithmetic: the cells of (12.34, 56.78) and of
    (12.39, 56.79) are 123 and 567, the first cell of (12.45, 56.78) is 124. *)
Remark scenario_B_binary64 :
  let size := Float64.decimal 1 1 in
  Float64.floor (Float64.div (Float64.decimal 1234 2) size) = Some 123
  /\ Float64.floor (Float64.div (Float64.decimal 5678 2) size) = Some 567
  /\ Float64.floor (Float64.div (Float64.decimal 1239 2) size) = Some 123
  /\ Float64.floor (Float64.div (Float64.decimal 5679 2) size) = Some 567
  /\ Float64.floor (Float64.div (Float64.decimal 1245 2) size) = Some 124.
Proof.
  cbv zeta. repeat split; vm_compute; reflexivity.
Qed.


(** ** Scaler *)

Lemma reduceMin_finite (l : list Q) (m : Q) :
  exists m',
    fold_left (fun m v => if JS.isNaN v || JS.ltb v m then v else m)
              (map JS.Fin l) (JS.Fin m) = JS.Fin m'
    /\ (m' = m \/ In m' l) /\ (m' <= m)%Q /\ (forall x, In x l -> (m' <= x)%Q).
Proof.
  revert m. induction l as [|x l IH]; intros m; simpl.
  - exists m. repeat split; auto using Qle_refl. intros x [].
  - destruct (Qle_bool m x) eqn:E; simpl.
    + apply Qle_bool_iff in E.
      destruct (IH m) as (m' & Hf & Hin & Hle & Hall).
      exists m'. repeat split; auto.
      * destruct Hin; auto.
      * intros y [<-|Hy]; [now apply Qle_trans with m | auto].
    + assert (Hx : (x <= m)%Q).
      { destruct (Qlt_le_dec x m) as [H|H]; [now apply Qlt_le_weak|].
        apply Qle_bool_iff in H. congruence. }
      destruct (IH x) as (m' & Hf & Hin & Hle & Hall).
      exists m'. repeat split; auto.
      * destruct Hin; auto.
      * now apply Qle_trans with x.
      * intros y [<-|Hy]; auto.
Qed.

Lemma reduceMax_finite (l : list Q) (m : Q) :
  exists m',
    fold_left (fun m v => if JS.isNaN v || JS.ltb m v then v else m)
              (map JS.Fin l) (JS.Fin m) = JS.Fin m'
    /\ (m' = m \/ In m' l) /\ (m <= m')%Q /\ (forall x, In x l -> (x <= m')%Q).
Proof.
  revert m. induction l as [|x l IH]; intros m; simpl.
  - exists m. repeat split; auto using Qle_refl. intros x [].
  - destruct (Qle_bool x m) eqn:E; simpl.
    + apply Qle_bool_iff in E.
      destruct (IH m) as (m' & Hf & Hin & Hle & Hall).
      exists m'. repeat split; auto.
      * destruct Hin; auto.
      * intros y [<-|Hy]; [now apply Qle_trans with m | auto].
    + assert (Hx : (m <= x)%Q).
      { destruct (Qlt_le_dec m x) as [H|H]; [now apply Qlt_le_weak|].
        apply Qle_bool_iff in H. congruence. }
      destruct (IH x) as (m' & Hf & Hin & Hle & Hall).
      exists m'. repeat split; auto.
      * destruct Hin; auto.
      * now apply Qle_trans with x.
      * intros y [<-|Hy]; auto.
Qed.

(** The bounds of a scaler fitted on finite numbers are the least and the
    greatest element of the array. *)
Lemma createScaler_extrema (A : list Q) (lo hi : Q) :
  Scaler.min (createScaler (map JS.Fin A)) = JS.Fin lo ->
  Scaler.max (createScaler (map JS.Fin A)) = JS.Fin hi ->
  In lo A /\ In hi A /\ forall x, In x A -> (lo <= x <= hi)%Q.
Proof.
  destruct A as [|a A]; simpl; [discriminate|].
  intros Hlo Hhi.
  destruct (reduceMin_finite A a) as (m & Hm & Hmin & Hma & Hmall).
  destruct (reduceMax_finite A a) as (M & HM & HMin & HMa & HMall).
  rewrite Hm in Hlo. rewrite HM in Hhi.
  injection Hlo as <-. injection Hhi as <-.
  repeat split.
  - destruct Hmin; auto.
  - destruct HMin; auto.
  - destruct H as [<-|H]; auto.
  - destruct H as [<-|H]; auto.
Qed.

Lemma normalize1_finite (s : Scaler.t) (lo hi x : Q) :
  Scaler.min s = JS.Fin lo -> Scaler.max s = JS.Fin hi -> (lo < hi)%Q ->
  Scaler.normalize1 s (JS.Fin x) = JS.Fin ((x - lo) / (hi - lo)).
Proof.
  intros Hlo Hhi Hlt. unfold Scaler.normalize1. rewrite Hlo, Hhi. simpl.
  rewrite Qis_zero_pos; [reflexivity|].
  now apply (proj1 (Qlt_minus_iff lo hi)).
Qed.

Lemma denormalize1_finite (s : Scaler.t) (lo hi x : Q) :
  Scaler.min s = JS.Fin lo -> Scaler.max s = JS.Fin hi ->
  Scaler.denormalize1 s (JS.Fin x) = JS.Fin (x * (hi - lo) + lo).
Proof.
  intros Hlo Hhi. unfold Scaler.denormalize1. now rewrite Hlo, Hhi.
Qed.

Lemma Qabs_of_eq (y x eps : Q) : (y == x)%Q -> (0 <= eps)%Q -> (Qabs (y - x) <= eps)%Q.
Proof.
  intros E He. assert (Z0 : (y - x == 0)%Q) by (rewrite E; ring).
  now rewrite Z0.
Qed.

(** C3, in exact arithmetic.  A scaler fitted on an array of finite numbers
    whose least element [lo] is below its greatest element [hi] has these
    two as bounds; [normalize(x) = (x - lo) / (hi - lo)] and
    [denormalize(x) = x * (hi - lo) + lo] are inverse to each other, so
    [denormalize(normalize(x))] is [x] (hence within 1e-6 of it) for every
    [x] of the array, [normalize(lo)] is 0 and [normalize(hi)] is 1.  On
    [2,4,6,8] the bounds are 2 and 8, [normalize(4)] is 1/3 (0.333 to three
    places) and [denormalize(0.333)] is 3.998 (4.0 to two places). *)
Theorem scaler_affine_inverse (A : list Q) (lo hi : Q) :
  Scaler.min (createScaler (map JS.Fin A)) = JS.Fin lo ->
  Scaler.max (createScaler (map JS.Fin A)) = JS.Fin hi ->
  (lo < hi)%Q ->
  let s := createScaler (map JS.Fin A) in
  (In lo A /\ In hi A /\ forall x, In x A -> (lo <= x <= hi)%Q)
  /\ (forall x, Scaler.normalize1 s (JS.Fin x) = JS.Fin ((x - lo) / (hi - lo)))
  /\ (forall x, Scaler.denormalize1 s (JS.Fin x) = JS.Fin (x * (hi - lo) + lo))
  /\ (forall x, In x A ->
        exists y, Scaler.denormalize1 s (Scaler.normalize1 s (JS.Fin x)) = JS.Fin y
                  /\ (y == x)%Q /\ (Qabs (y - x) <= 1 # 1000000)%Q)
  /\ (forall x,
        exists y, Scaler.normalize1 s (Scaler.denormalize1 s (JS.Fin x)) = JS.Fin y
                  /\ (y == x)%Q)
  /\ (exists z, Scaler.normalize1 s (JS.Fin lo) = JS.Fin z /\ (z == 0)%Q)
  /\ (exists o, Scaler.normalize1 s (JS.Fin hi) = JS.Fin o /\ (o == 1)%Q)
  /\ createScaler (map JS.Fin [2; 4; 6; 8]%Q)
     = {| Scaler.min := JS.Fin 2; Scaler.max := JS.Fin 8 |}
  /\ (exists y, Scaler.normalize1 (createScaler (map JS.Fin [2; 4; 6; 8]%Q)) (JS.Fin 4)
                = JS.Fin y
                /\ (y == 1 # 3)%Q /\ (Qabs (y - (333 # 1000)) <= 1 # 1000)%Q)
  /\ (exists y, Scaler.denormalize1 (createScaler (map JS.Fin [2; 4; 6; 8]%Q))
                  (JS.Fin (333 # 1000)) = JS.Fin y
                /\ (Qabs (y - 4) <= 1 # 100)%Q).
Proof.
  intros Hlo Hhi Hlt s.
  assert (Hnz : ~ (hi - lo == 0)%Q).
  { intros E. apply (proj1 (Qlt_minus_iff lo hi)) in Hlt.
    change (hi + - lo)%Q with (hi - lo)%Q in Hlt.
    rewrite E in Hlt. now apply Qlt_irrefl in Hlt. }
  split; [now apply createScaler_extrema|].
  split; [intros x; now apply normalize1_finite|].
  split; [intros x; now apply denormalize1_finite|].
  split.
  { intros x _. eexists. split.
    - rewrite (normalize1_finite s lo hi) by assumption.
      now apply (denormalize1_finite s lo hi).
    - assert (E : ((x - lo) / (hi - lo) * (hi - lo) + lo == x)%Q) by now field.
      split; [exact E|]. apply Qabs_of_eq; [exact E|discriminate]. }
  split.
  { intros x. eexists. split.
    - rewrite (denormalize1_finite s lo hi) by assumption.
      now apply (normalize1_finite s lo hi).
    - now field. }
  split.
  { eexists. split; [now apply (normalize1_finite s lo hi)|]. now field. }
  split.
  { eexists. split; [now apply (normalize1_finite s lo hi)|]. now field. }
  split; [reflexivity|].
  split.
  - eexists. split; [reflexivity|]. split; [reflexivity|discriminate].
  - eexists. split; [reflexivity|discriminate].
Qed.

(** C3 as stated fails on binary32 elements: fitted on [0, 18, 35], the
    scaler sends 18 to 18 + 2^-19 on the way there and back, which is more
    than 1e-6 away.  On [2, 4, 6, 8] the bounds are 2 and 8, the ends go to
    0 and 1, [normalize(4)] and [denormalize(0.333)] are as close to 0.333
    and 4.0 as stated. *)
Lemma scaler_float32_counterexample :
  let s := Float32.createScaler (map Float32.ofZ [0; 18; 35]) in
  Float32.min s = Float32.ofZ 0
  /\ Float32.max s = Float32.ofZ 35
  /\ In (Float32.ofZ 18) (map Float32.ofZ [0; 18; 35])
  /\ Float32.toQ (Float32.ofZ 18) = Some (9437184 * Qpower 2 (-19))%Q
  /\ (9437184 * Qpower 2 (-19) == 18)%Q
  /\ (exists y,
        Float32.toQ (Float32.denormalize1 s (Float32.normalize1 s (Float32.ofZ 18)))
        = Some y
        /\ (y == 18 + (1 # 524288))%Q
        /\ ~ (Qabs (y - 18) <= 1 # 1000000)%Q)
  /\ (let c := Float32.createScaler (map Float32.ofZ [2; 4; 6; 8]) in
      c = {| Float32.min := Float32.ofZ 2; Float32.max := Float32.ofZ 8 |}
      /\ Float32.normalize1 c (Float32.ofZ 2) = S754_zero false
      /\ Float32.normalize1 c (Float32.ofZ 8) = Float32.ofZ 1
      /\ (exists y, Float32.toQ (Float32.normalize1 c (Float32.ofZ 4)) = Some y
                    /\ (Qabs (y - (333 # 1000)) <= 1 # 1000)%Q)
      /\ (exists y, Float32.toQ
                      (Float32.denormalize1 c
                         (Float32.div (Float32.ofZ 333) (Float32.ofZ 1000))) = Some y
                    /\ (Qabs (y - 4) <= 1 # 100)%Q)).
Proof.
  cbv zeta. split; [reflexivity|]. split; [reflexivity|].
  split; [simpl; auto|]. split; [reflexivity|]. split; [reflexivity|].
  split.
  - eexists. split; [vm_compute; reflexivity|]. split; [reflexivity|].
    intros H. vm_compute in H. now apply H.
  - split; [reflexivity|]. split; [reflexivity|]. split; [reflexivity|]. split.
    + eexists. split; [vm_compute; reflexivity|]. vm_compute. discriminate.
    + eexists. split; [vm_compute; reflexivity|]. vm_compute. discriminate.
Qed.

Lemma scaler_affine_inverse_witness :
  (2 < 8)%Q
  /\ exists y,
       Scaler.denormalize1 (createScaler (map JS.Fin [2; 4; 6; 8]%Q))
         (Scaler.normalize1 (createScaler (map JS.Fin [2; 4; 6; 8]%Q)) (JS.Fin 6))
       = JS.Fin y
       /\ (y == 6)%Q /\ (Qabs (y - 6) <= 1 # 1000000)%Q.
Proof.
  split; [reflexivity|].
  destruct (scaler_affine_inverse [2; 4; 6; 8]%Q 2 8 eq_refl eq_refl eq_refl)
    as (_ & _ & _ & H & _).
  apply (H 6%Q). simpl. auto.
Defined.

(** ** Sorting by date *)

Lemma insertBy_perm {A : Type} (cmp : A -> A -> Z) (x : A) (l : list A) :
  Permutation (insertBy cmp x l) (x :: l).
Proof.
  induction l as [|y l IH]; simpl; [reflexivity|].
  destruct (cmp x y <=? 0); [reflexivity|].
  rewrite IH. apply perm_swap.
Qed.

Lemma sortBy_perm {A : Type} (cmp : A -> A -> Z) (l : list A) :
  Permutation (sortBy cmp l) l.
Proof.
  induction l as [|x l IH]; simpl; [reflexivity|].
  unfold sortBy in IH. rewrite insertBy_perm. now constructor.
Qed.

Lemma sortBy_length {A : Type} (cmp : A -> A -> Z) (l : list A) :
  length (sortBy cmp l) = length l.
Proof. apply Permutation_length, sortBy_perm. Qed.

Lemma sortBy_In {A : Type} (cmp : A -> A -> Z) (l : list A) (x : A) :
  In x (sortBy cmp l) <-> In x l.
Proof.
  split; apply Permutation_in; [|symmetry]; apply sortBy_perm.
Qed.

Lemma byDate_le (a b : Bucket.t) :
  (byDate a b <=? 0) = (Bucket.date a <=? Bucket.date b).
Proof.
  unfold byDate, Time.newDateOfDay, Time.msPerDay.
  apply Bool.eq_true_iff_eq. rewrite !Z.leb_le. lia.
Qed.

Lemma insertBy_sorted (x : Bucket.t) (l : list Bucket.t) :
  StronglySorted dateLe l -> StronglySorted dateLe (insertBy byDate x l).
Proof.
  induction 1 as [|y l Hs IH Hy]; simpl.
  - constructor; constructor.
  - rewrite byDate_le. destruct (Bucket.date x <=? Bucket.date y) eqn:E.
    + apply Z.leb_le in E. constructor; [now constructor|].
      constructor; [exact E|].
      eapply Forall_impl; [|exact Hy]. unfold dateLe. intros; lia.
    + apply Z.leb_gt in E. constructor; [exact IH|].
      apply (Permutation_Forall (Permutation_sym (insertBy_perm byDate x l))).
      constructor; [unfold dateLe; lia | exact Hy].
Qed.

Lemma sortBy_sorted (l : list Bucket.t) : StronglySorted dateLe (sortBy byDate l).
Proof.
  induction l as [|x l IH]; simpl; [constructor|].
  now apply insertBy_sorted.
Qed.

(** In a list sorted by date, an earlier position holds an earlier or equal
    date. *)
Lemma sorted_nth_le (l : list Bucket.t) (i j : nat) (a b : Bucket.t) :
  StronglySorted dateLe l -> (i < j)%nat ->
  nth_error l i = Some a -> nth_error l j = Some b -> dateLe a b.
Proof.
  intros Hs. revert i j. induction Hs as [|x l Hs IH Hx]; intros i j Hij Ha Hb.
  - now destruct i.
  - destruct j as [|j]; [lia|]. simpl in Hb. destruct i as [|i]; simpl in Ha.
    + injection Ha as <-. rewrite Forall_forall in Hx.
      apply Hx. eapply nth_error_In; eauto.
    + apply (IH i j); auto. lia.
Qed.

(** ** Aggregation *)

Lemma Key_eqb_eq (a b : Key.t) : Key.eqb a b = true <-> a = b.
Proof.
  destruct a as [d1 h1 r1], b as [d2 h2 r2]. unfold Key.eqb. simpl.
  rewrite !andb_true_iff, Z.eqb_eq, String.eqb_eq. split.
  - intros [[-> Hh] ->]. f_equal.
    destruct h1, h2; try discriminate; auto.
    apply Z.eqb_eq in Hh. now subst.
  - intros [= -> -> ->]. repeat split; auto.
    destruct h2; auto. apply Z.eqb_refl.
Qed.

Lemma Key_eqb_refl (k : Key.t) : Key.eqb k k = true.
Proof. now apply Key_eqb_eq. Qed.

Lemma Key_eq_dec (a b : Key.t) : {a = b} + {a <> b}.
Proof.
  destruct (Key.eqb a b) eqn:E.
  - left. now apply Key_eqb_eq.
  - right. intros ->. now rewrite Key_eqb_refl in E.
Qed.

Lemma addTrip_keys_present (h : JS.Host) (k : Key.t) (t : Trip.t)
    (g : list (Key.t * Bucket.t)) :
  In k (map fst g) -> map fst (addTrip h k t g) = map fst g.
Proof.
  induction g as [|[k' b] g IH]; simpl; [intros []|].
  intros Hin. destruct (Key.eqb k k') eqn:E; simpl; [reflexivity|].
  f_equal. apply IH. destruct Hin as [->|Hin]; [|exact Hin].
  now rewrite Key_eqb_refl in E.
Qed.

Lemma addTrip_absent (h : JS.Host) (k : Key.t) (t : Trip.t)
    (g : list (Key.t * Bucket.t)) :
  ~ In k (map fst g) ->
  addTrip h k t g = g ++ [(k, accumulate h t (freshBucket t))].
Proof.
  induction g as [|[k' b] g IH]; simpl; [reflexivity|].
  intros Hn. destruct (Key.eqb k k') eqn:E.
  - apply Key_eqb_eq in E. subst. exfalso. auto.
  - f_equal. apply IH. auto.
Qed.

Lemma totalDemand_perm (l l' : list Bucket.t) :
  Permutation l l' -> totalDemand l = totalDemand l'.
Proof.
  induction 1; simpl; lia.
Qed.

Lemma filter_length_perm {A : Type} (f : A -> bool) (l l' : list A) :
  Permutation l l' -> length (filter f l) = length (filter f l').
Proof.
  induction 1 as [|x l l' _ IH|x y l|l l' l'' _ IH1 _ IH2]; simpl.
  - reflexivity.
  - destruct (f x); simpl; now rewrite IH.
  - destruct (f x), (f y); reflexivity.
  - now rewrite IH1.
Qed.

Lemma filter_key_once (l : list Key.t) (k : Key.t) :
  NoDup l -> In k l -> length (filter (fun x => Key.eqb x k) l) = 1%nat.
Proof.
  induction 1 as [|x l Hx Hnd IH]; simpl; [intros []|].
  intros [->|Hin].
  - rewrite Key_eqb_refl. simpl. f_equal.
    destruct (filter (fun x => Key.eqb x k) l) as [|y l'] eqn:F; [reflexivity|].
    exfalso. assert (Hy : In y (filter (fun x => Key.eqb x k) l))
      by (rewrite F; now left).
    apply filter_In in Hy as [Hy1 Hy2]. apply Key_eqb_eq in Hy2. now subst.
  - destruct (Key.eqb x k) eqn:E; [|auto].
    apply Key_eqb_eq in E. now subst.
Qed.

(** Splits on whether the key [k] already heads an entry of [g], and
    rewrites [addTrip] accordingly. *)
Ltac by_key_presence k g :=
  let Hin := fresh "Hin" in
  let Hn := fresh "Hn" in
  destruct (in_dec Key_eq_dec k (map fst g)) as [Hin|Hn];
  [ rewrite (addTrip_keys_present _ k _ g Hin)
  | rewrite (addTrip_absent _ k _ g Hn) ].

Section Aggregation.

Variable h : JS.Host.
Variable level : string.

Lemma bucketKey_accumulate (t : Trip.t) (b : Bucket.t) :
  bucketKey level (accumulate h t b) = bucketKey level b.
Proof. reflexivity. Qed.

Lemma bucketKey_fresh (t : Trip.t) :
  bucketKey level (freshBucket t) = keyOf level t.
Proof. reflexivity. Qed.

Lemma addTrip_In (k : Key.t) (t : Trip.t) (g : list (Key.t * Bucket.t))
    (k' : Key.t) (b' : Bucket.t) :
  NoDup (map fst g) ->
  In (k', b') (addTrip h k t g) ->
  (k' <> k /\ In (k', b') g)
  \/ (k' = k /\ exists b0, b' = accumulate h t b0
                 /\ (In (k, b0) g \/ (~ In k (map fst g) /\ b0 = freshBucket t))).
Proof.
  induction g as [|[k1 b1] g IH]; simpl; intros Hnd Hin.
  - destruct Hin as [[= <- <-]|[]]. right. split; [reflexivity|].
    eexists. split; [reflexivity|]. right. auto.
  - inversion Hnd as [|? ? Hk1 Hnd']; subst.
    destruct (Key.eqb k k1) eqn:E.
    + apply Key_eqb_eq in E. subst k1. destruct Hin as [[= <- <-]|Hin].
      * right. split; [reflexivity|]. eexists. split; [reflexivity|]. auto.
      * left. split; [|auto]. intros ->. apply Hk1.
        change k with (fst (k, b')). now apply in_map.
    + assert (Hne : k <> k1).
      { intros ->. now rewrite Key_eqb_refl in E. }
      destruct Hin as [[= <- <-]|Hin].
      * left. split; auto.
      * destruct (IH Hnd' Hin) as [[Hk Hg]|[-> (b0 & -> & Hb0)]].
        -- left. auto.
        -- right. split; [reflexivity|]. exists b0. split; [reflexivity|].
           destruct Hb0 as [Hb0|[Hb0 ->]]; [auto|].
           right. split; [|reflexivity]. intros [->|H]; auto.
Qed.

Lemma groupTrips_snoc (trips : list Trip.t) (t : Trip.t) :
  groupTrips h level (trips ++ [t])
  = addTrip h (keyOf level t) t (groupTrips h level trips).
Proof. unfold groupTrips. now rewrite fold_left_app. Qed.

Lemma tripsWithKey_snoc (k : Key.t) (trips : list Trip.t) (t : Trip.t) :
  length (tripsWithKey level k (trips ++ [t]))
  = (length (tripsWithKey level k trips)
     + if Key.eqb (keyOf level t) k then 1 else 0)%nat.
Proof.
  unfold tripsWithKey. rewrite filter_app, length_app. simpl.
  now destruct (Key.eqb (keyOf level t) k).
Qed.

(** No trip has a key that heads no entry. *)
Lemma tripsWithKey_absent (k : Key.t) (trips : list Trip.t) (keys : list Key.t) :
  (forall t, In t trips -> In (keyOf level t) keys) ->
  ~ In k keys -> tripsWithKey level k trips = [].
Proof.
  intros Hc Hn. unfold tripsWithKey.
  destruct (filter _ trips) as [|x l] eqn:F; [reflexivity|].
  exfalso. assert (Hx : In x (filter (fun t0 => Key.eqb (keyOf level t0) k) trips))
    by (rewrite F; now left).
  apply filter_In in Hx as [Hx1 Hx2]. apply Key_eqb_eq in Hx2.
  apply Hn. rewrite <- Hx2. now apply Hc.
Qed.

(** The invariant of the grouping loop. *)
Lemma groupTrips_invariant (trips : list Trip.t) :
  NoDup (map fst (groupTrips h level trips))
  /\ (forall k b, In (k, b) (groupTrips h level trips) ->
        bucketKey level b = k
        /\ Bucket.demand b = Z.of_nat (length (tripsWithKey level k trips)))
  /\ (forall t, In t trips -> In (keyOf level t) (map fst (groupTrips h level trips))).
Proof.
  induction trips as [|t trips IH] using rev_ind.
  - split; [constructor|]. split; [intros k b []|intros t []].
  - destruct IH as (Hnd & Hb & Hc). rewrite groupTrips_snoc.
    set (g := groupTrips h level trips) in *. set (k := keyOf level t).
    assert (Hkeys : In k (map fst (addTrip h k t g))).
    { by_key_presence k g; [assumption|].
      rewrite map_app. apply in_or_app. right. now left. }
    split; [|split].
    + by_key_presence k g; [assumption|].
      rewrite map_app. simpl.
      apply NoDup_app; [exact Hnd | repeat constructor; auto |].
      intros a Ha [<-|[]]. auto.
    + intros k' b' Hin. rewrite tripsWithKey_snoc. fold k.
      destruct (addTrip_In k t g k' b' Hnd Hin)
        as [[Hne Hg]|[-> (b0 & -> & Hb0)]].
      * destruct (Hb k' b' Hg) as [Hk Hd]. split; [exact Hk|].
        destruct (Key.eqb k k') eqn:E; [apply Key_eqb_eq in E; congruence|].
        rewrite Hd. lia.
      * rewrite Key_eqb_refl, bucketKey_accumulate. simpl.
        destruct Hb0 as [Hg|[Hn ->]].
        -- destruct (Hb k b0 Hg) as [Hk Hd]. split; [exact Hk|]. rewrite Hd. lia.
        -- split; [apply bucketKey_fresh|].
           now rewrite (tripsWithKey_absent k trips (map fst g) Hc Hn).
    + intros t' Ht'. apply in_app_or in Ht' as [Ht'|[<-|[]]]; [|exact Hkeys].
      specialize (Hc t' Ht').
      by_key_presence k g; [assumption|].
      rewrite map_app. apply in_or_app. now left.
Qed.

Lemma totalDemand_addTrip (k : Key.t) (t : Trip.t) (g : list (Key.t * Bucket.t)) :
  totalDemand (map snd (addTrip h k t g)) = totalDemand (map snd g) + 1.
Proof.
  induction g as [|[k' b] g IH]; simpl; [reflexivity|].
  destruct (Key.eqb k k'); simpl; [|rewrite IH]; lia.
Qed.

Lemma totalDemand_groupTrips (trips : list Trip.t) :
  totalDemand (map snd (groupTrips h level trips)) = Z.of_nat (length trips).
Proof.
  induction trips as [|t trips IH] using rev_ind; [reflexivity|].
  rewrite groupTrips_snoc, totalDemand_addTrip, IH, length_app. simpl. lia.
Qed.

Lemma groupTrips_bucketKeys (trips : list Trip.t) :
  map (bucketKey level) (map snd (groupTrips h level trips))
  = map fst (groupTrips h level trips).
Proof.
  destruct (groupTrips_invariant trips) as (_ & Hb & _).
  induction (groupTrips h level trips) as [|[k b] g IH]; simpl; [reflexivity|].
  f_equal.
  - apply (Hb k b). now left.
  - apply IH. intros k' b' Hin. apply Hb. now right.
Qed.

Lemma bucketsWithKey_length (k : Key.t) (buckets : list Bucket.t) :
  length (bucketsWithKey level k buckets)
  = length (filter (fun x => Key.eqb x k) (map (bucketKey level) buckets)).
Proof.
  unfold bucketsWithKey. induction buckets as [|b l IH]; simpl; [reflexivity|].
  destruct (Key.eqb (bucketKey level b) k); simpl; now rewrite IH.
Qed.

(** C6.  [aggregateData] returns buckets in which the demand of each bucket is
    the number of trips filed under that bucket's key (date and region, with
    the hour in between when the granularity is not daily); every trip meets
    exactly one bucket with its key; and the demands add up to the number of
    trips. *)
Theorem aggregateData_demand_counts (trips : list Trip.t) (st : State) :
  processedData st = Some trips ->
  exists buckets,
    aggregateData h level st = (Ok buckets, set_aggregatedData buckets st)
    /\ (forall b, In b buckets ->
          Bucket.demand b
          = Z.of_nat (length (tripsWithKey level (bucketKey level b) trips)))
    /\ (forall t, In t trips ->
          length (bucketsWithKey level (keyOf level t) buckets) = 1%nat)
    /\ totalDemand buckets = Z.of_nat (length trips).
Proof.
  intros Hst. exists (aggregate h level trips).
  unfold aggregateData. rewrite Hst. split; [reflexivity|].
  destruct (groupTrips_invariant trips) as (Hnd & Hb & Hc).
  unfold aggregate. split; [|split].
  - intros b Hin. apply sortBy_In in Hin. apply in_map_iff in Hin as ([k b'] & E & Hin).
    simpl in E. subst b'. destruct (Hb k b Hin) as [-> Hd]. exact Hd.
  - intros t Ht. rewrite bucketsWithKey_length.
    rewrite (filter_length_perm _ _ _
               (Permutation_map (bucketKey level) (sortBy_perm byDate _))).
    rewrite groupTrips_bucketKeys. apply filter_key_once; auto.
  - rewrite (totalDemand_perm _ _ (sortBy_perm byDate _)).
    apply totalDemand_groupTrips.
Qed.

End Aggregation.

Lemma aggregateData_demand_counts_witness :
  processedData (set_processedData (exampleTrips utcHost) initial)
  = Some (exampleTrips utcHost)
  /\ exists buckets,
       aggregateData utcHost "hourly" (set_processedData (exampleTrips utcHost) initial)
       = (Ok buckets,
          set_aggregatedData buckets (set_processedData (exampleTrips utcHost) initial))
       /\ (forall b, In b buckets ->
             Bucket.demand b
             = Z.of_nat (length (tripsWithKey "hourly" (bucketKey "hourly" b)
                                   (exampleTrips utcHost))))
       /\ (forall t, In t (exampleTrips utcHost) ->
             length (bucketsWithKey "hourly" (keyOf "hourly" t) buckets) = 1%nat)
       /\ totalDemand buckets = Z.of_nat (length (exampleTrips utcHost)).
Proof.
  split; [reflexivity|].
  apply (aggregateData_demand_counts utcHost "hourly" (exampleTrips utcHost)).
  reflexivity.
Defined.

(** ** Sequence construction *)

Lemma unique_In (l : list string) (x : string) : In x (unique l) <-> In x l.
Proof.
  induction l as [|a l IH]; simpl; [tauto|].
  rewrite filter_In, IH. split.
  - intros [->|[H _]]; auto.
  - intros [->|H]; auto.
    destruct (String.eqb x a) eqn:E.
    + apply String.eqb_eq in E. auto.
    + right. split; [exact H|reflexivity].
Qed.

Lemma unique_NoDup (l : list string) : NoDup (unique l).
Proof.
  induction l as [|a l IH]; simpl; constructor.
  - rewrite filter_In. intros [_ H]. now rewrite String.eqb_refl in H.
  - now apply NoDup_filter.
Qed.

Lemma regionDataOf_In (aggregated : list Bucket.t) (r : string) (b : Bucket.t) :
  In b (regionDataOf aggregated r) <-> In b aggregated /\ Bucket.region b = r.
Proof.
  unfold regionDataOf. rewrite sortBy_In, filter_In.
  now rewrite String.eqb_eq.
Qed.

Lemma regionDataOf_length (aggregated : list Bucket.t) (r : string) :
  length (regionDataOf aggregated r) = length (filter (inRegion r) aggregated).
Proof. apply sortBy_length. Qed.

Lemma windowBuckets_length (L i : nat) (rd : list Bucket.t) :
  (L <= i)%nat -> (i <= length rd)%nat -> length (windowBuckets L i rd) = L.
Proof.
  intros H1 H2. unfold windowBuckets. rewrite length_firstn, length_skipn. lia.
Qed.



Lemma sampleAt_run (h : JS.Host) (L : nat) (rd : list Bucket.t) (c a : nat) :
  (a + c <= length rd)%nat ->
  length (flat_map (sampleAt h L rd) (seq a c)) = c
  /\ forall j t, (j < c)%nat -> nth_error rd (a + j) = Some t ->
       nth_error (flat_map (sampleAt h L rd) (seq a c)) j
       = Some (sampleOf h L rd (a + j) t).
Proof.
  revert a. induction c as [|c IH]; intros a Ha; simpl.
  - split; [reflexivity|]. intros j t Hj. lia.
  - destruct (nth_error rd a) as [t0|] eqn:E.
    2:{ apply nth_error_None in E. lia. }
    destruct (IH (S a)) as [Hlen Hnth]; [lia|].
    assert (Es : sampleAt h L rd a = [sampleOf h L rd a t0])
      by (unfold sampleAt; now rewrite E).
    rewrite Es. simpl. split; [now rewrite Hlen|].
    intros [|j] t Hj Ht.
    + rewrite Nat.add_0_r in Ht |- *. rewrite E in Ht. injection Ht as <-.
      reflexivity.
    + simpl. replace (a + S j)%nat with (S a + j)%nat in * by lia.
      apply Hnth; [lia|exact Ht].
Qed.

Lemma regionSequences_length (h : JS.Host) (L : nat) (rd : list Bucket.t) :
  length (regionSequences h L rd) = (length rd - L)%nat.
Proof.
  unfold regionSequences. destruct (length rd <=? L)%nat eqn:E.
  - apply Nat.leb_le in E. simpl. lia.
  - apply Nat.leb_gt in E. apply sampleAt_run. lia.
Qed.


Lemma regionSequences_In (h : JS.Host) (L : nat) (rd : list Bucket.t) (s : Sample.t) :
  In s (regionSequences h L rd) ->
  exists i t, (L <= i)%nat /\ nth_error rd i = Some t /\ s = sampleOf h L rd i t.
Proof.
  unfold regionSequences. destruct (length rd <=? L)%nat; [intros []|].
  intros Hin. apply in_flat_map in Hin as (i & Hi & Hs).
  apply in_seq in Hi. unfold sampleAt in Hs.
  destruct (nth_error rd i) as [t|] eqn:E; [|destruct Hs].
  destruct Hs as [<-|[]]. exists i, t. repeat split; [lia|exact E].
Qed.

Lemma collectSequences_In (h : JS.Host) (L : nat) (aggregated : list Bucket.t)
    (s : Sample.t) :
  In s (collectSequences h L aggregated) ->
  exists r i t,
    In r (map Bucket.region aggregated) /\ (L <= i)%nat
    /\ nth_error (regionDataOf aggregated r) i = Some t
    /\ s = sampleOf h L (regionDataOf aggregated r) i t.
Proof.
  unfold collectSequences. intros Hin.
  apply in_flat_map in Hin as (r & Hr & Hs).
  apply (proj1 (unique_In _ _)) in Hr.
  apply regionSequences_In in Hs as (i & t & HL & Ht & ->).
  exists r, i, t. repeat split; assumption.
Qed.





Lemma createSequences_Ok (h : JS.Host) (L : nat) (st : State)
    (aggregated : list Bucket.t) (sq : Sequences.t) :
  aggregatedData st = Some aggregated ->
  fst (createSequences h L st) = Ok sq ->
  (1 <= L)%nat
  /\ sq = {| Sequences.features :=
               map Sample.window (collectSequences h L aggregated);
             Sequences.targets :=
               map Sample.target (collectSequences h L aggregated);
             Sequences.dates :=
               map Sample.label (collectSequences h L aggregated);
             Sequences.regions := unique (map Bucket.region aggregated) |}
  /\ snd (createSequences h L st) = set_sequences sq st.
Proof.
  unfold createSequences. intros ->.
  destruct (length aggregated =? 0)%nat; [discriminate|].
  destruct (length (collectSequences h L aggregated) =? 0)%nat; [discriminate|].
  destruct (L =? 0)%nat eqn:E; [discriminate|].
  apply Nat.eqb_neq in E. simpl. intros [= <-]. split; [lia|]. split; reflexivity.
Qed.





(** ** No look-ahead *)










(** Buckets of one date keep the order in which their first trips were
    read: under hourly aggregation the window of a sample can hold an hour
    that comes after the hour of its target. *)
Remark hourly_window_order_of_arrival :
  let aggregated :=
    aggregate utcHost "hourly"
      (catMaybes (map (fun trip => orNull (processTrip utcHost (num (5 # 100)) trip))
                      unorderedRows)) in
  let regionData := regionDataOf aggregated "region_-1480_815" in
  map Bucket.hour (windowBuckets 1 1 regionData) = [14]
  /\ option_map Bucket.hour (nth_error regionData 1) = Some 12
  /\ length (collectSequences utcHost 1 aggregated) = 1%nat.
Proof.
  cbv zeta. repeat split; vm_compute; reflexivity.
Qed.

(** ** Train/test split *)

Lemma round_of_positive (x : Q) : (0 < x)%Q -> Double.round x = Double.roundPositive x.
Proof. intros Hx. unfold Double.round. now rewrite (proj1 (Qgt_alt _ _) Hx). Qed.

Lemma round_of_zero (x : Q) : (x == 0)%Q -> Double.round x = JS.Fin 0.
Proof. intros Hx. unfold Double.round. now rewrite (proj1 (Qeq_alt _ _) Hx). Qed.

(** The product that [splitData] floors, for a count below 2^53 and a
    ratio from 0 to [bound], the latter a binary64 number up to 1. *)
Lemma product_of_ratio (N : nat) (r : Q) (M f : Z) :
  Z.of_nat N < 2 ^ 53 -> (0 <= r)%Q -> (r <= inject_Z M * 2 ^ f)%Q ->
  (inject_Z M * 2 ^ f <= 1)%Q -> 0 < M < 2 ^ 53 -> Double.emin <= f <= 971 ->
  exists x,
    Double.mul (JS.ofZ (Z.of_nat N)) (JS.Fin r) = Double.round x
    /\ (0 <= x <= inject_Z (Z.of_nat N) * (inject_Z M * 2 ^ f))%Q.
Proof.
  intros HN H0 H1 Hb HM Hf. unfold Double.mul, JS.ofZ. cbn [Double.ofNumber].
  destruct (round_count (Z.of_nat N)) as (n & -> & En); [lia|].
  destruct (round_nonneg r M f H0 H1 HM Hf) as (r' & -> & Hr0 & Hr1).
  cbn [JS.mul Double.ofNumber]. exists (n * r')%Q. split; [reflexivity|].
  assert (Hn : (0 <= inject_Z (Z.of_nat N))%Q)
    by (change 0%Q with (inject_Z 0); rewrite <- Zle_Qle; lia).
  rewrite En. split.
  - now apply Qmult_le_0_compat.
  - rewrite (Qmult_comm _ r'), (Qmult_comm _ (inject_Z M * 2 ^ f)).
    now apply Qmult_le_compat_r.
Qed.

Lemma trainSizeOf_bounds (N : nat) (r : Q) :
  Z.of_nat N < 2 ^ 53 -> (0 <= r)%Q -> (r <= 1)%Q ->
  exists k, trainSizeOf N (JS.Fin r) = JS.ofZ k /\ 0 <= k <= Z.of_nat N.
Proof.
  intros HN H0 H1. unfold trainSizeOf.
  destruct (product_of_ratio N r 1 0 HN H0) as (x & -> & Hx0 & Hx1);
    [change (inject_Z 1 * 2 ^ 0)%Q with (1 * 1)%Q; lra
    |change (inject_Z 1 * 2 ^ 0)%Q with (1 * 1)%Q; lra
    |lia|unfold Double.emin; lia|].
  change (inject_Z 1 * 2 ^ 0)%Q with (1 * 1)%Q in Hx1.
  destruct (Z.eq_dec (Z.of_nat N) 0) as [E|E].
  - rewrite E in Hx1. change (inject_Z 0) with 0%Q in Hx1.
    rewrite round_of_zero by lra. exists 0. split; [reflexivity|lia].
  - destruct (round_nonneg x (Z.of_nat N) 0) as (v & -> & Hv0 & Hv1);
      [exact Hx0|change (2 ^ 0)%Q with 1%Q; lra|lia|unfold Double.emin; lia|].
    change (2 ^ 0)%Q with 1%Q in Hv1.
    apply (floor_Fin v 0 (Z.of_nat N)); [exact Hv0|lra].
Qed.

(** Every binary64 number below 1 is at most [1 - 2^-53]; a ratio that is
    at most that leaves a sample to the test set. *)
Lemma trainSizeOf_below (N : nat) (r : Q) :
  (1 <= N)%nat -> Z.of_nat N < 2 ^ 53 -> (0 <= r)%Q -> (r <= 1 - 2 ^ (-53))%Q ->
  exists k, trainSizeOf N (JS.Fin r) = JS.ofZ k /\ 0 <= k < Z.of_nat N.
Proof.
  intros H1N HN H0 H1. unfold trainSizeOf.
  assert (Eb : (inject_Z (2 ^ 53 - 1) * 2 ^ (-53) == 1 - 2 ^ (-53))%Q) by reflexivity.
  assert (H53 : (0 < 2 ^ (-53))%Q) by apply pow2_pos.
  destruct (product_of_ratio N r (2 ^ 53 - 1) (-53) HN H0) as (x & -> & Hx0 & Hx1);
    [rewrite Eb; exact H1|rewrite Eb; lra|lia|unfold Double.emin; lia|].
  rewrite Eb in Hx1.
  destruct (Qlt_le_dec 0 x) as [Hx|Hx].
  - rewrite round_of_positive by exact Hx.
    destruct (roundPositive_below x (Z.of_nat N) Hx ltac:(lia) Hx1) as (v & -> & Hv0 & Hv1).
    exists (Qfloor v). split; [reflexivity|]. split.
    + change 0 with (Qfloor 0). now apply Qfloor_resp_le.
    + rewrite Zlt_Qlt. eapply Qle_lt_trans; [apply Qfloor_le|exact Hv1].
  - rewrite round_of_zero by lra. exists 0. split; [reflexivity|lia].
Qed.

Lemma ilog2_upper (x : Q) : (0 < x)%Q -> (x < 2 ^ (Double.ilog2 x + 1))%Q.
Proof.
  intros Hx. unfold Double.ilog2.
  set (a := Z.log2 (Qnum x)). set (b := Z.log2 (Zpos (Qden x))).
  destruct (Qle_bool (2 ^ (a - b)) x) eqn:E.
  2:{ replace (a - b - 1 + 1) with (a - b) by lia.
      apply Qnot_le_lt. intros H. apply Qle_bool_iff in H. congruence. }
  assert (Hn : 0 < Qnum x).
  { destruct x as [n d]. unfold Qlt in Hx. simpl in *. lia. }
  destruct (Z.log2_spec (Qnum x) Hn) as [_ Ha]. fold a in Ha.
  destruct (Z.log2_spec (Zpos (Qden x)) (Pos2Z.is_pos _)) as [Hb _]. fold b in Hb.
  assert (Ha0 : 0 <= a) by apply Z.log2_nonneg.
  assert (Hb0 : 0 <= b) by apply Z.log2_nonneg.
  assert (Ex : (x == inject_Z (Qnum x) / inject_Z (Zpos (Qden x)))%Q).
  { destruct x as [n d]. apply Qmake_Qdiv. }
  rewrite Ex at 1. apply Qlt_shift_div_r.
  - change 0%Q with (inject_Z 0). rewrite <- Zlt_Qlt. lia.
  - apply Qlt_le_trans with (2 ^ (a - b + 1) * 2 ^ b)%Q.
    + rewrite <- pow2_plus. replace (a - b + 1 + b) with (a + 1) by lia.
      rewrite pow2_nat by lia. rewrite <- Zlt_Qlt. rewrite <- Z.add_1_r in Ha. lia.
    + apply Qmult_le_l; [apply pow2_pos|].
      rewrite pow2_nat by lia. now rewrite <- Zle_Qle.
Qed.

(** A binary64 number below 1 is at most [1 - 2^-53]. *)
Lemma double_below_one (r v : Q) :
  Double.round r = JS.Fin v -> (v == r)%Q -> (0 < r)%Q -> (r < 1)%Q ->
  (r <= 1 - 2 ^ (-53))%Q.
Proof.
  intros E Ev H0 H1. rewrite round_of_positive in E by exact H0.
  unfold Double.roundPositive in E.
  set (e := Double.exponent r) in *. set (m := Double.nearestEven (r / 2 ^ e)) in *.
  destruct (Qle_bool (2 ^ 1024) (inject_Z m * 2 ^ e)); [discriminate|].
  assert (Er : (r == inject_Z m * 2 ^ e)%Q).
  { rewrite <- Ev. assert (v = Qred (inject_Z m * 2 ^ e)) as -> by congruence.
    apply Qred_correct. }
  pose proof (pow2_pos e) as Hp.
  assert (He : e <= -53).
  { destruct (Z_le_gt_dec e (-53)) as [He|He]; [exact He|exfalso].
    assert (Hn : (2 ^ (52 + e) <= r)%Q)
      by (apply exponent_normal; [exact H0|fold e; unfold Double.emin; lia]).
    assert (Hone : (2 ^ 0 <= 2 ^ (52 + e))%Q) by (apply pow2_le; lia).
    change (2 ^ 0)%Q with 1%Q in Hone. lra. }
  assert (Hm : m <= 2 ^ 53).
  { apply nearestEven_le. apply Qle_shift_div_r; [exact Hp|].
    rewrite <- pow2_nat by lia. rewrite <- pow2_plus.
    apply Qle_trans with (2 ^ (Double.ilog2 r + 1))%Q.
    - apply Qlt_le_weak. now apply ilog2_upper.
    - apply pow2_le. unfold e, Double.exponent. lia. }
  assert (Eb : (inject_Z (2 ^ 53 - 1) * 2 ^ (-53) == 1 - 2 ^ (-53))%Q) by reflexivity.
  assert (Eh : (inject_Z (2 ^ 53) * 2 ^ (-54) == 1 # 2)%Q) by reflexivity.
  assert (E53 : (2 ^ (-53) == 1 # 9007199254740992)%Q) by reflexivity.
  destruct (Z_le_gt_dec e (-54)) as [He'|He'].
  - apply Qle_trans with (inject_Z (2 ^ 53) * 2 ^ (-54))%Q; [|rewrite Eh, E53; lra].
    rewrite Er. apply Qle_trans with (inject_Z (2 ^ 53) * 2 ^ e)%Q.
    + apply Qmult_le_compat_r; [|lra]. now rewrite <- Zle_Qle.
    + apply Qmult_le_l; [reflexivity|]. now apply pow2_le.
  - assert (e = -53) as Ee by lia. rewrite Ee in *.
    rewrite <- Eb, Er. apply Qmult_le_compat_r; [|lra].
    rewrite <- Zle_Qle.
    assert (Hlt : (inject_Z m < inject_Z (2 ^ 53))%Q).
    { apply Qmult_lt_r with (2 ^ (-53))%Q; [exact Hp|].
      rewrite <- Er. assert (Eo : (inject_Z (2 ^ 53) * 2 ^ (-53) == 1)%Q) by reflexivity.
      now rewrite Eo. }
    rewrite <- Zlt_Qlt in Hlt. lia.
Qed.

Lemma floor_shape (x : JS.number) :
  (exists k, JS.floor x = JS.ofZ k) \/ JS.floor x = JS.NaN \/ exists p, JS.floor x = JS.Inf p.
Proof. destruct x as [|p|q]; simpl; eauto. Qed.

Lemma nonNegative_ofZ (z : Z) : nonNegative (JS.ofZ z) = (0 <=? z).
Proof.
  unfold nonNegative, JS.ofZ.
  destruct (Z.leb_spec 0 z) as [H|H].
  - apply Qle_bool_iff. change 0%Q with (inject_Z 0). now rewrite <- Zle_Qle.
  - destruct (Qle_bool 0 (inject_Z z)) eqn:E; [|reflexivity].
    apply Qle_bool_iff in E. change 0%Q with (inject_Z 0) in E.
    rewrite <- Zle_Qle in E. lia.
Qed.

Lemma isMinusOne_ofZ (z : Z) : isMinusOne (JS.ofZ z) = (z =? -1).
Proof.
  unfold isMinusOne, JS.ofZ.
  destruct (Z.eqb_spec z (-1)) as [->|H]; [reflexivity|].
  destruct (Qeq_bool (inject_Z z) (-1)) eqn:E; [|reflexivity].
  apply Qeq_bool_iff in E. change (-1)%Q with (inject_Z (-1)) in E.
  apply (proj1 (inject_Z_injective _ _)) in E. contradiction.
Qed.

Lemma asIndex_ofZ (z : Z) (bound : nat) :
  0 <= z <= Z.of_nat bound -> asIndex (JS.ofZ z) bound = Some (Z.to_nat z).
Proof.
  intros [H0 H1]. unfold asIndex, JS.ofZ. rewrite Qfloor_Z.
  rewrite (proj2 (Qeq_bool_iff _ _) (Qeq_refl _)).
  now rewrite (proj2 (Z.leb_le _ _) H0), (proj2 (Z.leb_le _ _) H1).
Qed.

Lemma asIndex_beyond (z : Z) (bound : nat) :
  Z.of_nat bound < z -> asIndex (JS.ofZ z) bound = None.
Proof.
  intros H. unfold asIndex, JS.ofZ. rewrite Qfloor_Z.
  rewrite (proj2 (Z.leb_gt _ _) H). now rewrite andb_false_r.
Qed.

Lemma sliceFront_ofZ {A : Type} (z : Z) (t : list A) :
  0 <= z <= Z.of_nat (length t) ->
  sliceFront (JS.ofZ z) t = Ok (firstn (Z.to_nat z) t).
Proof.
  intros Hz. unfold sliceFront. rewrite nonNegative_ofZ.
  rewrite (proj2 (Z.leb_le _ _) (proj1 Hz)). now rewrite (asIndex_ofZ z _ Hz).
Qed.

Lemma sliceBack_ofZ {A : Type} (z : Z) (t : list A) :
  0 <= z <= Z.of_nat (length t) ->
  sliceBack (JS.ofZ z) t = Ok (skipn (Z.to_nat z) t).
Proof.
  intros Hz. unfold sliceBack. rewrite isMinusOne_ofZ.
  destruct (Z.eqb_spec z (-1)) as [E|_]; [lia|]. now rewrite (asIndex_ofZ z _ Hz).
Qed.

Lemma arraySlice_ofZ {A : Type} (z : Z) (l : list A) :
  0 <= z -> arraySlice (JS.ofZ z) l = skipn (Z.to_nat z) l.
Proof.
  intros Hz. unfold arraySlice, JS.ofZ.
  assert (E : Qle_bool 0 (inject_Z z) = true).
  { apply Qle_bool_iff. change 0%Q with (inject_Z 0). now rewrite <- Zle_Qle. }
  rewrite E, Qfloor_Z. rewrite (proj2 (Z.ltb_ge _ _) Hz).
  destruct (Z_le_gt_dec z (Z.of_nat (length l))) as [H|H].
  - now rewrite Z.min_l by lia.
  - rewrite Z.min_r, Nat2Z.id by lia. rewrite !skipn_all2; [reflexivity|lia|lia].
Qed.

(** What [splitData] returns and stores when the train size is within the
    samples. *)
Lemma splitData_in_range (st : State) (sq : Sequences.t) (ratio : JS.number) (k : Z) :
  sequences st = Some sq ->
  length (Sequences.targets sq) = length (Sequences.features sq) ->
  trainSizeOf (length (Sequences.features sq)) ratio = JS.ofZ k ->
  0 <= k <= Z.of_nat (length (Sequences.features sq)) ->
  let n := Z.to_nat k in
  let fs := createScaler (flatten3 (firstn n (Sequences.features sq))) in
  let ts := createScaler (firstn n (Sequences.targets sq)) in
  let tr := {| TrainData.features :=
                 map3 (Scaler.normalize1 fs) (firstn n (Sequences.features sq));
               TrainData.targets :=
                 map (Scaler.normalize1 ts) (firstn n (Sequences.targets sq)) |} in
  let te := {| TestData.features :=
                 map3 (Scaler.normalize1 fs) (skipn n (Sequences.features sq));
               TestData.targets :=
                 map (Scaler.normalize1 ts) (skipn n (Sequences.targets sq));
               TestData.dates := skipn n (Sequences.dates sq);
               TestData.originalTargets := skipn n (Sequences.targets sq) |} in
  splitData ratio st
  = (Ok {| Split.train := tr; Split.test := te;
           Split.featureCount := shape2 (Sequences.features sq);
           Split.sequenceLength := shape1 (Sequences.features sq) |},
     set_split fs ts tr te st).
Proof.
  intros Hsq Ht Ek Hz. cbv zeta. unfold splitData. rewrite Hsq.
  unfold trainSizeOf in Ek. rewrite Ek.
  rewrite !sliceFront_ofZ, !sliceBack_ofZ by (rewrite ?Ht; exact Hz).
  cbn [bind]. rewrite arraySlice_ofZ by lia. reflexivity.
Qed.

(** C2, as the code has it.  On a Sequence of [N] samples, [N] below 2^53,
    and a ratio [0 < r < 1], [splitData] takes as [trainSize] the floor of
    the binary64 product of [N] and the ratio, a count from 0 to [N]; the
    first [trainSize] samples are the train set and the others, in their
    order, the test set; the feature and the target scaler are fitted on the
    train slices alone, and each normalizes both its train and its test
    slice by [(x - min) / (max - min)]; [originalTargets] is the target slice
    from [trainSize] on, untouched.  With 100 samples and ratio 0.8 the
    sizes are 80 and 20. *)
Theorem splitData_partition (st : State) (sq : Sequences.t) (r : Q) :
  sequences st = Some sq ->
  length (Sequences.targets sq) = length (Sequences.features sq) ->
  length (Sequences.dates sq) = length (Sequences.features sq) ->
  (0 < r)%Q -> (r < 1)%Q ->
  let N := length (Sequences.features sq) in
  Z.of_nat N < 2 ^ 53 ->
  exists (trainSize : nat) (split : Split.t),
    let fs := createScaler (flatten3 (firstn trainSize (Sequences.features sq))) in
    let ts := createScaler (firstn trainSize (Sequences.targets sq)) in
    JS.floor (Double.mul (JS.ofZ (Z.of_nat N)) (JS.Fin r)) = JS.ofZ (Z.of_nat trainSize)
    /\ splitData (JS.Fin r) st
       = (Ok split, set_split fs ts (Split.train split) (Split.test split) st)
    /\ (trainSize <= N)%nat
    /\ TrainData.features (Split.train split)
       = map3 (Scaler.normalize1 fs) (firstn trainSize (Sequences.features sq))
    /\ TrainData.targets (Split.train split)
       = map (Scaler.normalize1 ts) (firstn trainSize (Sequences.targets sq))
    /\ TestData.features (Split.test split)
       = map3 (Scaler.normalize1 fs) (skipn trainSize (Sequences.features sq))
    /\ TestData.targets (Split.test split)
       = map (Scaler.normalize1 ts) (skipn trainSize (Sequences.targets sq))
    /\ TestData.dates (Split.test split) = skipn trainSize (Sequences.dates sq)
    /\ TestData.originalTargets (Split.test split)
       = skipn trainSize (Sequences.targets sq)
    /\ Scaler.min fs = reduceMin (flatten3 (firstn trainSize (Sequences.features sq)))
    /\ Scaler.max fs = reduceMax (flatten3 (firstn trainSize (Sequences.features sq)))
    /\ Scaler.min ts = reduceMin (firstn trainSize (Sequences.targets sq))
    /\ Scaler.max ts = reduceMax (firstn trainSize (Sequences.targets sq))
    /\ (forall s x,
          Scaler.normalize1 s x
          = JS.div (JS.sub x (Scaler.min s)) (JS.sub (Scaler.max s) (Scaler.min s)))
    /\ length (TrainData.features (Split.train split)) = trainSize
    /\ length (TestData.features (Split.test split)) = (N - trainSize)%nat
    /\ length (TestData.originalTargets (Split.test split)) = (N - trainSize)%nat
    /\ firstn trainSize (Sequences.features sq) ++ skipn trainSize (Sequences.features sq)
       = Sequences.features sq
    /\ firstn trainSize (Sequences.targets sq) ++ skipn trainSize (Sequences.targets sq)
       = Sequences.targets sq
    /\ (N = 100%nat -> r = (4 # 5)%Q -> trainSize = 80%nat /\ (N - trainSize)%nat = 20%nat).
Proof.
  intros Hsq Ht Hd H0 H1 N HN.
  destruct (trainSizeOf_bounds N r HN) as (k & Ek & Hk); [lra|lra|].
  exists (Z.to_nat k).
  pose proof (splitData_in_range st sq (JS.Fin r) k Hsq Ht Ek Hk) as Hs.
  cbv zeta in Hs. eexists. cbv zeta.
  split; [unfold trainSizeOf in Ek; rewrite Ek, Z2Nat.id by lia; reflexivity|].
  split; [exact Hs|]. split; [fold N in Hk; lia|].
  cbn [Split.train Split.test TrainData.features TrainData.targets
       TestData.features TestData.targets TestData.dates TestData.originalTargets].
  do 11 (split; [reflexivity|]).
  split; [unfold map3; rewrite length_map, length_firstn; fold N in Hk |- *; lia|].
  split; [unfold map3; rewrite length_map, length_skipn; reflexivity|].
  split; [rewrite length_skipn, Ht; reflexivity|].
  split; [apply firstn_skipn|]. split; [apply firstn_skipn|].
  intros HN100 Hr.
  assert (E80 : trainSizeOf 100 (JS.Fin (4 # 5)) = JS.ofZ 80) by (vm_compute; reflexivity).
  fold N in Ek. rewrite HN100, Hr, E80 in Ek. apply ofZ_inj in Ek. subst k.
  rewrite HN100. split; reflexivity.
Qed.

(** Where the floor of the real product is another: three samples and the
    binary64 number 0.3333333333333333, whose product with 3 is below 1 and
    rounds to 1; and 90 times the number 0.7 stands for, which is below
    63. *)
Lemma splitData_rounding_counterexample :
  sequences (exampleState utcHost) = Some (exampleSequences utcHost)
  /\ length (Sequences.features (exampleSequences utcHost)) = 3%nat
  /\ (0 < double_0_3333333333333333)%Q /\ (double_0_3333333333333333 < 1)%Q
  /\ Double.round double_0_3333333333333333 = JS.Fin double_0_3333333333333333
  /\ Qfloor (inject_Z 3 * double_0_3333333333333333) = 0
  /\ (exists split,
        fst (splitData (JS.Fin double_0_3333333333333333) (exampleState utcHost))
        = Ok split
        /\ length (TrainData.features (Split.train split)) = 1%nat)
  /\ trainSizeOf 90 (JS.Fin (7 # 10)) = JS.ofZ 62
  /\ Qfloor (inject_Z 90 * (7 # 10)) = 63.
Proof.
  assert (E : trainSizeOf 3 (JS.Fin double_0_3333333333333333) = JS.ofZ 1)
    by (vm_compute; reflexivity).
  assert (Hsq : sequences (exampleState utcHost) = Some (exampleSequences utcHost))
    by reflexivity.
  assert (HN : length (Sequences.features (exampleSequences utcHost)) = 3%nat)
    by (vm_compute; reflexivity).
  assert (Ht : length (Sequences.targets (exampleSequences utcHost))
               = length (Sequences.features (exampleSequences utcHost)))
    by (vm_compute; reflexivity).
  split; [exact Hsq|]. split; [exact HN|].
  do 4 (split; [vm_compute; reflexivity|]).
  split.
  - rewrite <- HN in E.
    rewrite (splitData_in_range _ _ _ 1 Hsq Ht E) by (rewrite HN; lia).
    eexists. split; [reflexivity|].
    cbn [Split.train TrainData.features]. unfold map3.
    rewrite length_map, length_firstn, HN. reflexivity.
  - split; vm_compute; reflexivity.
Qed.

(** Scenario D in binary64 arithmetic: [100 * 0.8] is 80. *)
Remark scenario_D_binary64 :
  Float64.floor (Float64.mul (Float64.ofZ 100) (Float64.decimal 8 1)) = Some 80
  /\ Float64.mul (Float64.ofZ 100) (Float64.decimal 8 1) = Float64.ofZ 80.
Proof.
  split; vm_compute; reflexivity.
Qed.

Lemma splitData_partition_witness :
  sequences (exampleState utcHost) = Some (exampleSequences utcHost)
  /\ (0 < 4 # 5)%Q /\ (4 # 5 < 1)%Q
  /\ exists split,
       fst (splitData (JS.Fin (4 # 5)) (exampleState utcHost)) = Ok split
       /\ length (TrainData.features (Split.train split)) = 2%nat
       /\ TestData.originalTargets (Split.test split) = [JS.ofZ 3].
Proof.
  assert (Hsq : sequences (exampleState utcHost) = Some (exampleSequences utcHost))
    by reflexivity.
  assert (HN : length (Sequences.features (exampleSequences utcHost)) = 3%nat)
    by (vm_compute; reflexivity).
  assert (Ht : length (Sequences.targets (exampleSequences utcHost))
               = length (Sequences.features (exampleSequences utcHost)))
    by (vm_compute; reflexivity).
  assert (Hd : length (Sequences.dates (exampleSequences utcHost))
               = length (Sequences.features (exampleSequences utcHost)))
    by (vm_compute; reflexivity).
  split; [exact Hsq|]. split; [reflexivity|]. split; [reflexivity|].
  destruct (splitData_partition (exampleState utcHost) (exampleSequences utcHost)
              (4 # 5) Hsq Ht Hd eq_refl eq_refl ltac:(rewrite HN; reflexivity))
    as (trainSize & split & Hk & Hs & _ & _ & _ & _ & _ & _ & Ho & _).
  cbv zeta in Hk, Hs, Ho.
  assert (E2 : trainSizeOf 3 (JS.Fin (4 # 5)) = JS.ofZ 2) by (vm_compute; reflexivity).
  unfold trainSizeOf in E2. rewrite HN, E2 in Hk. apply ofZ_inj in Hk.
  assert (Hk2 : trainSize = 2%nat) by lia. subst trainSize.
  exists split. split; [now rewrite Hs|].
  assert (Hl : TestData.originalTargets (Split.test split) = [JS.ofZ 3])
    by (rewrite Ho; vm_compute; reflexivity).
  split; [|exact Hl].
  rewrite (surjective_pairing (splitData (JS.Fin (4 # 5)) (exampleState utcHost))) in Hs.
  vm_compute in Hs. injection Hs as Hs _. rewrite <- Hs. reflexivity.
Defined.

(** ** Row validation *)

Lemma isValid_iff (h : JS.Host) (row : Row.t) :
  isValid h row = true
  <-> JS.ToBoolean (Row.pickup_datetime row) = true
      /\ JS.ToBoolean (Row.pickup_longitude row) = true
      /\ JS.ToBoolean (Row.pickup_latitude row) = true
      /\ JS.isNaN_value h (Row.pickup_longitude row) = false
      /\ JS.isNaN_value h (Row.pickup_latitude row) = false.
Proof.
  unfold isValid. rewrite !andb_true_iff, !negb_true_iff. tauto.
Qed.

Lemma ToBoolean_num (q : Q) : JS.ToBoolean (num q) = true <-> ~ (q == 0)%Q.
Proof.
  unfold num, JS.ToBoolean, JS.Qis_zero. rewrite negb_true_iff. split.
  - intros E. now apply Qeq_bool_neq.
  - intros Hn. destruct (Qeq_bool q 0) eqn:E; [|reflexivity].
    now apply Qeq_bool_iff in E.
Qed.

(** C7, as the code has it.  From a non-empty decoded list [loadRawCSV]
    retains, in their order, exactly the rows whose timestamp, longitude and
    latitude are all truthy (not missing, not empty, not zero) and whose
    longitude and latitude do not convert to NaN; whether the timestamp can
    be parsed plays no part, so that a row with numeric coordinates is kept
    exactly when both are non-zero and its timestamp is truthy.  When no row
    is retained it fails with the message that names the three required
    columns. *)
Theorem loadRawCSV_retains_truthy (h : JS.Host) (data : list Row.t) (st : State) :
  data <> [] ->
  let valid := filter (isValid h) data in
  (forall row, In row valid <->
     In row data
     /\ JS.ToBoolean (Row.pickup_datetime row) = true
     /\ JS.ToBoolean (Row.pickup_longitude row) = true
     /\ JS.ToBoolean (Row.pickup_latitude row) = true
     /\ JS.isNaN_value h (Row.pickup_longitude row) = false
     /\ JS.isNaN_value h (Row.pickup_latitude row) = false)
  /\ (forall row lon lat,
        In row data ->
        Row.pickup_longitude row = num lon -> Row.pickup_latitude row = num lat ->
        (In row valid <->
           JS.ToBoolean (Row.pickup_datetime row) = true
           /\ ~ (lon == 0)%Q /\ ~ (lat == 0)%Q))
  /\ (valid <> [] ->
        loadRawCSV h (Complete data) st = (Ok valid, set_rawData valid st))
  /\ (valid = [] ->
        loadRawCSV h (Complete data) st
        = (Throw (Error noValidRecordsMessage), set_rawData [] st))
  /\ mentions "pickup_datetime" noValidRecordsMessage = true
  /\ mentions "pickup_longitude" noValidRecordsMessage = true
  /\ mentions "pickup_latitude" noValidRecordsMessage = true.
Proof.
  intros Hdata valid.
  assert (Hlen : (length data =? 0)%nat = false).
  { apply Nat.eqb_neq. destruct data; [congruence|discriminate]. }
  split; [|split; [|split; [|split]]].
  - intros row. unfold valid. now rewrite filter_In, isValid_iff.
  - intros row lon lat Hin Hlon Hlat. unfold valid.
    rewrite filter_In, isValid_iff, Hlon, Hlat, !ToBoolean_num.
    unfold JS.isNaN_value, num. simpl. tauto.
  - intros Hv. unfold loadRawCSV. rewrite Hlen. fold valid.
    destruct valid; [congruence|reflexivity].
  - intros Hv. unfold loadRawCSV. rewrite Hlen. fold valid. now rewrite Hv.
  - repeat split; reflexivity.
Qed.

Lemma loadRawCSV_retains_truthy_witness :
  exampleRows <> []
  /\ loadRawCSV utcHost (Complete exampleRows) initial
     = (Ok exampleRows, set_rawData exampleRows initial).
Proof.
  assert (Hne : exampleRows <> []) by discriminate.
  split; [exact Hne|].
  destruct (loadRawCSV_retains_truthy utcHost exampleRows initial Hne)
    as (_ & _ & H & _).
  apply H. discriminate.
Defined.

(** C7 as stated fails both ways: rows whose timestamp cannot be parsed are
    retained, and a row with a parseable timestamp and numeric coordinates,
    one of them 0, is dropped.  A decoded list without rows fails with a
    message that names no column. *)
Lemma loadRawCSV_counterexample :
  fst (loadRawCSV utcHost (Complete [textRow; invalidDateRow; meridianRow]) initial)
  = Ok [textRow; invalidDateRow]
  /\ Time.newDate utcHost (Row.pickup_datetime textRow) = None
  /\ Time.newDate utcHost (Row.pickup_datetime invalidDateRow) = None
  /\ Time.newDate utcHost (Row.pickup_datetime meridianRow) = Some (noonOf 0)
  /\ Row.pickup_longitude meridianRow = num 0
  /\ Row.pickup_latitude meridianRow = num (5148 # 100)
  /\ fst (loadRawCSV utcHost (Complete []) initial) = Throw (Error emptyFileMessage)
  /\ mentions "pickup_datetime" emptyFileMessage = false.
Proof.
  repeat split; reflexivity.
Qed.

(** ** Trip records *)

Lemma catMaybes_In {A B : Type} (f : A -> option B) (l : list A) (b : B) :
  In b (catMaybes (map f l)) <-> exists a, In a l /\ f a = Some b.
Proof.
  induction l as [|a l IH]; simpl.
  - split; [intros []|intros (a & [] & _)].
  - destruct (f a) as [b'|] eqn:E; simpl; rewrite IH; split.
    + intros [<-|(a' & Ha & Hf)]; eauto.
    + intros (a' & [<-|Ha] & Hf); [left; congruence|eauto].
    + intros (a' & Ha & Hf); eauto.
    + intros (a' & [<-|Ha] & Hf); [congruence|eauto].
Qed.

Lemma orNull_Some {A : Type} (r : result A) (a : A) : orNull r = Some a <-> r = Ok a.
Proof.
  destruct r; simpl; split; congruence.
Qed.

Lemma processRawData_Ok (h : JS.Host) (level : string) (rs : JS.value) (st : State)
    (rows : list Row.t) (trips : list Trip.t) :
  rawData st = Some rows ->
  fst (processRawData h level rs st) = Ok trips ->
  trips = catMaybes (map (fun trip => orNull (processTrip h rs trip)) rows).
Proof.
  unfold processRawData. intros ->.
  destruct (length rows =? 0)%nat; [discriminate|]. simpl. congruence.
Qed.

Lemma processTrip_passenger_count (h : JS.Host) (rs : JS.value) (row : Row.t) (trip : Trip.t) :
  processTrip h rs row = Ok trip ->
  Trip.passenger_count trip
  = JS.or_else (Row.passenger_count row) (JS.VNumber (JS.ofZ 1)).
Proof.
  unfold processTrip. destruct (Time.newDate h (Row.pickup_datetime row)); [|discriminate].
  now intros [= <-].
Qed.

(** C9, as the code has it.  The passenger count of a TripRecord is the raw
    row's [passenger_count] when that value is truthy and 1 otherwise: an
    absent, null, empty or zero count becomes 1, and a count that is a
    number at least 1 is kept, so that in both cases the record's count is
    at least 1.  Any other truthy count is kept as it is. *)
Theorem processRawData_passenger_default (h : JS.Host) (level : string)
    (rs : JS.value) (st : State) (rows : list Row.t) (trips : list Trip.t) :
  rawData st = Some rows ->
  fst (processRawData h level rs st) = Ok trips ->
  forall trip, In trip trips ->
    exists row,
      In row rows /\ processTrip h rs row = Ok trip
      /\ Trip.passenger_count trip
         = JS.or_else (Row.passenger_count row) (JS.VNumber (JS.ofZ 1))
      /\ (Row.passenger_count row = JS.VUndefined ->
            Trip.passenger_count trip = JS.VNumber (JS.ofZ 1))
      /\ (JS.ToBoolean (Row.passenger_count row) = false ->
            Trip.passenger_count trip = JS.VNumber (JS.ofZ 1))
      /\ (JS.ToBoolean (Row.passenger_count row) = true ->
            Trip.passenger_count trip = Row.passenger_count row)
      /\ (forall q, Row.passenger_count row = num q -> (1 <= q)%Q ->
            Trip.passenger_count trip = num q)
      /\ ((Row.passenger_count row = JS.VUndefined
           \/ Row.passenger_count row = JS.VNull
           \/ exists q, Row.passenger_count row = num q /\ ((q == 0)%Q \/ (1 <= q)%Q)) ->
            exists q, Trip.passenger_count trip = num q /\ (1 <= q)%Q).
Proof.
  intros Hraw Hok trip Hin.
  rewrite (processRawData_Ok h level rs st rows trips Hraw Hok) in Hin.
  apply catMaybes_In in Hin as (row & Hrow & Hp). apply orNull_Some in Hp.
  exists row. split; [exact Hrow|]. split; [exact Hp|].
  pose proof (processTrip_passenger_count h rs row trip Hp) as E.
  assert (Hge : forall q, (1 <= q)%Q -> JS.ToBoolean (num q) = true).
  { intros q Hq. apply ToBoolean_num. intros E0. rewrite E0 in Hq.
    unfold Qle in Hq. simpl in Hq. lia. }
  split; [exact E|]. rewrite E. unfold JS.or_else. repeat split.
  - now intros ->.
  - now intros ->.
  - now intros ->.
  - intros q -> Hq. now rewrite Hge.
  - intros [->|[->|(q & -> & [Hq|Hq])]].
    + exists 1%Q. split; [reflexivity|discriminate].
    + exists 1%Q. split; [reflexivity|discriminate].
    + exists 1%Q. split; [|discriminate].
      destruct (JS.ToBoolean (num q)) eqn:T; [|reflexivity].
      apply ToBoolean_num in T. contradiction.
    + exists q. split; [now rewrite Hge|exact Hq].
Qed.

Lemma processRawData_passenger_default_witness :
  rawData (set_rawData exampleRows initial) = Some exampleRows
  /\ fst (processRawData utcHost "daily" (num (5 # 100)) (set_rawData exampleRows initial))
     = Ok (exampleTrips utcHost)
  /\ forall trip, In trip (exampleTrips utcHost) ->
       exists row,
         In row exampleRows
         /\ Trip.passenger_count trip
            = JS.or_else (Row.passenger_count row) (JS.VNumber (JS.ofZ 1)).
Proof.
  split; [reflexivity|]. split; [reflexivity|].
  intros trip Hin.
  destruct (processRawData_passenger_default utcHost "daily" (num (5 # 100))
              (set_rawData exampleRows initial) exampleRows (exampleTrips utcHost)
              eq_refl eq_refl trip Hin) as (row & Hrow & _ & E & _).
  exists row. split; [exact Hrow|exact E].
Defined.

(** C9 as stated fails on a row whose passenger count is -2: the count is
    truthy, so it is kept. *)
Lemma passenger_count_counterexample :
  exists trip,
    fst (processRawData utcHost "daily" (num (5 # 100))
           (set_rawData [negativeCountRow] initial)) = Ok [trip]
    /\ Trip.passenger_count trip = num (-2)
    /\ ~ (1 <= -2)%Q.
Proof.
  eexists. split; [vm_compute; reflexivity|].
  split; [reflexivity|]. intros H. unfold Qle in H. simpl in H. lia.
Qed.

Lemma processTrip_Ok_iff (h : JS.Host) (rs : JS.value) (row : Row.t) :
  (exists trip, processTrip h rs row = Ok trip)
  <-> isValidDate (Time.newDate h (Row.pickup_datetime row)) = true.
Proof.
  unfold processTrip.
  destruct (Time.newDate h (Row.pickup_datetime row)); simpl; split.
  - reflexivity.
  - intros _. eexists. reflexivity.
  - intros [trip H]. discriminate.
  - discriminate.
Qed.

Lemma processTrips_convertible (h : JS.Host) (rs : JS.value) (rows : list Row.t) :
  Forall2 (fun row trip => processTrip h rs row = Ok trip)
    (convertible h rows)
    (catMaybes (map (fun trip => orNull (processTrip h rs trip)) rows)).
Proof.
  unfold convertible. induction rows as [|row rows IH]; simpl; [constructor|].
  unfold processTrip at 2.
  destruct (Time.newDate h (Row.pickup_datetime row)) as [t|] eqn:E; simpl.
  - constructor; [|exact IH]. unfold processTrip. now rewrite E.
  - exact IH.
Qed.

(** C10.  On loaded rows [processRawData] returns: a row whose
    [pickup_datetime] does not convert to a valid Date raises in the [try]
    block, is mapped to null and filtered out; each other row yields one
    TripRecord, in the order of the rows; so there are as many TripRecords
    as rows whose timestamp converts. *)
Theorem processRawData_skips_invalid_dates (h : JS.Host) (level : string)
    (rs : JS.value) (st : State) (rows : list Row.t) :
  rawData st = Some rows -> rows <> [] ->
  exists trips,
    processRawData h level rs st = (Ok trips, set_processedData trips st)
    /\ length trips = length (convertible h rows)
    /\ Forall2 (fun row trip => processTrip h rs row = Ok trip) (convertible h rows) trips
    /\ (forall row, In row rows ->
          Time.newDate h (Row.pickup_datetime row) = None ->
          processTrip h rs row = Throw (RangeError "Invalid time value")
          /\ orNull (processTrip h rs row) = None)
    /\ (forall row, In row rows ->
          Time.newDate h (Row.pickup_datetime row) <> None ->
          exists trip, processTrip h rs row = Ok trip /\ In trip trips).
Proof.
  intros Hraw Hne.
  exists (catMaybes (map (fun trip => orNull (processTrip h rs trip)) rows)).
  split; [|split; [|split; [|split]]].
  - unfold processRawData. rewrite Hraw.
    destruct rows; [congruence|reflexivity].
  - symmetry. eapply Forall2_length. apply processTrips_convertible.
  - apply processTrips_convertible.
  - intros row _ E. unfold processTrip. now rewrite E.
  - intros row Hin E.
    destruct (proj2 (processTrip_Ok_iff h rs row)) as [trip Ht].
    { destruct (Time.newDate h (Row.pickup_datetime row)); [reflexivity|congruence]. }
    exists trip. split; [exact Ht|]. apply catMaybes_In.
    exists row. split; [exact Hin|]. now apply orNull_Some.
Qed.

Lemma processRawData_skips_invalid_dates_witness :
  rawData (set_rawData [textRow; negativeCountRow; invalidDateRow] initial)
  = Some [textRow; negativeCountRow; invalidDateRow]
  /\ [textRow; negativeCountRow; invalidDateRow] <> []
  /\ exists trips,
       processRawData utcHost "daily" (num (5 # 100))
         (set_rawData [textRow; negativeCountRow; invalidDateRow] initial)
       = (Ok trips,
          set_processedData trips
            (set_rawData [textRow; negativeCountRow; invalidDateRow] initial))
       /\ length trips = 1%nat.
Proof.
  split; [reflexivity|].
  assert (Hne : [textRow; negativeCountRow; invalidDateRow] <> []) by discriminate.
  split; [exact Hne|].
  destruct (processRawData_skips_invalid_dates utcHost "daily" (num (5 # 100))
              (set_rawData [textRow; negativeCountRow; invalidDateRow] initial)
              [textRow; negativeCountRow; invalidDateRow] eq_refl Hne)
    as (trips & Hp & Hl & _).
  exists trips. split; [exact Hp|]. rewrite Hl. reflexivity.
Defined.

(** ** Future windows *)

Lemma mapM_Ok {A B : Type} (f : A -> result B) (g : A -> B) (l : list A) :
  (forall a, In a l -> f a = Ok (g a)) -> mapM f l = Ok (map g l).
Proof.
  induction l as [|a l IH]; simpl; intros H; [reflexivity|].
  rewrite (H a) by auto. simpl. rewrite IH by auto. reflexivity.
Qed.

Lemma catMaybes_map_if {A B : Type} (p : A -> bool) (g : A -> B) (l : list A) :
  catMaybes (map (fun a => if p a then Some (g a) else None) l) = map g (filter p l).
Proof.
  induction l as [|a l IH]; simpl; [reflexivity|].
  destruct (p a); simpl; now rewrite IH.
Qed.

Lemma setDatePlus_constant (h : JS.Host) (c t i : Z) :
  (forall u b, JS.LocalTZA h u b = c) ->
  Z.abs (t + i * Time.msPerDay) <= Time.maxTime ->
  Time.setDatePlus h t i = Some (t + i * Time.msPerDay).
Proof.
  intros Hc Hr. unfold Time.setDatePlus, Time.UTC, Time.LocalTime. rewrite !Hc.
  replace (t + c + i * Time.msPerDay - c) with (t + i * Time.msPerDay) by lia.
  now rewrite (proj2 (Z.leb_le _ _) Hr).
Qed.

Lemma futureLabel_constant (h : JS.Host) (c d : Z) (r : string) (i : nat) :
  (forall u b, JS.LocalTZA h u b = c) ->
  Z.abs d + Z.of_nat i <= 100000000 ->
  futureLabel h (Time.newDateOfDay d) r i
  = Ok {| Label.date := d + Z.of_nat i; Label.region := r |}.
Proof.
  intros Hc Hr. unfold futureLabel, Time.newDateOfDay.
  rewrite (setDatePlus_constant h c) by
    (try exact Hc; unfold Time.msPerDay, Time.maxTime; lia).
  unfold Time.Day. rewrite <- Z.mul_add_distr_r, Z.div_mul; [reflexivity|].
  unfold Time.msPerDay. lia.
Qed.

(** X10.  In a host whose local offset never changes, [generateFutureSequence]
    gives every region with at least [sequenceLength] buckets one window,
    that of its most recent [sequenceLength] buckets, normalized with the
    fitted feature scaler, and [daysToPredict] labels dated from the day
    after the last aggregated date on; it throws when no region has enough
    buckets. *)
Lemma generateFutureSequence_constant_offset (h : JS.Host) (c : Z) (st : State)
    (aggregated : list Bucket.t) (sq : Sequences.t) (fs : Scaler.t)
    (lastBucket : Bucket.t) (daysToPredict : nat) :
  (forall u b, JS.LocalTZA h u b = c) ->
  aggregatedData st = Some aggregated ->
  sequences st = Some sq ->
  featureScaler st = Some fs ->
  lastOf aggregated = Some lastBucket ->
  Z.abs (Bucket.date lastBucket) + Z.of_nat daysToPredict <= 100000000 ->
  let L := shape1 (Sequences.features sq) in
  (1 <= L)%nat ->
  let qualifying :=
    filter (fun r => negb (length (regionDataOf aggregated r) <? L)%nat)
           (Sequences.regions sq) in
  generateFutureSequence h daysToPredict st
  = (if (length qualifying =? 0)%nat
     then Throw (Error "Could not generate future sequences")
     else Ok {| Future.features :=
                  map3 (Scaler.normalize1 fs)
                    (map (fun r =>
                            map (featureVector h)
                              (skipn (length (regionDataOf aggregated r) - L)
                                 (regionDataOf aggregated r)))
                         qualifying);
                Future.dates :=
                  flat_map (fun r =>
                              map (fun i => {| Label.date :=
                                                 Bucket.date lastBucket + Z.of_nat i;
                                               Label.region := r |})
                                  (seq 1 daysToPredict))
                           qualifying |},
     st).
Proof.
  intros Hc Hagg Hsq Hfs Hlast Hr L HL qualifying.
  unfold generateFutureSequence. rewrite Hagg, Hsq, Hlast. fold L.
  rewrite (mapM_Ok _
             (fun r =>
                if negb (length (regionDataOf aggregated r) <? L)%nat
                then Some (map (featureVector h)
                             (skipn (length (regionDataOf aggregated r) - L)
                                (regionDataOf aggregated r)),
                           map (fun i => {| Label.date :=
                                              Bucket.date lastBucket + Z.of_nat i;
                                            Label.region := r |})
                               (seq 1 daysToPredict))
                else None)).
  2:{ intros r _. unfold futureOfRegion.
      destruct (length (regionDataOf aggregated r) <? L)%nat; [reflexivity|].
      rewrite (mapM_Ok _ (fun i => {| Label.date := Bucket.date lastBucket + Z.of_nat i;
                                      Label.region := r |})).
      - simpl. unfold sliceLast. destruct L; [lia|reflexivity].
      - intros i Hi. apply in_seq in Hi. apply (futureLabel_constant h c); [exact Hc|lia]. }
  rewrite catMaybes_map_if. fold qualifying. rewrite !map_map. simpl.
  rewrite length_map.
  destruct (length qualifying =? 0)%nat; [reflexivity|].
  rewrite Hfs. rewrite <- flat_map_concat_map. reflexivity.
Qed.

(** C8 at a host in the Europe/Berlin zone.  The example's last aggregated
    date is 2024-03-28 (day 19810) and summer time begins on 2024-03-31.
    The one region with two buckets or more gets its window and seven
    labels, but the labels are dated +1, +2, +3, +3, +4, +5, +6: the fourth
    local midnight-plus-one-hour falls on the previous UTC day.  The same
    rows at a host in the UTC zone are dated +1 .. +7. *)
Theorem generateFutureSequence_summer_time_labels :
  exists future lastBucket,
    fst (forecastRun berlinHost exampleRows) = Ok future
    /\ option_map (@lastOf Bucket.t) (aggregatedData (snd (forecastRun berlinHost exampleRows)))
       = Some (Some lastBucket)
    /\ Bucket.date lastBucket = 19810
    /\ length (Future.features future) = 1%nat
    /\ map Label.region (Future.dates future)
       = repeat "region_-1480_815"%string 7
    /\ map Label.date (Future.dates future)
       = [19811; 19812; 19813; 19813; 19814; 19815; 19816]
    /\ map Label.date (Future.dates future)
       <> map (fun i => Bucket.date lastBucket + Z.of_nat i) (seq 1 7)
    /\ exists future',
         fst (forecastRun utcHost exampleRows) = Ok future'
         /\ map Label.date (Future.dates future')
            = map (fun i => Bucket.date lastBucket + Z.of_nat i) (seq 1 7).
Proof.
  eexists. eexists.
  split; [vm_compute; reflexivity|].
  split; [vm_compute; reflexivity|].
  split; [reflexivity|]. split; [reflexivity|]. split; [reflexivity|].
  split; [reflexivity|]. split; [discriminate|].
  eexists. split; [vm_compute; reflexivity|reflexivity].
Qed.

(** * Further properties of the code *)

(** ** Buckets and the trips behind them *)

Section Buckets.

Variable h : JS.Host.
Variable level : string.

(** A property of the entries of [groupedData] that holds when an entry is
    created, survives an update of the entry and is not affected by trips of
    other keys, holds of every entry. *)
Lemma groupTrips_entries (P : list Trip.t -> Key.t -> Bucket.t -> Prop) :
  (forall trips t,
      tripsWithKey level (keyOf level t) trips = [] ->
      P (trips ++ [t]) (keyOf level t) (accumulate h t (freshBucket t))) ->
  (forall trips t b,
      P trips (keyOf level t) b ->
      P (trips ++ [t]) (keyOf level t) (accumulate h t b)) ->
  (forall trips t k b, k <> keyOf level t -> P trips k b -> P (trips ++ [t]) k b) ->
  forall trips k b, In (k, b) (groupTrips h level trips) -> P trips k b.
Proof.
  intros Hnew Hupd Hoth.
  induction trips as [|t trips IH] using rev_ind; [intros k b []|].
  intros k b Hin. rewrite groupTrips_snoc in Hin.
  destruct (groupTrips_invariant h level trips) as (Hnd & _ & Hc).
  destruct (addTrip_In h _ t _ k b Hnd Hin) as [[Hne Hg]|[-> (b0 & -> & [Hg|[Hn ->]])]].
  - apply Hoth; auto.
  - apply Hupd; auto.
  - apply Hnew. eapply tripsWithKey_absent; eauto.
Qed.

Lemma tripsWithKey_snoc_same (trips : list Trip.t) (t : Trip.t) :
  tripsWithKey level (keyOf level t) (trips ++ [t])
  = tripsWithKey level (keyOf level t) trips ++ [t].
Proof.
  unfold tripsWithKey. rewrite filter_app. simpl. now rewrite Key_eqb_refl.
Qed.

Lemma tripsWithKey_snoc_other (trips : list Trip.t) (t : Trip.t) (k : Key.t) :
  k <> keyOf level t ->
  tripsWithKey level k (trips ++ [t]) = tripsWithKey level k trips.
Proof.
  intros Hne. unfold tripsWithKey. rewrite filter_app. simpl.
  destruct (Key.eqb (keyOf level t) k) eqn:E; [|apply app_nil_r].
  apply Key_eqb_eq in E. congruence.
Qed.

Lemma groupTrips_first_trip (trips : list Trip.t) (k : Key.t) (b : Bucket.t) :
  In (k, b) (groupTrips h level trips) ->
  exists t rest, tripsWithKey level k trips = t :: rest /\ createdFrom b t.
Proof.
  revert trips k b.
  apply (groupTrips_entries
           (fun trips k b =>
              exists t rest, tripsWithKey level k trips = t :: rest /\ createdFrom b t)).
  - intros trips t E. exists t, []. rewrite tripsWithKey_snoc_same, E.
    split; [reflexivity|]. repeat split.
  - intros trips t b (t0 & rest & E & Hc). exists t0, (rest ++ [t]).
    rewrite tripsWithKey_snoc_same, E. split; [reflexivity|exact Hc].
  - intros trips t k b Hne (t0 & rest & E & Hc). exists t0, rest.
    now rewrite tripsWithKey_snoc_other.
Qed.



Lemma addTrip_length (k : Key.t) (t : Trip.t) (g : list (Key.t * Bucket.t)) :
  (1 <= length (addTrip h k t g) <= S (length g))%nat.
Proof.
  induction g as [|[k' b] g IH]; simpl; [lia|].
  destruct (Key.eqb k k'); simpl; lia.
Qed.

Lemma groupTrips_length (trips : list Trip.t) :
  (length (groupTrips h level trips) <= length trips)%nat
  /\ (trips <> [] -> groupTrips h level trips <> []).
Proof.
  induction trips as [|t trips [IH _]] using rev_ind.
  - split; [simpl; lia|congruence].
  - rewrite groupTrips_snoc, length_app. simpl.
    pose proof (addTrip_length (keyOf level t) t (groupTrips h level trips)) as Hl.
    split; [lia|]. intros _ E. rewrite E in Hl. simpl in Hl. lia.
Qed.

Lemma aggregate_In (trips : list Trip.t) (b : Bucket.t) :
  In b (aggregate h level trips) ->
  In (bucketKey level b, b) (groupTrips h level trips).
Proof.
  unfold aggregate. intros Hin. apply sortBy_In in Hin.
  apply in_map_iff in Hin as ([k b'] & E & Hin). simpl in E. subst b'.
  destruct (groupTrips_invariant h level trips) as (_ & Hb & _).
  now destruct (Hb k b Hin) as [-> _].
Qed.



End Buckets.



(** ** When sequences can be built, and their shape *)

Lemma flat_map_nil_iff {A B : Type} (f : A -> list B) (l : list A) :
  flat_map f l = [] <-> forall a, In a l -> f a = [].
Proof.
  induction l as [|a l IH]; simpl; [tauto|]. split.
  - intros E. apply app_eq_nil in E as [Ea El]. intros a' [<-|Ha]; [exact Ea|].
    now apply IH.
  - intros H. rewrite (H a) by auto. apply IH. auto.
Qed.

Lemma regionSequences_nil_iff (h : JS.Host) (L : nat) (rd : list Bucket.t) :
  regionSequences h L rd = [] <-> (length rd <= L)%nat.
Proof.
  rewrite <- length_zero_iff_nil, regionSequences_length. lia.
Qed.

Lemma collectSequences_length (h : JS.Host) (L : nat) (aggregated : list Bucket.t) :
  length (collectSequences h L aggregated)
  = list_sum (map (fun r => (length (filter (inRegion r) aggregated) - L)%nat)
                  (unique (map Bucket.region aggregated))).
Proof.
  unfold collectSequences. rewrite length_flat_map. f_equal.
  apply map_ext. intros r. now rewrite regionSequences_length, regionDataOf_length.
Qed.

Lemma collectSequences_nil_iff (h : JS.Host) (L : nat) (aggregated : list Bucket.t) :
  collectSequences h L aggregated = []
  <-> forall r, In r (map Bucket.region aggregated) ->
        (length (filter (inRegion r) aggregated) <= L)%nat.
Proof.
  unfold collectSequences. rewrite flat_map_nil_iff. split.
  - intros H r Hr. rewrite <- regionDataOf_length.
    apply (proj1 (regionSequences_nil_iff h L _)), H.
    now apply (proj2 (unique_In _ _)).
  - intros H r Hr. apply (proj2 (regionSequences_nil_iff h L _)).
    rewrite regionDataOf_length. apply H. now apply (proj1 (unique_In _ _)).
Qed.

(** X3.  On non-empty aggregated data and a window width of 1 or more,
    [createSequences] throws its no-sequences error, leaving the object as
    it was, exactly when no region has more buckets than the window is
    wide; otherwise it stores and returns the sequences, as many as the
    regions' bucket counts exceed the width, taken together. *)
Theorem createSequences_needs_a_long_region (h : JS.Host) (L : nat) (st : State)
    (aggregated : list Bucket.t) :
  aggregatedData st = Some aggregated -> aggregated <> [] -> (1 <= L)%nat ->
  let enough r := (L < length (filter (inRegion r) aggregated))%nat in
  ((forall r, In r (map Bucket.region aggregated) -> ~ enough r) ->
     createSequences h L st = (Throw (Error noSequencesMessage), st))
  /\ ((exists r, In r (map Bucket.region aggregated) /\ enough r) ->
        exists sq,
          createSequences h L st = (Ok sq, set_sequences sq st)
          /\ length (Sequences.features sq)
             = list_sum (map (fun r => (length (filter (inRegion r) aggregated) - L)%nat)
                             (unique (map Bucket.region aggregated))))
  /\ (fst (createSequences h L st) = Throw (Error noSequencesMessage)
      <-> forall r, In r (map Bucket.region aggregated) -> ~ enough r).
Proof.
  intros Hagg Hne HL enough.
  assert (Hlen : (length aggregated =? 0)%nat = false).
  { apply Nat.eqb_neq. destruct aggregated; [congruence|discriminate]. }
  assert (HL0 : (L =? 0)%nat = false) by (apply Nat.eqb_neq; lia).
  assert (Hnone : (forall r, In r (map Bucket.region aggregated) -> ~ enough r) ->
                  createSequences h L st = (Throw (Error noSequencesMessage), st)).
  { intros H. unfold createSequences. rewrite Hagg, Hlen.
    rewrite (proj2 (collectSequences_nil_iff h L aggregated)); [reflexivity|].
    intros r Hr. specialize (H r Hr). unfold enough in H. lia. }
  assert (Hsome : (exists r, In r (map Bucket.region aggregated) /\ enough r) ->
                  (length (collectSequences h L aggregated) =? 0)%nat = false).
  { intros (r & Hr & He). apply Nat.eqb_neq. intros E.
    apply length_zero_iff_nil in E.
    pose proof (proj1 (collectSequences_nil_iff h L aggregated) E r Hr).
    unfold enough in He. lia. }
  split; [exact Hnone|]. split.
  - intros Hex. eexists. split.
    + unfold createSequences. rewrite Hagg, Hlen, (Hsome Hex), HL0. reflexivity.
    + simpl. rewrite length_map. apply collectSequences_length.
  - split.
    + intros Hthrow r Hr He.
      assert (Hex : exists r, In r (map Bucket.region aggregated) /\ enough r) by eauto.
      unfold createSequences in Hthrow.
      rewrite Hagg, Hlen, (Hsome Hex), HL0 in Hthrow. discriminate.
    + intros H. now rewrite (Hnone H).
Qed.

Lemma createSequences_needs_a_long_region_witness :
  aggregatedData (set_aggregatedData (exampleAggregated utcHost) initial)
  = Some (exampleAggregated utcHost)
  /\ exampleAggregated utcHost <> []
  /\ (1 <= 5)%nat
  /\ createSequences utcHost 5 (set_aggregatedData (exampleAggregated utcHost) initial)
     = (Throw (Error noSequencesMessage),
        set_aggregatedData (exampleAggregated utcHost) initial).
Proof.
  assert (Hne : exampleAggregated utcHost <> []) by (vm_compute; discriminate).
  split; [reflexivity|]. split; [exact Hne|]. split; [lia|].
  apply (createSequences_needs_a_long_region utcHost 5
           (set_aggregatedData (exampleAggregated utcHost) initial)
           (exampleAggregated utcHost) eq_refl Hne); [lia|].
  intros r Hr. vm_compute in Hr.
  repeat (destruct Hr as [<-|Hr]; [vm_compute; lia|]). destruct Hr.
Defined.

Lemma featureVector_length (h : JS.Host) (b : Bucket.t) : length (featureVector h b) = 4%nat.
Proof. reflexivity. Qed.

Lemma sequences_well_shaped (h : JS.Host) (L : nat) (st : State)
    (aggregated : list Bucket.t) (sq : Sequences.t) :
  aggregatedData st = Some aggregated ->
  fst (createSequences h L st) = Ok sq ->
  length (Sequences.targets sq) = length (Sequences.features sq)
  /\ length (Sequences.dates sq) = length (Sequences.features sq)
  /\ (1 <= length (Sequences.features sq))%nat
  /\ (forall w, In w (Sequences.features sq) ->
        length w = L /\ forall v, In v w -> length v = 4%nat)
  /\ shape1 (Sequences.features sq) = L
  /\ shape2 (Sequences.features sq) = 4%nat
  /\ NoDup (Sequences.regions sq)
  /\ (forall r, In r (Sequences.regions sq) <-> In r (map Bucket.region aggregated))
  /\ (forall l, In l (Sequences.dates sq) -> In (Label.region l) (Sequences.regions sq)).
Proof.
  intros Hagg Hok.
  assert (Hnonempty : (1 <= length (collectSequences h L aggregated))%nat).
  { unfold createSequences in Hok. rewrite Hagg in Hok.
    destruct (length aggregated =? 0)%nat; [discriminate|].
    destruct (length (collectSequences h L aggregated) =? 0)%nat eqn:E; [discriminate|].
    apply Nat.eqb_neq in E. lia. }
  destruct (createSequences_Ok h L st aggregated sq Hagg Hok) as (HL & -> & _).
  cbn [Sequences.features Sequences.targets Sequences.dates Sequences.regions].
  assert (Hwin : forall w, In w (map Sample.window (collectSequences h L aggregated)) ->
                   length w = L /\ forall v, In v w -> length v = 4%nat).
  { intros w Hw. apply in_map_iff in Hw as (s & <- & Hs).
    apply collectSequences_In in Hs as (r & i & t & _ & Hi & Ht & ->).
    cbn [Sample.window sampleOf]. split.
    - rewrite length_map. apply windowBuckets_length; [exact Hi|].
      apply Nat.lt_le_incl, nth_error_Some. congruence.
    - intros v Hv. apply in_map_iff in Hv as (b & <- & _). reflexivity. }
  rewrite !length_map. split; [reflexivity|]. split; [reflexivity|].
  split; [exact Hnonempty|]. split; [exact Hwin|].
  destruct (collectSequences h L aggregated) as [|s ss] eqn:E; [simpl in Hnonempty; lia|].
  destruct (Hwin (Sample.window s)) as [Hs1 Hs2]; [now left|].
  split; [exact Hs1|]. split.
  - cbn [map shape2]. destruct (Sample.window s) as [|v w]; [simpl in Hs1; lia|].
    apply Hs2. now left.
  - split; [apply unique_NoDup|]. split; [intros r; apply unique_In|].
    intros l Hl. apply in_map_iff in Hl as (s' & <- & Hs').
    rewrite <- E in Hs'.
    apply collectSequences_In in Hs' as (r & i & t & Hr & _ & Ht & ->).
    cbn [Sample.label sampleOf Label.region]. apply unique_In.
    apply nth_error_In in Ht. apply regionDataOf_In in Ht as [_ ->]. exact Hr.
Qed.

(** X4.  What [createSequences] returns is well shaped: features, targets and
    dates have one entry per sample, every window has [sequenceLength] rows
    of four channels (so that the tensor has shape [N, sequenceLength, 4]),
    every label names a region of the list of regions, which lists each
    region of the aggregated data once. *)
Theorem createSequences_shape (h : JS.Host) (L : nat) (st : State)
    (aggregated : list Bucket.t) (sq : Sequences.t) :
  aggregatedData st = Some aggregated ->
  fst (createSequences h L st) = Ok sq ->
  length (Sequences.targets sq) = length (Sequences.features sq)
  /\ length (Sequences.dates sq) = length (Sequences.features sq)
  /\ (1 <= length (Sequences.features sq))%nat
  /\ (forall w, In w (Sequences.features sq) ->
        length w = L /\ forall v, In v w -> length v = 4%nat)
  /\ shape1 (Sequences.features sq) = L
  /\ shape2 (Sequences.features sq) = 4%nat
  /\ NoDup (Sequences.regions sq)
  /\ (forall r, In r (Sequences.regions sq) <-> In r (map Bucket.region aggregated))
  /\ (forall l, In l (Sequences.dates sq) -> In (Label.region l) (Sequences.regions sq)).
Proof.
  apply sequences_well_shaped.
Qed.

Lemma createSequences_shape_witness :
  aggregatedData (set_aggregatedData (exampleAggregated utcHost) initial)
  = Some (exampleAggregated utcHost)
  /\ fst (createSequences utcHost 2
            (set_aggregatedData (exampleAggregated utcHost) initial))
     = Ok (exampleSequences utcHost)
  /\ shape1 (Sequences.features (exampleSequences utcHost)) = 2%nat
  /\ shape2 (Sequences.features (exampleSequences utcHost)) = 4%nat.
Proof.
  split; [reflexivity|]. split; [reflexivity|].
  destruct (createSequences_shape utcHost 2
              (set_aggregatedData (exampleAggregated utcHost) initial)
              (exampleAggregated utcHost) (exampleSequences utcHost) eq_refl eq_refl)
    as (_ & _ & _ & _ & H1 & H2 & _).
  split; [exact H1|exact H2].
Defined.

(** ** Which ratios split, and what a split holds *)

Lemma splitData_faults (st : State) (sq : Sequences.t) (ratio : JS.number) :
  sequences st = Some sq ->
  length (Sequences.targets sq) = length (Sequences.features sq) ->
  let N := Z.of_nat (length (Sequences.features sq)) in
  let size := trainSizeOf (length (Sequences.features sq)) ratio in
  ((exists k, size = JS.ofZ k /\ N < k) \/ size = JS.Inf true ->
   splitData ratio st = (Throw (TensorError SizeOverflow), st))
  /\ ((exists k, size = JS.ofZ k /\ k < -1) \/ size = JS.NaN \/ size = JS.Inf false ->
      splitData ratio st = (Throw (TensorError NegativeSize), st))
  /\ (size = JS.ofZ (-1) ->
      splitData ratio st = (Throw (TensorError NegativeBegin), st)).
Proof.
  intros Hsq Ht N size. unfold size, trainSizeOf, splitData. rewrite Hsq.
  split; [|split].
  - intros [(k & -> & Hk)| ->]; [|reflexivity].
    unfold sliceFront. rewrite nonNegative_ofZ.
    rewrite (proj2 (Z.leb_le 0 k)) by (unfold N in Hk; lia).
    now rewrite asIndex_beyond.
  - intros [(k & -> & Hk)|[-> | ->]]; [|reflexivity|reflexivity].
    unfold sliceFront. rewrite nonNegative_ofZ, isMinusOne_ofZ.
    rewrite (proj2 (Z.leb_gt 0 k)) by lia.
    destruct (Z.eqb_spec k (-1)) as [E|_]; [lia|reflexivity].
  - intros ->. reflexivity.
Qed.

(** X5.  [splitData] succeeds exactly when the train size, the floor of the
    binary64 product of the number [N] of samples and the ratio, is an
    integer from 0 to [N]; for a ratio from 0 to 1 and [N] below 2^53 it is.
    Otherwise the tensor library rejects a slice and no field is set: a
    size above [N] or infinite as reaching past the tensor, a size below -1,
    minus infinity or NaN (so a ratio that is NaN) as a negative size, and
    -1, which is accepted as a size, as a begin. *)
Theorem splitData_succeeds_iff (st : State) (sq : Sequences.t) :
  sequences st = Some sq ->
  length (Sequences.targets sq) = length (Sequences.features sq) ->
  let N := length (Sequences.features sq) in
  forall ratio,
    let size := trainSizeOf N ratio in
    ((exists split, fst (splitData ratio st) = Ok split)
     <-> exists k, size = JS.ofZ k /\ 0 <= k <= Z.of_nat N)
    /\ ((exists k, size = JS.ofZ k /\ Z.of_nat N < k) \/ size = JS.Inf true ->
        splitData ratio st = (Throw (TensorError SizeOverflow), st))
    /\ ((exists k, size = JS.ofZ k /\ k < -1) \/ size = JS.NaN \/ size = JS.Inf false ->
        splitData ratio st = (Throw (TensorError NegativeSize), st))
    /\ (size = JS.ofZ (-1) ->
        splitData ratio st = (Throw (TensorError NegativeBegin), st))
    /\ trainSizeOf N JS.NaN = JS.NaN
    /\ (Z.of_nat N < 2 ^ 53 ->
        forall q, ratio = JS.Fin q -> (0 <= q <= 1)%Q ->
                  exists split, fst (splitData ratio st) = Ok split).
Proof.
  intros Hsq Ht N ratio size.
  destruct (splitData_faults st sq ratio Hsq Ht) as (Hover & Hneg & Hbegin).
  fold N in Hover, Hneg, Hbegin. fold size in Hover, Hneg, Hbegin.
  assert (Hin : (exists k, size = JS.ofZ k /\ 0 <= k <= Z.of_nat N) ->
                exists split, fst (splitData ratio st) = Ok split).
  { intros (k & Ek & Hk).
    rewrite (splitData_in_range st sq ratio k Hsq Ht Ek Hk). eexists. reflexivity. }
  split; [split; [|exact Hin]|].
  - intros [split Hok].
    destruct (floor_shape (Double.mul (JS.ofZ (Z.of_nat N)) ratio))
      as [[k Ek]|[Ek|[[|] Ek]]]; fold (trainSizeOf N ratio) in Ek; fold size in Ek.
    + destruct (Z_lt_le_dec k (-1)) as [H1|H1];
        [rewrite Hneg in Hok by eauto; discriminate|].
      destruct (Z.eq_dec k (-1)) as [->|H2];
        [rewrite Hbegin in Hok by exact Ek; discriminate|].
      destruct (Z_lt_le_dec (Z.of_nat N) k) as [H3|H3];
        [rewrite Hover in Hok by eauto; discriminate|].
      exists k. split; [exact Ek|lia].
    + rewrite Hneg in Hok by auto. discriminate.
    + rewrite Hover in Hok by auto. discriminate.
    + rewrite Hneg in Hok by auto. discriminate.
  - split; [exact Hover|]. split; [exact Hneg|]. split; [exact Hbegin|].
    split.
    { unfold trainSizeOf, Double.mul. cbn [Double.ofNumber].
      now destruct (Double.ofNumber (JS.ofZ (Z.of_nat N))). }
    intros HN q -> [Hq0 Hq1]. apply Hin. now apply trainSizeOf_bounds.
Qed.

Lemma splitData_succeeds_iff_witness :
  sequences (exampleState utcHost) = Some (exampleSequences utcHost)
  /\ length (Sequences.targets (exampleSequences utcHost))
     = length (Sequences.features (exampleSequences utcHost))
  /\ splitData (JS.Fin (3 # 2)) (exampleState utcHost)
     = (Throw (TensorError SizeOverflow), exampleState utcHost)
  /\ splitData (JS.Fin (- (1 # 3))) (exampleState utcHost)
     = (Throw (TensorError NegativeBegin), exampleState utcHost)
  /\ exists split, fst (splitData (JS.Fin 1) (exampleState utcHost)) = Ok split.
Proof.
  assert (Hsq : sequences (exampleState utcHost) = Some (exampleSequences utcHost))
    by reflexivity.
  assert (HN : length (Sequences.features (exampleSequences utcHost)) = 3%nat)
    by (vm_compute; reflexivity).
  assert (Ht : length (Sequences.targets (exampleSequences utcHost))
               = length (Sequences.features (exampleSequences utcHost)))
    by (vm_compute; reflexivity).
  split; [exact Hsq|]. split; [exact Ht|].
  pose proof (splitData_succeeds_iff (exampleState utcHost) (exampleSequences utcHost)
                Hsq Ht) as H.
  cbv zeta in H. rewrite HN in H.
  split; [|split].
  - apply (H (JS.Fin (3 # 2))). left. exists 4. split; [vm_compute; reflexivity|lia].
  - apply (H (JS.Fin (- (1 # 3)))). vm_compute. reflexivity.
  - apply (H (JS.Fin 1)). exists 3. split; [vm_compute; reflexivity|lia].
Defined.

(** X6.  After a successful [createSequences(sequenceLength)] that gave
    fewer than 2^53 samples, [splitData] with a ratio above 0 and at most
    [1 - 2^-53], as every binary64 number below 1 is (Lemma
    [double_below_one]), succeeds and leaves a sample to test on; it reports
    [sequenceLength] and 4 feature channels, stores the train and test sets
    and both scalers on the object, and the two sets are aligned: train and
    test windows add up to the samples, and each set has as many targets
    (and the test set as many dates and original targets) as windows. *)
Theorem createSequences_then_splitData (h : JS.Host) (L : nat) (st : State)
    (aggregated : list Bucket.t) (sq : Sequences.t) (r : Q) :
  aggregatedData st = Some aggregated ->
  fst (createSequences h L st) = Ok sq ->
  (0 < r)%Q -> (r <= 1 - 2 ^ (-53))%Q ->
  Z.of_nat (length (Sequences.features sq)) < 2 ^ 53 ->
  let st1 := snd (createSequences h L st) in
  exists split,
    fst (splitData (JS.Fin r) st1) = Ok split
    /\ Split.sequenceLength split = L
    /\ Split.featureCount split = 4%nat
    /\ (length (TrainData.features (Split.train split))
        + length (TestData.features (Split.test split)))%nat
       = length (Sequences.features sq)
    /\ length (TrainData.targets (Split.train split))
       = length (TrainData.features (Split.train split))
    /\ length (TestData.targets (Split.test split))
       = length (TestData.features (Split.test split))
    /\ length (TestData.dates (Split.test split))
       = length (TestData.features (Split.test split))
    /\ length (TestData.originalTargets (Split.test split))
       = length (TestData.features (Split.test split))
    /\ (1 <= length (TestData.features (Split.test split)))%nat
    /\ trainData (snd (splitData (JS.Fin r) st1)) = Some (Split.train split)
    /\ testData (snd (splitData (JS.Fin r) st1)) = Some (Split.test split)
    /\ featureScaler (snd (splitData (JS.Fin r) st1)) <> None
    /\ targetScaler (snd (splitData (JS.Fin r) st1)) <> None
    /\ sequences (snd (splitData (JS.Fin r) st1)) = Some sq
    /\ aggregatedData (snd (splitData (JS.Fin r) st1)) = Some aggregated.
Proof.
  intros Hagg Hok H0 H1 HN st1.
  destruct (sequences_well_shaped h L st aggregated sq Hagg Hok)
    as (Ht & Hd & HN1 & _ & Hs1 & Hs2 & _).
  destruct (createSequences_Ok h L st aggregated sq Hagg Hok) as (_ & _ & Hst).
  assert (Hsq : sequences st1 = Some sq) by (unfold st1; now rewrite Hst).
  destruct (trainSizeOf_below (length (Sequences.features sq)) r) as (k & Ek & Hk);
    [exact HN1|exact HN|lra|exact H1|].
  rewrite (splitData_in_range st1 sq (JS.Fin r) k Hsq Ht Ek) by lia.
  eexists. split; [reflexivity|].
  cbn [fst snd Split.train Split.test Split.sequenceLength Split.featureCount
       TrainData.features TrainData.targets TestData.features TestData.targets
       TestData.dates TestData.originalTargets set_split trainData testData
       featureScaler targetScaler sequences aggregatedData].
  unfold map3. rewrite !length_map, !length_firstn, !length_skipn, Ht, Hd.
  repeat split; try reflexivity; try discriminate; try lia; try assumption.
  unfold st1. rewrite Hst. exact Hagg.
Qed.

Lemma createSequences_then_splitData_witness :
  aggregatedData (set_aggregatedData (exampleAggregated utcHost) initial)
  = Some (exampleAggregated utcHost)
  /\ fst (createSequences utcHost 2
            (set_aggregatedData (exampleAggregated utcHost) initial))
     = Ok (exampleSequences utcHost)
  /\ (0 < 4 # 5)%Q /\ (4 # 5 <= 1 - 2 ^ (-53))%Q
  /\ Z.of_nat (length (Sequences.features (exampleSequences utcHost))) < 2 ^ 53
  /\ exists split,
       fst (splitData (JS.Fin (4 # 5))
              (snd (createSequences utcHost 2
                      (set_aggregatedData (exampleAggregated utcHost) initial))))
       = Ok split
       /\ Split.sequenceLength split = 2%nat
       /\ Split.featureCount split = 4%nat.
Proof.
  assert (Ha : aggregatedData (set_aggregatedData (exampleAggregated utcHost) initial)
               = Some (exampleAggregated utcHost)) by reflexivity.
  assert (Hc : fst (createSequences utcHost 2
                      (set_aggregatedData (exampleAggregated utcHost) initial))
               = Ok (exampleSequences utcHost)) by (vm_compute; reflexivity).
  assert (Hr : (4 # 5 <= 1 - 2 ^ (-53))%Q) by (vm_compute; discriminate).
  assert (HN : Z.of_nat (length (Sequences.features (exampleSequences utcHost))) < 2 ^ 53)
    by (vm_compute; reflexivity).
  split; [exact Ha|]. split; [exact Hc|]. split; [reflexivity|].
  split; [exact Hr|]. split; [exact HN|].
  destruct (createSequences_then_splitData utcHost 2
              (set_aggregatedData (exampleAggregated utcHost) initial)
              (exampleAggregated utcHost) (exampleSequences utcHost) (4 # 5)
              Ha Hc eq_refl Hr HN) as (split & Hs & H1 & H2 & _).
  exists split. auto.
Defined.

(** ** Scalers without a spread *)

Lemma createScaler_finite (a : Q) (A : list Q) :
  exists lo hi,
    createScaler (map JS.Fin (a :: A))
    = {| Scaler.min := JS.Fin lo; Scaler.max := JS.Fin hi |}
    /\ In lo (a :: A) /\ In hi (a :: A).
Proof.
  destruct (reduceMin_finite A a) as (m & Hm & Hmin & _).
  destruct (reduceMax_finite A a) as (M & HM & HMin & _).
  exists m, M. unfold createScaler. simpl. rewrite Hm, HM.
  split; [reflexivity|]. split; [destruct Hmin|destruct HMin]; auto.
Qed.

(** X7.  The divisor [max - min] of a scaler fitted on a non-empty array of
    finite numbers is never negative, and it is zero exactly when all the
    elements of the array are equal: only then does [normalize] divide by
    zero. *)
Theorem scaler_spread_zero_iff (a : Q) (A : list Q) :
  exists lo hi,
    createScaler (map JS.Fin (a :: A))
    = {| Scaler.min := JS.Fin lo; Scaler.max := JS.Fin hi |}
    /\ JS.sub (JS.Fin hi) (JS.Fin lo) = JS.Fin (hi - lo)
    /\ (0 <= hi - lo)%Q
    /\ ((hi - lo == 0)%Q <-> forall x y, In x (a :: A) -> In y (a :: A) -> (x == y)%Q).
Proof.
  destruct (createScaler_finite a A) as (lo & hi & Hs & Hlo & Hhi).
  exists lo, hi. split; [exact Hs|]. split; [reflexivity|].
  destruct (createScaler_extrema (a :: A) lo hi) as (_ & _ & Hb);
    [now rewrite Hs|now rewrite Hs|].
  split; [|split].
  - destruct (Hb hi Hhi) as [H _]. apply (proj1 (Qle_minus_iff lo hi)) in H. exact H.
  - intros E x y Hx Hy. destruct (Hb x Hx) as [X1 X2]. destruct (Hb y Hy) as [Y1 Y2].
    assert (Ehl : (hi == lo)%Q).
    { apply (Qplus_inj_r _ _ (- lo)). rewrite Qplus_opp_r. exact E. }
    rewrite Ehl in X2, Y2.
    apply Qle_antisym; eapply Qle_trans; eauto.
  - intros Hall. rewrite (Hall hi lo Hhi Hlo). ring.
Qed.

(** X8.  When the train size, the floor of the binary64 product of the
    number of samples and the ratio, is 0 (three samples and the ratio 0.3,
    for one), [splitData] succeeds with an empty train set: both scalers
    are fitted on an empty tensor, and the test set holds every sample, with
    all the targets as [originalTargets] and all the dates. *)
Theorem splitData_empty_train_set (st : State) (sq : Sequences.t) (ratio : JS.number) :
  sequences st = Some sq ->
  length (Sequences.targets sq) = length (Sequences.features sq) ->
  trainSizeOf (length (Sequences.features sq)) ratio = JS.ofZ 0 ->
  exists split,
    fst (splitData ratio st) = Ok split
    /\ TrainData.features (Split.train split) = []
    /\ TrainData.targets (Split.train split) = []
    /\ featureScaler (snd (splitData ratio st)) = Some (createScaler [])
    /\ targetScaler (snd (splitData ratio st)) = Some (createScaler [])
    /\ TestData.features (Split.test split)
       = map3 (Scaler.normalize1 (createScaler [])) (Sequences.features sq)
    /\ TestData.originalTargets (Split.test split) = Sequences.targets sq
    /\ TestData.dates (Split.test split) = Sequences.dates sq.
Proof.
  intros Hsq Ht Hz.
  rewrite (splitData_in_range st sq ratio 0 Hsq Ht Hz) by lia.
  eexists. split; [reflexivity|].
  cbn [fst snd Split.train Split.test TrainData.features TrainData.targets
       TestData.features TestData.targets TestData.originalTargets TestData.dates
       set_split featureScaler targetScaler Z.to_nat firstn skipn map3 map
       flatten3 concat].
  repeat split; reflexivity.
Qed.

Lemma splitData_empty_train_set_witness :
  sequences (exampleState utcHost) = Some (exampleSequences utcHost)
  /\ trainSizeOf (length (Sequences.features (exampleSequences utcHost)))
       (JS.Fin (3 # 10)) = JS.ofZ 0
  /\ exists split,
       fst (splitData (JS.Fin (3 # 10)) (exampleState utcHost)) = Ok split
       /\ TrainData.features (Split.train split) = []
       /\ TestData.originalTargets (Split.test split)
          = Sequences.targets (exampleSequences utcHost).
Proof.
  assert (Hsq : sequences (exampleState utcHost) = Some (exampleSequences utcHost))
    by reflexivity.
  assert (Ht : length (Sequences.targets (exampleSequences utcHost))
               = length (Sequences.features (exampleSequences utcHost)))
    by (vm_compute; reflexivity).
  assert (Hz : trainSizeOf (length (Sequences.features (exampleSequences utcHost)))
                 (JS.Fin (3 # 10)) = JS.ofZ 0) by (vm_compute; reflexivity).
  split; [exact Hsq|]. split; [exact Hz|].
  destruct (splitData_empty_train_set (exampleState utcHost) (exampleSequences utcHost)
              (JS.Fin (3 # 10)) Hsq Ht Hz)
    as (split & Hs & Hf & _ & _ & _ & _ & Ho & _).
  exists split. auto.
Defined.

(** ** What a forecast input holds, in any host *)

Lemma mapM_Forall2 {A B : Type} (f : A -> result B) (l : list A) (ys : list B) :
  mapM f l = Ok ys -> Forall2 (fun a y => f a = Ok y) l ys.
Proof.
  revert ys. induction l as [|a l IH]; simpl; intros ys E.
  - injection E as <-. constructor.
  - destruct (f a) as [b|e] eqn:Ea; simpl in E; [|discriminate].
    destruct (mapM f l) as [bs|e]; simpl in E; [|discriminate].
    injection E as <-. constructor; auto.
Qed.

Lemma futureLabels_of_region (h : JS.Host) (lastDate : Z) (r : string)
    (days : list nat) (labels : list Label.t) :
  mapM (futureLabel h lastDate r) days = Ok labels ->
  length labels = length days /\ forall l, In l labels -> Label.region l = r.
Proof.
  intros E. apply mapM_Forall2 in E.
  induction E as [|i l days labels Hl _ [IH1 IH2]]; [split; [reflexivity|intros l []]|].
  split; [simpl; now rewrite IH1|]. intros l' [<-|Hin]; [|auto].
  unfold futureLabel in Hl. destruct (Time.setDatePlus h lastDate (Z.of_nat i));
    [|discriminate]. now injection Hl as <-.
Qed.

(** What the loop over the regions yields, region by qualifying region. *)
Lemma futureOfRegions_blocks (h : JS.Host) (aggregated : list Bucket.t) (L : nat)
    (lastDate : Z) (d : nat) (regions : list string)
    (perRegion : list (option (list (list JS.number) * list Label.t))) :
  mapM (futureOfRegion h aggregated L lastDate d) regions = Ok perRegion ->
  let qualifying :=
    filter (fun r => negb (length (regionDataOf aggregated r) <? L)%nat) regions in
  map fst (catMaybes perRegion)
  = map (fun r => map (featureVector h) (sliceLast L (regionDataOf aggregated r)))
        qualifying
  /\ Forall2 (fun r block => length block = d /\ forall l, In l block -> Label.region l = r)
             qualifying (map snd (catMaybes perRegion)).
Proof.
  intros E. apply mapM_Forall2 in E. cbv zeta.
  induction E as [|r o regions perRegion Ho _ [IH1 IH2]]; [split; constructor|].
  unfold futureOfRegion in Ho. simpl.
  destruct (length (regionDataOf aggregated r) <? L)%nat; simpl.
  - injection Ho as <-. simpl. auto.
  - destruct (mapM (futureLabel h lastDate r) (seq 1 d)) as [labels|e] eqn:El;
      simpl in Ho; [|discriminate].
    injection Ho as <-. simpl. split; [now rewrite IH1|].
    constructor; [|exact IH2].
    destruct (futureLabels_of_region h lastDate r _ labels El) as [H1 H2].
    rewrite length_seq in H1. auto.
Qed.

Lemma Forall2_right_all {A B : Type} (R : A -> B -> Prop) (P : B -> Prop)
    (l : list A) (l' : list B) :
  Forall2 R l l' -> (forall a b, R a b -> P b) -> forall b, In b l' -> P b.
Proof.
  induction 1 as [|a b l l' Hab _ IH]; intros HP b' Hin; [destruct Hin|].
  destruct Hin as [<-|Hin]; [eapply HP; eauto|now apply IH].
Qed.

Lemma concat_uniform_length {A : Type} (d : nat) (blocks : list (list A)) :
  (forall b, In b blocks -> length b = d) ->
  length (concat blocks) = (d * length blocks)%nat.
Proof.
  induction blocks as [|b blocks IH]; simpl; intros H; [lia|].
  rewrite length_app, (H b), IH by auto. lia.
Qed.

Lemma generateFutureSequence_Ok_blocks (h : JS.Host) (d : nat) (st : State)
    (aggregated : list Bucket.t) (sq : Sequences.t) (future : Future.t) :
  aggregatedData st = Some aggregated ->
  sequences st = Some sq ->
  fst (generateFutureSequence h d st) = Ok future ->
  let L := shape1 (Sequences.features sq) in
  let qualifying :=
    filter (fun r => negb (length (regionDataOf aggregated r) <? L)%nat)
           (Sequences.regions sq) in
  qualifying <> []
  /\ (exists fs,
        featureScaler st = Some fs
        /\ Future.features future
           = map3 (Scaler.normalize1 fs)
               (map (fun r => map (featureVector h)
                                  (sliceLast L (regionDataOf aggregated r)))
                    qualifying))
  /\ exists blocks,
       Future.dates future = concat blocks
       /\ Forall2 (fun r block =>
                     length block = d /\ forall l, In l block -> Label.region l = r)
                  qualifying blocks.
Proof.
  intros Hagg Hsq Hok L qualifying. unfold generateFutureSequence in Hok.
  rewrite Hagg, Hsq in Hok.
  destruct (lastOf aggregated) as [lastBucket|]; [|discriminate].
  fold L in Hok.
  destruct (mapM (futureOfRegion h aggregated L
                    (Time.newDateOfDay (Bucket.date lastBucket)) d)
                 (Sequences.regions sq)) as [perRegion|e] eqn:E; [|discriminate].
  destruct (futureOfRegions_blocks h aggregated L _ d _ perRegion E) as [H1 H2].
  fold qualifying in H1, H2.
  destruct (length (map fst (catMaybes perRegion)) =? 0)%nat eqn:E0; [discriminate|].
  destruct (featureScaler st) as [fs|]; [|discriminate].
  simpl in Hok. injection Hok as <-.
  split; [|split].
  - intros Hq. apply Nat.eqb_neq in E0. apply E0.
    rewrite H1, Hq. reflexivity.
  - exists fs. split; [reflexivity|]. simpl. now rewrite H1.
  - exists (map snd (catMaybes perRegion)). split; [reflexivity|exact H2].
Qed.

(** X9.  Whenever [generateFutureSequence] returns, in whatever host, it has
    changed nothing on the object; at least one region of the stored list
    has [sequenceLength] buckets or more; the windows are those of the
    qualifying regions, in the order of the list, each built from the
    region's most recent [sequenceLength] buckets and normalized with the
    stored feature scaler; and the labels come in one block per window, of
    [daysToPredict] labels that all name the window's region. *)
Theorem generateFutureSequence_one_block_per_window (h : JS.Host) (d : nat)
    (st : State) (aggregated : list Bucket.t) (sq : Sequences.t) (future : Future.t) :
  aggregatedData st = Some aggregated ->
  sequences st = Some sq ->
  fst (generateFutureSequence h d st) = Ok future ->
  let L := shape1 (Sequences.features sq) in
  let qualifying :=
    filter (fun r => negb (length (regionDataOf aggregated r) <? L)%nat)
           (Sequences.regions sq) in
  snd (generateFutureSequence h d st) = st
  /\ qualifying <> []
  /\ (exists fs,
        featureScaler st = Some fs
        /\ Future.features future
           = map3 (Scaler.normalize1 fs)
               (map (fun r => map (featureVector h)
                                  (sliceLast L (regionDataOf aggregated r)))
                    qualifying))
  /\ (exists blocks,
        Future.dates future = concat blocks
        /\ Forall2 (fun r block =>
                      length block = d /\ forall l, In l block -> Label.region l = r)
                   qualifying blocks)
  /\ length (Future.features future) = length qualifying
  /\ length (Future.dates future) = (d * length qualifying)%nat.
Proof.
  intros Hagg Hsq Hok L qualifying.
  destruct (generateFutureSequence_Ok_blocks h d st aggregated sq future Hagg Hsq Hok)
    as (Hq & (fs & Hfs & Hf) & (blocks & Hd & Hb)).
  fold L in Hq, Hf, Hb. fold qualifying in Hq, Hf, Hb.
  split; [|split; [exact Hq|split; [eauto|split; [eauto|split]]]].
  - unfold generateFutureSequence. rewrite Hagg, Hsq.
    destruct (lastOf aggregated); [|reflexivity].
    destruct (mapM _ (Sequences.regions sq)); [|reflexivity].
    destruct (_ =? 0)%nat; [reflexivity|].
    destruct (featureScaler st); reflexivity.
  - rewrite Hf. unfold map3. now rewrite !length_map.
  - rewrite Hd, (concat_uniform_length d blocks).
    + now rewrite (Forall2_length Hb).
    + exact (Forall2_right_all _ _ _ _ Hb (fun r b Hrb => proj1 Hrb)).
Qed.

Lemma generateFutureSequence_one_block_per_window_witness :
  aggregatedData (snd (forecastRun berlinHost exampleRows))
  = Some (exampleAggregated berlinHost)
  /\ sequences (snd (forecastRun berlinHost exampleRows))
     = Some (exampleSequences berlinHost)
  /\ exists future,
       fst (generateFutureSequence berlinHost 7 (snd (forecastRun berlinHost exampleRows)))
       = Ok future
       /\ length (Future.features future) = 1%nat
       /\ length (Future.dates future) = 7%nat.
Proof.
  assert (Ha : aggregatedData (snd (forecastRun berlinHost exampleRows))
               = Some (exampleAggregated berlinHost)) by (vm_compute; reflexivity).
  assert (Hs : sequences (snd (forecastRun berlinHost exampleRows))
               = Some (exampleSequences berlinHost)) by (vm_compute; reflexivity).
  split; [exact Ha|]. split; [exact Hs|].
  destruct (fst (generateFutureSequence berlinHost 7
                   (snd (forecastRun berlinHost exampleRows)))) as [future|e] eqn:E;
    [|vm_compute in E; discriminate].
  exists future. split; [reflexivity|].
  destruct (generateFutureSequence_one_block_per_window berlinHost 7 _ _ _ future Ha Hs E)
    as (_ & _ & _ & _ & Hf & Hd).
  rewrite Hf, Hd. split; vm_compute; reflexivity.
Defined.

Lemma generateFutureSequence_constant_offset_witness :
  (forall u b, JS.LocalTZA utcHost u b = 0)
  /\ exists future,
       generateFutureSequence utcHost 7 (snd (forecastRun utcHost exampleRows))
       = (Ok future, snd (forecastRun utcHost exampleRows))
       /\ map Label.date (Future.dates future)
          = [19811; 19812; 19813; 19814; 19815; 19816; 19817].
Proof.
  split; [reflexivity|].
  set (st := snd (forecastRun utcHost exampleRows)).
  assert (Ha : aggregatedData st = Some (exampleAggregated utcHost))
    by (vm_compute; reflexivity).
  assert (Hs : sequences st = Some (exampleSequences utcHost))
    by (vm_compute; reflexivity).
  destruct (featureScaler st) as [fs|] eqn:Hfs; [|vm_compute in Hfs; discriminate].
  destruct (lastOf (exampleAggregated utcHost)) as [lastBucket|] eqn:Hl;
    [|vm_compute in Hl; discriminate].
  assert (Hd : Bucket.date lastBucket = 19810)
    by (vm_compute in Hl; injection Hl as <-; reflexivity).
  assert (Hr : Z.abs (Bucket.date lastBucket) + Z.of_nat 7 <= 100000000)
    by (rewrite Hd; vm_compute; discriminate).
  assert (HL : (1 <= shape1 (Sequences.features (exampleSequences utcHost)))%nat)
    by (vm_compute; lia).
  pose proof (generateFutureSequence_constant_offset utcHost 0 st
                (exampleAggregated utcHost) (exampleSequences utcHost) fs lastBucket 7
                (fun _ _ => eq_refl) Ha Hs Hfs Hl Hr HL) as E.
  cbv zeta in E.
  match type of E with
  | _ = (if ?c then _ else _, _) =>
      replace c with false in E by (vm_compute; reflexivity)
  end.
  eexists. split; [exact E|].
  cbn [Future.dates]. rewrite Hd. vm_compute. reflexivity.
Defined.

(** ** The summary and the preview *)

Lemma aggregate_buckets_nonempty (h : JS.Host) (level : string) (trips : list Trip.t) :
  (length (aggregate h level trips) <= length trips)%nat
  /\ (aggregate h level trips = [] -> trips = []).
Proof.
  unfold aggregate. split.
  - rewrite sortBy_length, length_map. apply groupTrips_length.
  - intros E. destruct trips as [|t trips]; [reflexivity|].
    exfalso. apply (proj2 (groupTrips_length h level (t :: trips))); [discriminate|].
    apply (f_equal (@length _)) in E.
    rewrite sortBy_length, length_map in E. now apply length_zero_iff_nil.
Qed.

Lemma demandSum_totalDemand (l : list Bucket.t) : demandSum l = totalDemand l.
Proof.
  unfold demandSum.
  assert (H : forall a, fold_left (fun sum row => sum + Bucket.demand row) l a
                        = a + totalDemand l).
  { induction l as [|b l IH]; intros a; simpl; [lia|]. rewrite IH. lia. }
  now rewrite H.
Qed.

Lemma sorted_first_last (first : Bucket.t) (rest : list Bucket.t) (last : Bucket.t) :
  StronglySorted dateLe (first :: rest) ->
  lastOf (first :: rest) = Some last ->
  forall b, In b (first :: rest) ->
    Bucket.date first <= Bucket.date b <= Bucket.date last.
Proof.
  intros Hs Hl b Hin. split.
  - destruct Hin as [<-|Hin]; [lia|].
    inversion Hs as [|? ? _ Hf]; subst. rewrite Forall_forall in Hf. now apply Hf.
  - apply In_nth_error in Hin as [i Hi]. unfold lastOf in Hl.
    assert (Hlt : (i < length (first :: rest))%nat)
      by (apply nth_error_Some; congruence).
    destruct (Nat.eq_dec i (length (first :: rest) - 1)) as [->|Hne].
    + rewrite Hl in Hi. injection Hi as <-. lia.
    + apply (sorted_nth_le (first :: rest) i (length (first :: rest) - 1) b last Hs);
        [lia|exact Hi|exact Hl].
Qed.

Lemma aggregate_covers_trip (h : JS.Host) (level : string) (trips : list Trip.t)
    (t : Trip.t) :
  In t trips ->
  exists b, In b (aggregate h level trips) /\ Bucket.date b = Trip.date t.
Proof.
  intros Ht. destruct (groupTrips_invariant h level trips) as (_ & Hb & Hc).
  specialize (Hc t Ht). apply in_map_iff in Hc as ([k b] & Hk & Hin).
  simpl in Hk. subst k. exists b. split.
  - unfold aggregate. apply sortBy_In. apply in_map_iff. exists (keyOf level t, b). auto.
  - destruct (Hb _ b Hin) as [Hkey _]. apply (f_equal Key.date) in Hkey.
    unfold bucketKey, keyOf in Hkey.
    destruct (String.eqb level "daily"); exact Hkey.
Qed.

Lemma aggregate_bucket_trip (h : JS.Host) (level : string) (trips : list Trip.t)
    (b : Bucket.t) :
  In b (aggregate h level trips) ->
  exists t, In t trips /\ createdFrom b t.
Proof.
  intros Hin. apply aggregate_In in Hin.
  destruct (groupTrips_first_trip h level trips _ b Hin) as (t & rest & E & Hc).
  exists t. split; [|exact Hc].
  assert (Ht : In t (tripsWithKey level (bucketKey level b) trips))
    by (rewrite E; now left).
  unfold tripsWithKey in Ht. now apply filter_In in Ht.
Qed.

(** X11.  On an object whose aggregated data were built from its processed
    trips, the summary counts the trips and at most as many buckets; without
    trips it has neither date range nor average; otherwise the date range
    runs from the earliest to the latest trip date, and the average demand
    is the number of trips divided by the number of buckets, which is 1 or
    more. *)
Theorem getDataSummary_after_aggregation (h : JS.Host) (level : string)
    (trips : list Trip.t) (st : State) :
  processedData st = Some trips ->
  aggregatedData st = Some (aggregate h level trips) ->
  let summary := getDataSummary st in
  Summary.processedTrips summary = length trips
  /\ (Summary.aggregatedRecords summary <= Summary.processedTrips summary)%nat
  /\ (trips = [] ->
        Summary.dateRange summary = None /\ Summary.avgDemand summary = None)
  /\ (trips <> [] ->
        exists range average,
          Summary.dateRange summary = Some range
          /\ (forall t, In t trips ->
                DateRange.start range <= Trip.date t <= DateRange.end_ range)
          /\ (exists t, In t trips /\ Trip.date t = DateRange.start range)
          /\ (exists t, In t trips /\ Trip.date t = DateRange.end_ range)
          /\ Summary.avgDemand summary = Some (JS.Fin average)
          /\ (average == inject_Z (Z.of_nat (length trips))
                         / inject_Z (Z.of_nat (Summary.aggregatedRecords summary)))%Q
          /\ (1 <= average)%Q).
Proof.
  intros Hp Ha summary. unfold summary, getDataSummary. rewrite Hp, Ha.
  cbn [Summary.processedTrips Summary.aggregatedRecords Summary.dateRange
       Summary.avgDemand lengthOrZero].
  destruct (aggregate_buckets_nonempty h level trips) as (Hlen & Hnil).
  split; [reflexivity|]. split; [exact Hlen|]. split.
  - intros ->. split; reflexivity.
  - intros Hne. destruct (aggregate h level trips) as [|first rest] eqn:E.
    { exfalso. apply Hne. now apply Hnil. }
    assert (Hsorted : StronglySorted dateLe (first :: rest)).
    { rewrite <- E. unfold aggregate. apply sortBy_sorted. }
    destruct (lastOf (first :: rest)) as [last|] eqn:El.
    2:{ unfold lastOf in El. apply nth_error_None in El. simpl in El. lia. }
    pose proof (sorted_first_last first rest last Hsorted El) as Hb.
    assert (Hsum : demandSum (first :: rest) = Z.of_nat (length trips)).
    { rewrite demandSum_totalDemand, <- E. unfold aggregate.
      rewrite (totalDemand_perm _ _ (sortBy_perm byDate _)).
      apply totalDemand_groupTrips. }
    assert (Hpos : (0 < inject_Z (Z.of_nat (length (first :: rest))))%Q).
    { change 0%Q with (inject_Z 0). rewrite <- Zlt_Qlt. simpl length. lia. }
    eexists. eexists. split; [reflexivity|].
    cbn [DateRange.start DateRange.end_]. split; [|split; [|split; [|split; [|split]]]].
    + intros t Ht. destruct (aggregate_covers_trip h level trips t Ht) as (b & Hin & <-).
      rewrite E in Hin. now apply Hb.
    + destruct (aggregate_bucket_trip h level trips first) as (t & Ht & Hc);
        [rewrite E; now left|]. exists t. split; [exact Ht|]. symmetry. apply Hc.
    + destruct (aggregate_bucket_trip h level trips last) as (t & Ht & Hc).
      { rewrite E. eapply nth_error_In. exact El. }
      exists t. split; [exact Ht|]. symmetry. apply Hc.
    + unfold JS.div, JS.ofZ. rewrite (Qis_zero_pos _ Hpos), Hsum. reflexivity.
    + reflexivity.
    + apply Qle_shift_div_l; [exact Hpos|]. rewrite Qmult_1_l, <- Zle_Qle.
      simpl length in *. lia.
Qed.

Lemma getDataSummary_after_aggregation_witness :
  let st := set_aggregatedData (exampleAggregated utcHost)
              (set_processedData (exampleTrips utcHost) initial) in
  Summary.processedTrips (getDataSummary st) = 8%nat
  /\ Summary.aggregatedRecords (getDataSummary st) = 6%nat
  /\ Summary.avgDemand (getDataSummary st) = Some (JS.Fin (8 # 6)).
Proof.
  destruct (getDataSummary_after_aggregation utcHost "daily" (exampleTrips utcHost)
              (set_aggregatedData (exampleAggregated utcHost)
                 (set_processedData (exampleTrips utcHost) initial))
              eq_refl eq_refl) as (Hp & _).
  cbv zeta. rewrite Hp. repeat split; vm_compute; reflexivity.
Defined.

Lemma firstn_nth_error_Some {A : Type} (k : nat) (rows : list A) (i : nat) (x : A) :
  nth_error (firstn k rows) i = Some x -> nth_error rows i = Some x.
Proof.
  revert k i. induction rows as [|r rows IH]; intros [|k] [|i]; simpl;
    try discriminate; auto.
  apply IH.
Qed.

Lemma firstn_member {A : Type} (k : nat) (rows : list A) (x : A) :
  In x (firstn k rows) -> In x rows.
Proof.
  intros Hin. rewrite <- (firstn_skipn k rows). apply in_or_app. now left.
Qed.

Lemma sliceTo_prefix {A : Type} (end_ : Z) (rows : list A) :
  exists k, sliceTo end_ rows = firstn k rows.
Proof. unfold sliceTo. eexists. reflexivity. Qed.

Lemma weekendFlag_cases (d : Z) :
  (weekendFlag d = 1 /\ (d = 0 \/ d = 6)) \/ (weekendFlag d = 0 /\ d <> 0 /\ d <> 6).
Proof.
  unfold weekendFlag.
  destruct (d =? 0) eqn:E0; [left; split; [reflexivity|lia]|].
  destruct (d =? 6) eqn:E6; simpl; [left; split; [reflexivity|lia]|].
  right. split; [reflexivity|lia].
Qed.

(** X12.  On aggregated data built from trips, [getDataPreview(limit)] shows
    the first [limit] buckets when [limit] is 0 or more, and all but the last
    [-limit] buckets when it is negative; the rows shown are in ascending date
    order, each counts at least one trip, and a row says 'Yes' for the weekend
    exactly when its day of week is 0 or 6, and 'No' otherwise. *)
Theorem getDataPreview_earliest_buckets (h : JS.Host) (level : string)
    (trips : list Trip.t) (limit : Z) (st : State) :
  aggregatedData st = Some (aggregate h level trips) ->
  let aggregated := aggregate h level trips in
  let shown := getDataPreview limit st in
  (0 <= limit -> shown = map previewRow (firstn (Z.to_nat limit) aggregated))
  /\ (limit < 0 ->
        shown = map previewRow
                    (firstn (length aggregated - Z.to_nat (- limit)) aggregated))
  /\ (forall i j a b, (i < j)%nat ->
        nth_error shown i = Some a -> nth_error shown j = Some b ->
        PreviewRow.date a <= PreviewRow.date b)
  /\ (forall row, In row shown ->
        1 <= PreviewRow.demand row
        /\ (PreviewRow.isWeekend row = "Yes"%string
            /\ (PreviewRow.dayOfWeek row = 0 \/ PreviewRow.dayOfWeek row = 6)
            \/ PreviewRow.isWeekend row = "No"%string
               /\ PreviewRow.dayOfWeek row <> 0 /\ PreviewRow.dayOfWeek row <> 6)).
Proof.
  intros Ha aggregated shown. unfold shown, getDataPreview. rewrite Ha. fold aggregated.
  assert (Hsorted : StronglySorted dateLe aggregated) by apply sortBy_sorted.
  split; [|split; [|split]].
  - intros Hl. f_equal. unfold sliceTo.
    replace (Z.min limit (Z.of_nat (length aggregated)) <? 0) with false
      by (symmetry; apply Z.ltb_ge; lia).
    rewrite Z.min_l by lia.
    destruct (Z_le_gt_dec limit (Z.of_nat (length aggregated))) as [Hle|Hgt].
    + now rewrite Z.min_l by lia.
    + rewrite Z.min_r, Nat2Z.id by lia.
      rewrite !firstn_all2; [reflexivity|lia|lia].
  - intros Hl. f_equal. unfold sliceTo. rewrite Z.min_l by lia.
    replace (limit <? 0) with true by (symmetry; apply Z.ltb_lt; lia).
    f_equal. lia.
  - destruct (sliceTo_prefix (Z.min limit (Z.of_nat (length aggregated))) aggregated)
      as [k ->].
    intros i j a b Hij Hi Hj. rewrite nth_error_map in Hi, Hj.
    destruct (nth_error (firstn k aggregated) i) as [x|] eqn:Ex; [|discriminate].
    destruct (nth_error (firstn k aggregated) j) as [y|] eqn:Ey; [|discriminate].
    injection Hi as <-. injection Hj as <-.
    apply firstn_nth_error_Some in Ex, Ey.
    exact (sorted_nth_le aggregated i j x y Hsorted Hij Ex Ey).
  - destruct (sliceTo_prefix (Z.min limit (Z.of_nat (length aggregated))) aggregated)
      as [k ->].
    intros row Hin. apply in_map_iff in Hin as (b & <- & Hin).
    apply firstn_member in Hin.
    pose proof (aggregate_In h level trips b Hin) as Hg.
    destruct (groupTrips_first_trip h level trips _ b Hg) as (t & rest & E & Hc).
    destruct (groupTrips_invariant h level trips) as (_ & Hb & _).
    destruct (Hb _ b Hg) as [_ Hd]. rewrite E in Hd. split.
    + cbn [previewRow PreviewRow.demand]. rewrite Hd. simpl length. lia.
    + destruct Hc as (_ & _ & _ & Hdow & _ & Hw).
      cbn [previewRow PreviewRow.isWeekend PreviewRow.dayOfWeek].
      rewrite Hw, Hdow.
      destruct (weekendFlag_cases (Trip.dayOfWeek t)) as [[-> Hd']|[-> Hd']];
        [left|right]; (split; [reflexivity|exact Hd']).
Qed.

Lemma getDataPreview_earliest_buckets_witness :
  getDataPreview 2 (exampleState utcHost)
  = map previewRow (firstn 2 (exampleAggregated utcHost))
  /\ map PreviewRow.date (getDataPreview (-2) (exampleState utcHost))
     = [19806; 19807; 19808; 19808].
Proof.
  destruct (getDataPreview_earliest_buckets utcHost "daily" (exampleTrips utcHost) 2
              (exampleState utcHost) eq_refl) as (Hfront & _).
  destruct (getDataPreview_earliest_buckets utcHost "daily" (exampleTrips utcHost) (-2)
              (exampleState utcHost) eq_refl) as (_ & Hback & _).
  split.
  - rewrite Hfront by lia. reflexivity.
  - rewrite Hback by lia. vm_compute. reflexivity.
Defined.

(** ** What a failed call leaves behind *)

(** X13.  When [processRawData], [aggregateData], [createSequences],
    [splitData] or [generateFutureSequence] throws, no field of the object
    has changed; [generateFutureSequence] changes none when it returns
    either. *)
Theorem failed_call_changes_nothing (h : JS.Host) (c : Call) (st : State) (e : exn) :
  fst (perform h c st) = Some e ->
  snd (perform h c st) = st
  /\ forall daysToPredict,
       snd (perform h (CallGenerateFutureSequence daysToPredict) st) = st.
Proof.
  intros He. split.
  - destruct c as [level regionSize|level|n|ratio|d]; cbn [perform] in *;
      unfold thrown in *; cbn [fst snd] in *.
    + unfold processRawData in *. destruct (rawData st) as [rows|]; [|reflexivity].
      destruct (length rows =? 0)%nat; [reflexivity|discriminate].
    + unfold aggregateData in *. destruct (processedData st); [discriminate|reflexivity].
    + unfold createSequences in *. destruct (aggregatedData st) as [a|]; [|reflexivity].
      destruct (length a =? 0)%nat; [reflexivity|].
      destruct (length (collectSequences h n a) =? 0)%nat; [reflexivity|].
      destruct (n =? 0)%nat; [reflexivity|discriminate].
    + unfold splitData in *. destruct (sequences st) as [sq|]; [|reflexivity].
      match goal with
      | |- context [match ?s with Ok _ => _ | Throw _ => _ end] =>
          destruct s as [[[[? ?] ?] ?]|e']
      end; [discriminate|reflexivity].
    + clear He. unfold generateFutureSequence.
      repeat match goal with
             | |- context [match ?x with _ => _ end] => destruct x
             end; reflexivity.
  - intros d. cbn [perform]. unfold thrown, generateFutureSequence. cbn [snd].
    repeat match goal with
           | |- context [match ?x with _ => _ end] => destruct x
           end; reflexivity.
Qed.

Lemma failed_call_changes_nothing_witness :
  fst (perform utcHost (CallCreateSequences 5) (exampleState utcHost))
  = Some (Error noSequencesMessage)
  /\ snd (perform utcHost (CallCreateSequences 5) (exampleState utcHost))
     = exampleState utcHost.
Proof.
  assert (He : fst (perform utcHost (CallCreateSequences 5) (exampleState utcHost))
               = Some (Error noSequencesMessage)) by (vm_compute; reflexivity).
  split; [exact He|].
  exact (proj1 (failed_call_changes_nothing utcHost (CallCreateSequences 5)
                  (exampleState utcHost) _ He)).
Defined.

(** X14.  A file with rows of which none is valid makes [loadRawCSV] reject
    after it has replaced the rows loaded before by the empty array, so that
    [processRawData] throws from then on; a file without rows and a parse
    failure reject with every field as it was. *)
Theorem loadRawCSV_rejects_after_overwrite (h : JS.Host) (data : list Row.t)
    (st : State) :
  data <> [] ->
  (forall row, In row data -> isValid h row = false) ->
  loadRawCSV h (Complete data) st
  = (Throw (Error noValidRecordsMessage), set_rawData [] st)
  /\ (forall level regionSize,
        processRawData h level regionSize (set_rawData [] st)
        = (Throw (Error "No raw data loaded"), set_rawData [] st))
  /\ loadRawCSV h (Complete []) st = (Throw (Error emptyFileMessage), st)
  /\ (forall message,
        loadRawCSV h (Failed message) st
        = (Throw (Error (String.append "CSV parsing failed: " message)), st)).
Proof.
  intros Hne Hinv.
  assert (Hf : filter (isValid h) data = []).
  { clear Hne. induction data as [|row data IH]; [reflexivity|]. simpl.
    rewrite (Hinv row) by now left. apply IH. intros r Hr. apply Hinv. now right. }
  split; [|split; [|split]].
  - unfold loadRawCSV. destruct data as [|row data]; [contradiction|].
    cbn [length Nat.eqb]. rewrite Hf. reflexivity.
  - intros level regionSize. unfold processRawData.
    destruct st; reflexivity.
  - reflexivity.
  - reflexivity.
Qed.

Lemma loadRawCSV_rejects_after_overwrite_witness :
  rawData (exampleState utcHost) = Some exampleRows
  /\ rawData (snd (loadRawCSV utcHost (Complete [meridianRow]) (exampleState utcHost)))
     = Some [].
Proof.
  split; [reflexivity|].
  rewrite (proj1 (loadRawCSV_rejects_after_overwrite utcHost [meridianRow]
                    (exampleState utcHost)
                    ltac:(discriminate)
                    ltac:(intros row [<-|[]]; vm_compute; reflexivity))).
  reflexivity.
Defined.

(** ** The handlers of app.js *)

(** X15.  After [loadRawCSV] has resolved, the processing step of the page
    cannot fail, whatever the level and the region size: it stores one trip
    per row whose timestamp converts to a valid date and the buckets of these
    trips, reports at most as many buckets as trips and as many trips as
    rows, and previews five buckets or all of them if they are fewer. *)
Theorem process_step_after_load (h : JS.Host) (outcome : ParseOutcome) (st0 : State)
    (rows : list Row.t) (level : string) (regionSize : JS.number) :
  fst (loadRawCSV h outcome st0) = Ok rows ->
  let st := snd (loadRawCSV h outcome st0) in
  let trips :=
    catMaybes (map (fun trip => orNull (processTrip h (JS.VNumber regionSize) trip))
                   rows) in
  exists summary preview,
    App.processRawData h level regionSize st
    = (Ok (summary, preview),
       set_aggregatedData (aggregate h level trips) (set_processedData trips st))
    /\ Summary.rawRecords summary = length rows
    /\ Summary.processedTrips summary = length (convertible h rows)
    /\ (Summary.aggregatedRecords summary <= Summary.processedTrips summary)%nat
    /\ (Summary.processedTrips summary <= Summary.rawRecords summary)%nat
    /\ length preview = Nat.min 5 (Summary.aggregatedRecords summary).
Proof.
  intros Hload st trips.
  assert (Hst : st = set_rawData rows st0 /\ rows <> []).
  { unfold st. unfold loadRawCSV in *. destruct outcome as [data|message]; [|discriminate].
    destruct (length data =? 0)%nat; [discriminate|].
    destruct (length (filter (isValid h) data) =? 0)%nat eqn:E; [discriminate|].
    simpl in Hload. injection Hload as <-. split; [reflexivity|].
    intros Hnil. rewrite Hnil in E. discriminate. }
  destruct Hst as [Hst Hne]. clearbody st. subst st.
  assert (Hlen : length trips = length (convertible h rows)).
  { symmetry. exact (Forall2_length (processTrips_convertible h _ rows)). }
  destruct (aggregate_buckets_nonempty h level trips) as [Hle _].
  eexists. eexists. split.
  - unfold App.processRawData, andThen, processRawData, aggregateData.
    destruct st0 as [r0 p0 a0 s0 tr0 te0 fs0 ts0]. cbn [rawData set_rawData].
    destruct rows as [|row rows]; [contradiction|]. cbn [length Nat.eqb].
    reflexivity.
  - destruct st0 as [r0 p0 a0 s0 tr0 te0 fs0 ts0]. cbn -[Nat.min]. fold trips. rewrite Hlen.
    split; [reflexivity|]. split; [reflexivity|]. split; [now rewrite <- Hlen|].
    split; [apply filter_length_le|].
    rewrite length_map. unfold sliceTo. rewrite length_firstn.
    set (n := length (aggregate h level trips)).
    destruct (Z.ltb_spec (Z.min 5 (Z.of_nat n)) 0); lia.
Qed.

Lemma process_step_after_load_witness :
  exists summary preview,
    fst (App.processRawData utcHost "daily" (JS.Fin (5 # 100))
           (snd (loadRawCSV utcHost (Complete exampleRows) initial)))
    = Ok (summary, preview)
    /\ Summary.processedTrips summary = 8%nat
    /\ length preview = 5%nat.
Proof.
  destruct (process_step_after_load utcHost (Complete exampleRows) initial exampleRows
              "daily" (JS.Fin (5 # 100)) eq_refl)
    as (summary & preview & E & _ & Hp & _ & _ & Hv).
  exists summary, preview. rewrite E. split; [reflexivity|].
  assert (Hs : summary
               = fst (match fst (App.processRawData utcHost "daily" (JS.Fin (5 # 100))
                                   (snd (loadRawCSV utcHost (Complete exampleRows) initial)))
                      with Ok r => r | Throw _ => (summary, preview) end))
    by (rewrite E; reflexivity).
  split.
  - rewrite Hp. vm_compute. reflexivity.
  - rewrite Hv, Hs. vm_compute. reflexivity.
Defined.

(** *** The table of future predictions *)

Lemma skipn_at {A : Type} (values : list A) (s : nat) :
  skipn s values
  = match nth_error values s with
    | Some v => v :: skipn (S s) values
    | None => []
    end.
Proof.
  revert s. induction values as [|v values IH]; intros [|s]; try reflexivity.
  simpl. rewrite IH. reflexivity.
Qed.

Lemma futureTable_pairs (dates : list Label.t) (futureValues : list JS.number) :
  futureTable dates futureValues = map futureRow (combine dates futureValues).
Proof.
  unfold futureTable.
  assert (H : forall s,
             flat_map (fun entry =>
                         match nth_error futureValues (fst entry) with
                         | Some value =>
                             [ {| FutureRow.date := Label.date (snd entry);
                                  FutureRow.region := Label.region (snd entry);
                                  FutureRow.rides := round value |} ]
                         | None => []
                         end)
                      (combine (seq s (length dates)) dates)
             = map futureRow (combine dates (skipn s futureValues))).
  { induction dates as [|l dates IH]; intros s; [reflexivity|].
    cbn [length seq combine flat_map fst snd]. rewrite IH, (skipn_at futureValues s).
    destruct (nth_error futureValues s) as [v|] eqn:E; [reflexivity|].
    apply nth_error_None in E. rewrite (skipn_all2 futureValues) by lia.
    simpl. now destruct dates. }
  exact (H O).
Qed.

Lemma blocks_nth_region (d : nat) (qualifying : list string)
    (blocks : list (list Label.t)) :
  (0 < d)%nat ->
  Forall2 (fun r block => length block = d /\ forall l, In l block -> Label.region l = r)
          qualifying blocks ->
  forall k l, nth_error (concat blocks) k = Some l ->
              nth_error qualifying (k / d) = Some (Label.region l).
Proof.
  intros Hd HF. induction HF as [|r block qs bs [Hlen Hr] _ IH]; intros k l Hk.
  - now destruct k.
  - simpl in Hk. destruct (lt_dec k d) as [Hlt|Hge].
    + rewrite nth_error_app1 in Hk by lia. apply nth_error_In in Hk.
      rewrite Nat.div_small by lia. simpl. now rewrite (Hr l Hk).
    + rewrite nth_error_app2 in Hk by lia. rewrite Hlen in Hk.
      apply IH in Hk.
      replace k with ((k - d) + 1 * d)%nat at 1 by lia.
      rewrite Nat.div_add by lia. rewrite Nat.add_1_r. exact Hk.
Qed.

(** X16.  With a network that gives one value per window, the table of
    [predictFuture] has one row per region that has a window, not one per
    future date: row [k] shows value [k] beside label [k] of the flattened
    label list, whose region is the region of index [k / 7], so that up to
    seven regions every row names the first of them. *)
Theorem predictFuture_one_row_per_window (h : JS.Host)
    (network : tensor3d -> list JS.number) (m : DemandModel.t) (st : State)
    (aggregated : list Bucket.t) (sq : Sequences.t) (rows : list FutureRow.t) :
  (forall batch, length (network batch) = length batch) ->
  aggregatedData st = Some aggregated ->
  sequences st = Some sq ->
  App.predictFuture h network m st = Ok rows ->
  let L := shape1 (Sequences.features sq) in
  let qualifying :=
    filter (fun r => negb (length (regionDataOf aggregated r) <? L)%nat)
           (Sequences.regions sq) in
  length rows = length qualifying
  /\ (forall k row, nth_error rows k = Some row ->
        nth_error qualifying (k / 7) = Some (FutureRow.region row))
  /\ ((length qualifying <= 7)%nat ->
        forall row, In row rows -> nth_error qualifying 0 = Some (FutureRow.region row)).
Proof.
  intros Hnet Hagg Hsq Hok L qualifying. unfold App.predictFuture in Hok.
  destruct (negb (DemandModel.isTrained m)); [discriminate|].
  destruct (fst (generateFutureSequence h 7 st)) as [future|e] eqn:E; [|discriminate].
  destruct (negb (DemandModel.guard m)); [discriminate|].
  destruct (targetScaler st) as [ts|]; [|discriminate].
  injection Hok as <-.
  destruct (generateFutureSequence_Ok_blocks h 7 st aggregated sq future Hagg Hsq E)
    as (_ & (fs & _ & Hf) & (blocks & Hd & Hb)).
  fold L in Hf, Hb. fold qualifying in Hf, Hb.
  assert (Hn : length (Future.features future) = length qualifying)
    by (rewrite Hf; unfold map3; now rewrite !length_map).
  assert (Hdates : length (Future.dates future) = (7 * length qualifying)%nat).
  { rewrite Hd, (concat_uniform_length 7 blocks).
    - now rewrite (Forall2_length Hb).
    - exact (Forall2_right_all _ _ _ _ Hb (fun r b Hrb => proj1 Hrb)). }
  rewrite futureTable_pairs.
  assert (Hlen : length (map futureRow
                           (combine (Future.dates future)
                              (map (Scaler.denormalize1 ts)
                                   (network (Future.features future)))))
                 = length qualifying).
  { rewrite length_map, length_combine, length_map, Hnet, Hn, Hdates. lia. }
  assert (Hrow : forall k row,
             nth_error (map futureRow
                          (combine (Future.dates future)
                             (map (Scaler.denormalize1 ts)
                                  (network (Future.features future))))) k = Some row ->
             nth_error qualifying (k / 7) = Some (FutureRow.region row)).
  { intros k row Hk. rewrite nth_error_map in Hk.
    destruct (nth_error (combine _ _) k) as [[l v]|] eqn:Ek; [|discriminate].
    injection Hk as <-. cbn [futureRow FutureRow.region fst].
    apply (blocks_nth_region 7 qualifying blocks); [lia|exact Hb|].
    rewrite <- Hd. clear - Ek.
    revert k Ek. generalize (map (Scaler.denormalize1 ts) (network (Future.features future))).
    induction (Future.dates future) as [|x xs IH]; intros [|y ys] [|k] Ek;
      simpl in *; try discriminate.
    - now injection Ek as -> _.
    - eapply IH. exact Ek. }
  split; [exact Hlen|]. split; [exact Hrow|].
  intros Hfew row Hin. apply In_nth_error in Hin as [k Hk].
  assert (Hlt : (k < length qualifying)%nat).
  { rewrite <- Hlen. apply nth_error_Some. congruence. }
  rewrite <- (Nat.div_small k 7) by lia. now apply Hrow.
Qed.

Lemma predictFuture_one_row_per_window_witness :
  exists rows,
    App.predictFuture utcHost zeroNetwork trainedModel
      (snd (forecastRun utcHost exampleRows)) = Ok rows
    /\ length rows = 1%nat.
Proof.
  destruct (App.predictFuture utcHost zeroNetwork trainedModel
              (snd (forecastRun utcHost exampleRows))) as [rows|e] eqn:E;
    [|vm_compute in E; discriminate].
  exists rows. split; [reflexivity|].
  assert (Ha : aggregatedData (snd (forecastRun utcHost exampleRows))
               = Some (exampleAggregated utcHost)) by (vm_compute; reflexivity).
  assert (Hs : sequences (snd (forecastRun utcHost exampleRows))
               = Some (exampleSequences utcHost)) by (vm_compute; reflexivity).
  destruct (predictFuture_one_row_per_window utcHost zeroNetwork trainedModel _ _ _ rows
              (fun batch => length_map _ batch) Ha Hs E) as (Hlen & _).
  rewrite Hlen. vm_compute. reflexivity.
Defined.

(** *** The error shown after evaluation *)

Lemma sum_of_finite (qs : list Q) (acc : Q) :
  fold_left JS.add (map JS.Fin qs) (JS.Fin acc) = JS.Fin (fold_left Qplus qs acc).
Proof.
  revert acc. induction qs as [|q qs IH]; intros acc; [reflexivity|].
  simpl. apply IH.
Qed.

Lemma pairErrors_elements (ps targets : list Q) :
  flat_map (fun p => map (fun a => absolute (JS.sub p a)) (map JS.Fin targets))
           (map JS.Fin ps)
  = map JS.Fin (pairErrors ps targets).
Proof.
  unfold pairErrors. induction ps as [|p ps IH]; [reflexivity|].
  cbn [flat_map map]. rewrite map_app, IH. f_equal. rewrite !map_map. reflexivity.
Qed.

Lemma pairErrors_length (ps targets : list Q) :
  length (pairErrors ps targets) = (length ps * length targets)%nat.
Proof.
  unfold pairErrors. induction ps as [|p ps IH]; [reflexivity|].
  cbn [flat_map length]. rewrite length_app, length_map, IH. reflexivity.
Qed.

Lemma pairErrors_In (ps targets : list Q) (e : Q) :
  In e (pairErrors ps targets)
  <-> exists p a, In p ps /\ In a targets /\ e = Qabs (p + - a).
Proof.
  unfold pairErrors. rewrite in_flat_map. split.
  - intros (p & Hp & He). apply in_map_iff in He as (a & <- & Ha). eauto.
  - intros (p & a & Hp & Ha & ->). exists p. split; [exact Hp|].
    apply in_map_iff. eauto.
Qed.

Lemma sum_of_nonnegative (qs : list Q) :
  (forall q, In q qs -> (0 <= q)%Q) ->
  forall acc,
    (acc <= fold_left Qplus qs acc)%Q
    /\ ((fold_left Qplus qs acc == acc)%Q <-> forall q, In q qs -> (q == 0)%Q).
Proof.
  induction qs as [|x qs IH]; intros Hpos acc.
  - simpl. split; [lra|]. split; [intros _ q []|reflexivity].
  - assert (Hx : (0 <= x)%Q) by (apply Hpos; now left).
    destruct (IH (fun q Hq => Hpos q (or_intror Hq)) (acc + x)%Q) as [Hle Hiff].
    simpl. split; [lra|]. split.
    + intros E. assert (Hx0 : (x == 0)%Q) by lra.
      intros q [<-|Hq]; [exact Hx0|].
      apply (proj1 Hiff); [lra|exact Hq].
    + intros Hall. assert (Hx0 : (x == 0)%Q) by (apply Hall; now left).
      assert (E : (fold_left Qplus qs (acc + x) == acc + x)%Q)
        by (apply (proj2 Hiff); intros q Hq; apply Hall; now right).
      lra.
Qed.

Lemma Qabs_zero_iff (x : Q) : (Qabs x == 0)%Q <-> (x == 0)%Q.
Proof.
  split; intros E.
  - assert (H : (Qabs x <= 0)%Q) by lra.
    apply Qabs_Qle_condition in H. lra.
  - rewrite E. reflexivity.
Qed.

Lemma quotients_of_finite (errors : list Q) :
  map (fun x => JS.div x (JS.ofZ (Z.of_nat (length errors)))) (map JS.Fin errors)
  = map JS.Fin (map (fun e => e / inject_Z (Z.of_nat (length errors)))%Q errors).
Proof.
  rewrite !map_map. apply map_ext_in. intros e He.
  unfold JS.div, JS.ofZ. rewrite Qis_zero_pos; [reflexivity|].
  change 0%Q with (inject_Z 0). rewrite <- Zlt_Qlt.
  destruct errors; [destruct He|simpl; lia].
Qed.

Lemma sum_of_quotients (c : Q) (qs : list Q) (acc acc' : Q) :
  (acc' == acc / c)%Q ->
  (fold_left Qplus (map (fun e => e / c) qs) acc' == fold_left Qplus qs acc / c)%Q.
Proof.
  revert acc acc'. induction qs as [|q qs IH]; intros acc acc' E; [exact E|].
  simpl. apply IH. rewrite E. unfold Qdiv. ring.
Qed.

(** X17.  For [N] finite predictions in a tensor of shape [N, 1] and [M]
    finite targets in one of shape [M], [calculateMAE] is the mean of the
    absolute differences of every prediction with every target, [N * M] of
    them, and 0 when there is none; it is 0 or more, and 0 exactly when
    every prediction equals every target. *)
Theorem calculateMAE_all_pairs (ps targets : list Q) :
  exists v,
    App.calculateMAE (Some (map JS.Fin ps)) (Some (map JS.Fin targets)) = JS.Fin v
    /\ (v == total (pairErrors ps targets)
            / inject_Z (Z.of_nat (length ps * length targets)))%Q
    /\ (0 <= v)%Q
    /\ ((v == 0)%Q <-> forall p a, In p ps -> In a targets -> (p == a)%Q).
Proof.
  set (errors := pairErrors ps targets).
  set (n := inject_Z (Z.of_nat (length ps * length targets))).
  assert (Hn : (0 <= n)%Q)
    by (unfold n; change 0%Q with (inject_Z 0); rewrite <- Zle_Qle; lia).
  assert (Hpos : forall q, In q errors -> (0 <= q)%Q).
  { intros q Hq. apply pairErrors_In in Hq as (p & a & _ & _ & ->). apply Qabs_nonneg. }
  destruct (sum_of_nonnegative _ Hpos 0%Q) as [Hle Hzero].
  fold (total errors) in Hle, Hzero.
  assert (Hsome : forall e, In e errors -> (0 < n)%Q).
  { intros e He. unfold n. rewrite <- pairErrors_length. fold errors.
    change 0%Q with (inject_Z 0). rewrite <- Zlt_Qlt.
    destruct errors; [destruct He|simpl; lia]. }
  exists (fold_left Qplus (map (fun e => e / n)%Q errors) 0%Q).
  assert (Ev : (fold_left Qplus (map (fun e => e / n)%Q errors) 0 == total errors / n)%Q).
  { apply sum_of_quotients. unfold Qdiv. now rewrite Qmult_0_l. }
  split; [|split; [exact Ev|split]].
  - unfold App.calculateMAE, mean. rewrite pairErrors_elements, length_map.
    rewrite quotients_of_finite, pairErrors_length.
    unfold n, errors. apply (sum_of_finite _ 0).
  - rewrite Ev. unfold Qdiv. apply Qmult_le_0_compat; [exact Hle|].
    now apply Qinv_le_0_compat.
  - rewrite Ev. split.
    + intros E p a Hp Ha.
      assert (Hin : In (Qabs (p + - a)) errors) by (apply pairErrors_In; eauto).
      pose proof (Hsome _ Hin) as Hn0.
      assert (Et : (total errors == 0)%Q).
      { apply Qmult_integral in E as [E|E]; [exact E|].
        apply Qinv_lt_0_compat in Hn0. rewrite E in Hn0. now apply Qlt_irrefl in Hn0. }
      apply (proj1 Hzero Et) in Hin.
      apply (proj1 (Qabs_zero_iff _)) in Hin. clear - Hin. lra.
    + intros Hall.
      assert (Et : (total errors == 0)%Q).
      { apply (proj2 Hzero). intros q Hq.
        apply pairErrors_In in Hq as (p & a & Hp & Ha & ->).
        apply (proj2 (Qabs_zero_iff _)). specialize (Hall p a Hp Ha). clear - Hall. lra. }
      unfold Qdiv. rewrite Et. apply Qmult_0_l.
Qed.

(** Predictions that equal their targets [1, 3] give 1, not 0; no
    prediction gives 0. *)
Remark calculateMAE_examples :
  (exists v,
     App.calculateMAE (Some [JS.Fin 1; JS.Fin 3]) (Some [JS.Fin 1; JS.Fin 3]) = JS.Fin v
     /\ (v == 1)%Q)
  /\ App.calculateMAE (Some []) (Some []) = JS.ofZ 0.
Proof.
  split; [|reflexivity]. eexists. split; [vm_compute; reflexivity|reflexivity].
Qed.

(** *** The flags of the demand model *)

Lemma step_keeps_guard (m : DemandModel.t) (c : DemandModel.Call) :
  DemandModel.guard m = true -> DemandModel.guard (DemandModel.step m c) = true.
Proof.
  unfold DemandModel.guard. destruct m as [[config|] epochs trained stored];
    simpl; [|discriminate].
  intros ->. destruct c as [config' [|e|e]|delivered [e|]|]; reflexivity.
Qed.

(** X18.  Once [predict] and [evaluate] pass their guard they pass it after
    any further calls of [createModel], [train] and [dispose], whether these
    throw or not: no call clears [isTrained] or the network, so that a
    network built by [createModel] after training counts as trained. *)
Theorem guard_stays_open (calls : list DemandModel.Call) (m : DemandModel.t) :
  DemandModel.guard m = true ->
  DemandModel.guard (DemandModel.run calls m) = true
  /\ DemandModel.isTrained (DemandModel.run calls m) = true.
Proof.
  revert m. induction calls as [|c calls IH]; intros m Hm.
  - split; [exact Hm|]. unfold DemandModel.guard in Hm.
    now destruct (DemandModel.model m).
  - simpl. apply IH. now apply step_keeps_guard.
Qed.

Lemma guard_stays_open_witness :
  DemandModel.guard trainedModel = true
  /\ DemandModel.guard
       (DemandModel.run [DemandModel.CallCreateModel (exampleConfig 8) DemandModel.Built] trainedModel)
     = true
  /\ DemandModel.model
       (DemandModel.run [DemandModel.CallCreateModel (exampleConfig 8) DemandModel.Built] trainedModel)
     = Some (exampleConfig 8).
Proof.
  split; [reflexivity|]. split; [|reflexivity].
  exact (proj1 (guard_stays_open [DemandModel.CallCreateModel (exampleConfig 8) DemandModel.Built]
                  trainedModel eq_refl)).
Defined.

(** X19.  On an object used from its construction on through [createModel],
    [train] and [dispose] only, [isTrained] is set only while a network
    exists: the guard of [predict] is then [isTrained] itself, and the
    recorded epochs are empty until [train] has run on a network. *)
Theorem trained_only_with_network (calls : list DemandModel.Call) :
  DemandModel.guard (DemandModel.run calls DemandModel.initial)
  = DemandModel.isTrained (DemandModel.run calls DemandModel.initial)
  /\ (DemandModel.model (DemandModel.run calls DemandModel.initial) = None ->
      DemandModel.epochs (DemandModel.run calls DemandModel.initial) = []).
Proof.
  assert (H : forall m,
             (DemandModel.model m = None ->
              DemandModel.isTrained m = false /\ DemandModel.epochs m = []) ->
             DemandModel.model (DemandModel.run calls m) = None ->
             DemandModel.isTrained (DemandModel.run calls m) = false
             /\ DemandModel.epochs (DemandModel.run calls m) = []).
  { induction calls as [|c calls IH]; intros m Hm; [exact Hm|].
    simpl. apply IH.
    destruct m as [[config|] epochs trained stored]; simpl in *.
    - destruct c as [config' [|e|e]|delivered [e|]|]; simpl; discriminate.
    - destruct (Hm eq_refl) as [-> ->].
      destruct c as [config' [|e|e]|delivered [e|]|]; simpl; intros E;
        try discriminate; auto. }
  specialize (H DemandModel.initial (fun _ => conj eq_refl eq_refl)).
  unfold DemandModel.guard.
  destruct (DemandModel.model (DemandModel.run calls DemandModel.initial)).
  - split; [reflexivity|discriminate].
  - destruct (H eq_refl) as [-> ->]. split; reflexivity.
Qed.

(** ** The range of the normalized training targets *)

Lemma sliceFront_prefix {A : Type} (size : JS.number) (t x : list A) :
  sliceFront size t = Ok x -> exists k, x = firstn k t.
Proof.
  unfold sliceFront. destruct (nonNegative size).
  - destruct (asIndex size (length t)) as [k|]; [|discriminate].
    intros H. injection H as <-. now exists k.
  - destruct (isMinusOne size); [|discriminate].
    intros H. injection H as <-. exists (length t). now rewrite firstn_all.
Qed.

Lemma unit_interval (lo hi x : Q) :
  (lo < hi)%Q -> (lo <= x <= hi)%Q -> (0 <= (x - lo) / (hi - lo) <= 1)%Q.
Proof.
  intros Hlt [H1 H2]. assert (Hpos : (0 < hi - lo)%Q) by lra. split.
  - apply Qle_shift_div_l; [exact Hpos|]. lra.
  - apply Qle_shift_div_r; [exact Hpos|]. lra.
Qed.

(** X20.  When [splitData] returns on sequences whose targets are finite,
    the training targets are a prefix of the targets, normalized by a scaler
    fitted on that prefix; unless all targets of the prefix are equal, every
    normalized training target lies between 0 and 1, and both 0 and 1 occur
    among them. *)
Theorem train_targets_in_unit_interval (st : State) (sq : Sequences.t)
    (trainRatio : JS.number) (split : Split.t) (demands : list Q) :
  sequences st = Some sq ->
  Sequences.targets sq = map JS.Fin demands ->
  fst (splitData trainRatio st) = Ok split ->
  exists k,
    let prefix := firstn k demands in
    let train := TrainData.targets (Split.train split) in
    train = map (Scaler.normalize1 (createScaler (map JS.Fin prefix))) (map JS.Fin prefix)
    /\ targetScaler (snd (splitData trainRatio st))
       = Some (createScaler (map JS.Fin prefix))
    /\ ((forall x y, In x prefix -> In y prefix -> (x == y)%Q)
        \/ (forall y, In y train -> exists v, y = JS.Fin v /\ (0 <= v <= 1)%Q)
           /\ (exists v, In (JS.Fin v) train /\ (v == 0)%Q)
           /\ (exists v, In (JS.Fin v) train /\ (v == 1)%Q)).
Proof.
  intros Hsq Ht Hok. unfold splitData in *. rewrite Hsq in *. rewrite Ht in *.
  set (size := JS.floor (Double.mul (JS.ofZ (Z.of_nat (length (Sequences.features sq))))
                                    trainRatio)) in *.
  destruct (sliceFront size (Sequences.features sq)) as [X_train|e]; [|discriminate].
  destruct (sliceFront size (map JS.Fin demands)) as [y_train|e] eqn:Ey; [|discriminate].
  destruct (sliceBack size (Sequences.features sq)) as [X_test|e]; [|discriminate].
  destruct (sliceBack size (map JS.Fin demands)) as [y_test|e]; [|discriminate].
  cbn [bind fst snd] in *. injection Hok as <-.
  destruct (sliceFront_prefix _ _ _ Ey) as [k ->]. exists k.
  rewrite firstn_map. cbv zeta. cbn [Split.train TrainData.targets].
  split; [reflexivity|]. split; [destruct st; reflexivity|].
  destruct (firstn k demands) as [|a A] eqn:Ep; [left; intros x y []|].
  destruct (createScaler_finite a A) as (lo & hi & Hs & Hlo & Hhi).
  destruct (createScaler_extrema (a :: A) lo hi) as (_ & _ & Hb);
    [now rewrite Hs|now rewrite Hs|].
  destruct (Qlt_le_dec lo hi) as [Hlt|Hle].
  - right. rewrite Hs.
    assert (Hn : forall x,
               Scaler.normalize1 {| Scaler.min := JS.Fin lo; Scaler.max := JS.Fin hi |}
                                 (JS.Fin x)
               = JS.Fin ((x - lo) / (hi - lo)))
      by (intros x; now apply normalize1_finite).
    split; [|split].
    + intros y Hy. rewrite map_map in Hy. apply in_map_iff in Hy as (x & <- & Hx).
      rewrite Hn. eexists. split; [reflexivity|].
      apply unit_interval; [exact Hlt|now apply Hb].
    + exists ((lo - lo) / (hi - lo))%Q. split.
      * rewrite map_map. apply in_map_iff. exists lo. split; [apply Hn|exact Hlo].
      * unfold Qdiv. setoid_replace (lo - lo)%Q with 0%Q by ring. apply Qmult_0_l.
    + exists ((hi - lo) / (hi - lo))%Q. split.
      * rewrite map_map. apply in_map_iff. exists hi. split; [apply Hn|exact Hhi].
      * apply Qmult_inv_r. clear - Hlt. lra.
  - left. intros x y Hx Hy. destruct (Hb x Hx). destruct (Hb y Hy). lra.
Qed.

Lemma train_targets_in_unit_interval_witness :
  exists split,
    fst (splitData (JS.Fin 1) (exampleState utcHost)) = Ok split
    /\ exists v, In (JS.Fin v) (TrainData.targets (Split.train split)) /\ (v == 1)%Q.
Proof.
  destruct (fst (splitData (JS.Fin 1) (exampleState utcHost))) as [split|e] eqn:E;
    [|vm_compute in E; discriminate].
  exists split. split; [reflexivity|].
  destruct (train_targets_in_unit_interval (exampleState utcHost)
              (exampleSequences utcHost) (JS.Fin 1) split
              (map inject_Z [1; 1; 3])
              eq_refl ltac:(vm_compute; reflexivity) E)
    as (k & Htrain & Hscaler & [Hsame|(_ & _ & Hone)]); [|exact Hone].
  exfalso. cbv zeta in Hscaler, Hsame.
  destruct k as [|[|[|k]]];
    try (vm_compute in Hscaler; congruence).
  specialize (Hsame (inject_Z 1) (inject_Z 3) (or_introl eq_refl)
                    (or_intror (or_intror (or_introl eq_refl)))).
  vm_compute in Hsame. discriminate.
Defined.
